(** * Multi-agent phishing e-mail classification: the analyzer pipeline

    A shallow embedding of [src/agents/base_agent.py],
    [src/agents/text_agent_v2.py], [src/agents/url_agent_v2.py] and
    [src/agents/unified_analyzer.py], and the properties of the result
    extractor, of the analyzers and of the merge algorithm; then the URL
    check of [src/agents/url_agent.py], the first text analyzer of
    [src/agents/text_agent.py] and the functions of
    [src/agents/normalize_phishing_datasets.py] that work on texts and
    records (columns, labels, URLs, duplicates, the split).

    How the Python is modelled:
    - values live in a store of objects addressed by location, so that two
      names for one list are one list, and [extend] changes it for both;
    - an exception is the [Raise] outcome of a computation, which leaves the
      state as it was when the exception was raised;
    - floats are the kernel's binary64 numbers, [round(x, 2)] is computed
      from the exact value of [x];
    - the reasoning backend is an oracle applied to the requests sent so far
      and to the new request, and every request is logged;
    - what the libraries decide is a parameter: [json.loads] (the document
      it returns or the exception it raises), the order in which a [set]
      is iterated, [str()] of a value that is not a string; in the
      normalization script, the SHA-1 digest, the shuffle of [random] and
      the parser of the [email] library;
    - the instruction texts of the two analyzers of the pipeline are
      parameters too, as nothing there depends on them; where the first
      text analyzer is compared with the second, the two texts are written
      out as the sources have them;
    - the one regular expression of the script is written out as the
      scanner it stands for; a [set] of digests is a [gset], a row of
      [csv.DictReader] a [gmap]. *)

From Stdlib Require Import ZArith Ascii String List Floats Lia Bool Permutation.
From stdpp Require Import base list strings gmap.
Import ListNotations.

#[local] Set Warnings "-inexact-float,-register-all".
#[local] Open Scope string_scope.
#[local] Open Scope Z_scope.

(** ** Python strings: [str.find], [str.rfind] and slicing

    A Python [str] is modelled as a Rocq [string]; the two braces are ASCII
    characters, so looking for them goes position by position.  (A
    character outside ASCII takes several positions here and one in Python;
    positions only serve to cut the text, and the cuts are the same.) *)

Module PyStr.

Definition lbrace : ascii := "{"%char.
Definition rbrace : ascii := "}"%char.
Definition newline : string := String (ascii_of_nat 10) EmptyString.

Definition len (s : string) : Z := Z.of_nat (String.length s).

(** Number of occurrences of the character [c] in [s]. *)
Fixpoint count_char (c : ascii) (s : string) : nat :=
  match s with
  | EmptyString => 0%nat
  | String a s' => ((if Ascii.eqb a c then 1 else 0) + count_char c s')%nat
  end.

(** [s.find(c)] for a one-character [c]: the lowest index, or [-1]. *)
Fixpoint find (c : ascii) (s : string) : Z :=
  match s with
  | EmptyString => -1
  | String a s' =>
      if Ascii.eqb a c then 0
      else let r := find c s' in if r =? -1 then -1 else r + 1
  end.

(** [s.rfind(c)] for a one-character [c]: the highest index, or [-1]. *)
Fixpoint rfind (c : ascii) (s : string) : Z :=
  match s with
  | EmptyString => -1
  | String a s' =>
      let r := rfind c s' in
      if r =? -1 then (if Ascii.eqb a c then 0 else -1) else r + 1
  end.

(** A slice bound, as Python normalises it: a negative bound counts from
    the end, and every bound is clamped to [0 .. len]. *)
Definition clamp (n i : Z) : Z :=
  if i <? 0 then Z.max 0 (i + n) else Z.min i n.

(** [s[start:stop]]. *)
Definition slice (s : string) (start stop : Z) : string :=
  let a := clamp (len s) start in
  let b := clamp (len s) stop in
  substring (Z.to_nat a) (Z.to_nat (b - a)) s.

(** ["sep".join(parts)]. *)
Fixpoint join (sep : string) (parts : list string) : string :=
  match parts with
  | [] => ""
  | [p] => p
  | p :: rest => p ++ sep ++ join sep rest
  end.

(** [needle in s]. *)
Fixpoint contains (needle s : string) : bool :=
  String.prefix needle s
  || match s with
     | EmptyString => false
     | String _ s' => contains needle s'
     end.

End PyStr.

(** ** JSON documents and Python exceptions *)

(** What [json.loads] builds: [None], [bool], [int], [float], [str], [list]
    and [dict] (keys in insertion order). *)
Inductive json : Type :=
| JNull
| JBool (b : bool)
| JInt (z : Z)
| JFloat (f : float)
| JStr (s : string)
| JList (items : list json)
| JObject (fields : list (string * json)).

(** The exceptions the pipeline can raise.  [JSONDecodeError] is a subclass of
    [ValueError] and keeps the document it was given; [RecursionError] is a
    [RuntimeError], and no [ValueError]; [BackendError] stands for whatever
    the HTTP round trip raises ([requests] connection errors, [HTTPError]
    from [raise_for_status], an undecodable or ill-shaped response body). *)
Inductive exn : Type :=
| ValueError (msg : string)
| JSONDecodeError (doc : string)
| RecursionError
| TypeError
| AttributeError
| OverflowError
| BackendError (detail : string).

(** The spec's Malformed Output failure: a [ValueError], of which
    [JSONDecodeError] is a subclass. *)
Definition is_malformed_output (e : exn) : bool :=
  match e with
  | ValueError _ | JSONDecodeError _ => true
  | _ => false
  end.

(** The spec's Backend Unavailable failure. *)
Definition is_backend_unavailable (e : exn) : bool :=
  match e with
  | BackendError _ => true
  | _ => false
  end.

Inductive outcome (A : Type) : Type :=
| Ok (a : A)
| Raise (e : exn).
Arguments Ok {A} a.
Arguments Raise {A} e.

(** ** The result extractor ([BaseAgent._extract_json]) *)

Section Extractor.

(** [json.loads] on a [str]: the document, or the exception it raises: a
    [JSONDecodeError] on a text that is no JSON document, a [ValueError] on
    a number of more digits than [int] converts, a [RecursionError] on a
    text whose brackets nest deeper than the interpreter's recursion limit
    allows, be the text a JSON document or not. *)
Variable json_loads : string -> outcome json.

Definition no_object_error : exn :=
  ValueError "No JSON object found in model output".

Definition _extract_json (raw : string) : outcome json :=
  let start := PyStr.find PyStr.lbrace raw in
  let end_ := PyStr.rfind PyStr.rbrace raw in
  if (start =? -1) || (end_ =? -1) || (end_ <=? start) then
    Raise no_object_error
  else
    let json_str := PyStr.slice raw start (end_ + 1) in
    json_loads json_str.

End Extractor.

(** ** Python values and the store *)

Definition loc := nat.

(** A value is immediate, or a reference to a list or dict of the store. *)
Inductive val : Type :=
| VNone
| VBool (b : bool)
| VInt (z : Z)
| VFloat (f : float)
| VStr (s : string)
| VRef (l : loc).

Inductive obj : Type :=
| OList (items : list val)
| ODict (fields : list (string * val)).

(** One request to the reasoning backend: the payload of [call_llm]. *)
Record request : Type := Request {
  req_url : string;
  req_model : string;
  req_system : string;
  req_user : string;
  req_stream : bool
}.

(** A computation over a state [S] returns a value or raises, and leaves a
    state behind either way. *)
Definition ST (S A : Type) : Type := S -> outcome A * S.

Definition ret {S A} (a : A) : ST S A := fun s => (Ok a, s).
Definition raise {S A} (e : exn) : ST S A := fun s => (Raise e, s).
Definition bind {S A B} (m : ST S A) (k : A -> ST S B) : ST S B :=
  fun s => match m s with
           | (Ok a, s') => k a s'
           | (Raise e, s') => (Raise e, s')
           end.
Definition lift {S A} (o : outcome A) : ST S A :=
  match o with Ok a => ret a | Raise e => raise e end.

Notation "x <- m ;; k" := (bind m (fun x => k))
  (at level 100, m at next level, right associativity).
Notation "m ;;; k" := (bind m (fun _ => k))
  (at level 100, right associativity).

(** [[f(x) for x in xs]], left to right. *)
Fixpoint mapM {S A B} (f : A -> ST S B) (xs : list A) : ST S (list B) :=
  match xs with
  | [] => ret []
  | x :: rest => y <- f x ;; ys <- mapM f rest ;; ret (y :: ys)
  end.

(** [for x in xs: f(x)]. *)
Fixpoint forM_ {S A} (f : A -> ST S unit) (xs : list A) : ST S unit :=
  match xs with
  | [] => ret tt
  | x :: rest => f x ;;; forM_ f rest
  end.

(** The store: the objects, by location.  [M] is a computation on it. *)
Definition M (A : Type) : Type := ST (list obj) A.

(** A new object: its location is the next free one. *)
Definition alloc (o : obj) : M val :=
  fun h => (Ok (VRef (length h)), (h ++ [o])%list).

(** A location outside the store is not a state Python can be in; reading it
    is reported as an [AttributeError] and never happens from a store whose
    references are all allocated. *)
Definition load (l : loc) : M obj :=
  fun h => match h !! l with
           | Some o => (Ok o, h)
           | None => (Raise AttributeError, h)
           end.

Definition store (l : loc) (o : obj) : M unit :=
  fun h => (Ok tt, <[l := o]> h).

(** The first binding of [k] in a dict's fields. *)
Fixpoint assoc (k : string) (kvs : list (string * val)) : option val :=
  match kvs with
  | [] => None
  | (k', v) :: rest => if String.eqb k' k then Some v else assoc k rest
  end.

(** [d.get(k, dflt)]: only a dict has the method; the default is an
    expression, evaluated (a literal [[]] is a new list) once the method has
    been found and before the call. *)
Definition dict_get (d : val) (k : string) (dflt : M val) : M val :=
  match d with
  | VRef l =>
      o <- load l ;;
      match o with
      | ODict kvs => v <- dflt ;; ret (default v (assoc k kvs))
      | OList _ => raise AttributeError
      end
  | _ => raise AttributeError
  end.

(** [bool(v)], as in [if v:]. *)
Definition truthy (v : val) : M bool :=
  match v with
  | VNone => ret false
  | VBool b => ret b
  | VInt z => ret (negb (z =? 0))
  | VFloat f => ret (negb (PrimFloat.eqb f 0))
  | VStr s => ret (negb (String.eqb s ""))
  | VRef l =>
      o <- load l ;;
      match o with
      | OList xs => ret (negb (Nat.eqb (length xs) 0))
      | ODict kvs => ret (negb (Nat.eqb (length kvs) 0))
      end
  end.

Fixpoint chars (s : string) : list val :=
  match s with
  | EmptyString => []
  | String a s' => VStr (String a EmptyString) :: chars s'
  end.

(** [iter(v)] run to the end: the items of a list, the keys of a dict, the
    characters of a string; nothing else is iterable. *)
Definition iterate (v : val) : M (list val) :=
  match v with
  | VStr s => ret (chars s)
  | VRef l =>
      o <- load l ;;
      match o with
      | OList xs => ret xs
      | ODict kvs => ret (map (fun kv => VStr (fst kv)) kvs)
      end
  | _ => raise TypeError
  end.

(** [lst.extend(arg)]: only a list has the method; the items of [arg] are
    read first and then appended in place. *)
Definition list_extend (lst arg : val) : M unit :=
  match lst with
  | VRef l =>
      o <- load l ;;
      match o with
      | OList xs => ys <- iterate arg ;; store l (OList (xs ++ ys)%list)
      | ODict _ => raise AttributeError
      end
  | _ => raise AttributeError
  end.

(** ** Python numbers *)

Module PyNum.

(** [float(n)] for an [int]: the nearest binary64 number (ties to even),
    and [OverflowError] beyond the largest one. *)
Definition of_int (z : Z) : outcome float :=
  let f := SF2Prim (binary_normalize prec emax z 0 false) in
  if is_infinity f then Raise OverflowError else Ok f.

(** The float operand an arithmetic operator with a float on the other
    side sees: a [float] itself, an [int] or [bool] converted; anything
    else has no such operator. *)
Definition to_float (v : val) : outcome float :=
  match v with
  | VFloat f => Ok f
  | VInt z => of_int z
  | VBool b => Ok (if b then 1%float else 0%float)
  | _ => Raise TypeError
  end.

(** [f * v] and [v * f] for a float [f]. *)
Definition mul_l (f : float) (v : val) : M float :=
  x <- lift (to_float v) ;; ret (f * x)%float.

Definition mul_r (v : val) (f : float) : M float :=
  x <- lift (to_float v) ;; ret (x * f)%float.

(** The integer nearest to [n / d] for [d > 0], ties to the even one. *)
Definition round_half_even (n d : Z) : Z :=
  let q := n / d in
  let r := n mod d in
  match (2 * r ?= d) with
  | Lt => q
  | Gt => q + 1
  | Eq => if Z.even q then q else q + 1
  end.

(** [round(x, 2)] for a float: the exact value of [x] is rounded to the
    nearest multiple of 1/100 (ties to even, as [dtoa] in mode 3 does),
    and that decimal is read back as the nearest binary64 number; zeros,
    infinities and NaN round to themselves, and the sign is kept. *)
Definition round2 (x : float) : float :=
  match Prim2SF x with
  | S754_finite s m e =>
      let hundredths :=
        if 0 <=? e then Z.pos m * 2 ^ e * 100
        else round_half_even (Z.pos m * 100) (2 ^ (- e)) in
      match hundredths with
      | Z.pos p =>
          SF2Prim (SFdiv prec emax (S754_finite s p 0)
                                   (S754_finite false 100 0))
      | _ => if s then (-0)%float else 0%float
      end
  | _ => x
  end.

(** [round(v, 2)]: a float is rounded to a float, an [int] (and a [bool],
    which is an [int]) is returned as an [int], unchanged. *)
Definition round_ndigits2 (v : val) : outcome val :=
  match v with
  | VFloat f => Ok (VFloat (round2 f))
  | VInt z => Ok (VInt z)
  | VBool b => Ok (VInt (if b then 1 else 0))
  | _ => Raise TypeError
  end.

End PyNum.

(** ** The merge algorithm ([UnifiedEmailAnalyzer._merge_results]) *)

Section Merge.

(** The order in which [list(set(xs))] lists the distinct items of [xs]:
    the iteration order of a CPython set, which follows the hashes of the
    items (the hash of a string is salted per interpreter process). *)
Variable set_order : list val -> list val.

(** [str(v)] for a value that is not a string, as an f-string renders it. *)
Variable py_str : list obj -> val -> string.

Definition format_value (v : val) : M string :=
  fun h => (Ok (match v with VStr s => s | _ => py_str h v end), h).

(** Lists and dicts are unhashable. *)
Definition hashable (v : val) : bool :=
  match v with VRef _ => false | _ => true end.

(** [list(set(v))]. *)
Definition list_of_set (v : val) : M val :=
  xs <- iterate v ;;
  if forallb hashable xs then alloc (OList (set_order xs))
  else raise TypeError.

Definition verdict_scores : list (string * float) :=
  [("phishing", 1.0%float); ("unsure", 0.5%float); ("legitimate", 0.0%float)].

Fixpoint score_of (k : string) (table : list (string * float)) : option float :=
  match table with
  | [] => None
  | (k', x) :: rest => if String.eqb k' k then Some x else score_of k rest
  end.

(** [verdict_scores.get(key, dflt)]: the key must be hashable, and only a
    string equals one of the table's keys. *)
Definition verdict_scores_get (key : val) (dflt : float) : M float :=
  match key with
  | VRef _ => raise TypeError
  | VStr s => ret (default dflt (score_of s verdict_scores))
  | _ => ret dflt
  end.

(** [verdict_scores.get(result.get("verdict", "unsure"), 0.5)], the
    expression of lines 48 and 53. *)
Definition verdict_score (result : val) : M float :=
  verdict <- dict_get result "verdict" (ret (VStr "unsure")) ;;
  verdict_scores_get verdict 0.5%float.

(** Lines 45-63: the scores, the combined score and confidence, and
    whether the URL result counts. *)
Definition score_results (text_result url_result : val)
  : M (float * val * bool) :=
  text_score <- verdict_score text_result ;;
  text_confidence <- dict_get text_result "confidence" (ret (VFloat 0.5)) ;;
  has_url <- truthy url_result ;;
  if has_url then
    url_score <- verdict_score url_result ;;
    url_confidence <- dict_get url_result "confidence" (ret (VFloat 0.5)) ;;
    st <- PyNum.mul_l (text_score * 0.6)%float text_confidence ;;
    su <- PyNum.mul_l (url_score * 0.4)%float url_confidence ;;
    ct <- PyNum.mul_r text_confidence 0.6%float ;;
    cu <- PyNum.mul_r url_confidence 0.4%float ;;
    ret ((st + su)%float, VFloat (ct + cu)%float, true)
  else
    combined_score <- PyNum.mul_l text_score text_confidence ;;
    ret (combined_score, text_confidence, false).

(** Lines 65-71. *)
Definition final_verdict (combined_score : float) : string :=
  if PrimFloat.leb 0.7 combined_score then "phishing"
  else if PrimFloat.leb combined_score 0.3 then "legitimate"
  else "unsure".

(** Lines 73-80: [all_phishing_indicators] is the very list found in
    [text_result] when it has one, and the URL indicators are appended to
    that list. *)
Definition compile_indicators (text_result url_result : val)
  : M (val * val) :=
  all_phishing_indicators <-
    dict_get text_result "phishing_indicators" (alloc (OList [])) ;;
  all_legitimacy_indicators <-
    dict_get text_result "legitimacy_indicators" (alloc (OList [])) ;;
  has_url <- truthy url_result ;;
  (if has_url then
     url_details <- dict_get url_result "url_details" (alloc (OList [])) ;;
     ds <- iterate url_details ;;
     url_indicators <-
       mapM (fun d => dict_get d "indicators" (alloc (OList []))) ds ;;
     forM_ (fun indicators_list =>
              list_extend all_phishing_indicators indicators_list)
           url_indicators
   else ret tt) ;;;
  ret (all_phishing_indicators, all_legitimacy_indicators).

(** Lines 101-110. *)
Definition _build_rationale (verdict : string) (text_result url_result : val)
  : M string :=
  text_rationale <- dict_get text_result "overall_rationale" (ret (VStr "")) ;;
  has_url <- truthy url_result ;;
  if has_url then
    url_rationale <- dict_get url_result "overall_rationale" (ret (VStr "")) ;;
    t <- format_value text_rationale ;;
    u <- format_value url_rationale ;;
    ret ("Text analysis: " ++ t ++ PyStr.newline ++ PyStr.newline
         ++ "URL analysis: " ++ u)
  else
    t <- format_value text_rationale ;;
    ret ("Based on text analysis: " ++ t).

(** Lines 42-99. *)
Definition _merge_results (text_result url_result : val) : M val :=
  sc <- score_results text_result url_result ;;
  let '(combined_score, combined_confidence, urls_analyzed) := sc in
  let final := final_verdict combined_score in
  ind <- compile_indicators text_result url_result ;;
  let '(all_phishing_indicators, all_legitimacy_indicators) := ind in
  confidence <- lift (PyNum.round_ndigits2 combined_confidence) ;;
  phishing_indicators <- list_of_set all_phishing_indicators ;;
  agents_used <-
    alloc (ODict [("text", VBool true); ("url", VBool urls_analyzed)]) ;;
  overall_rationale <- _build_rationale final text_result url_result ;;
  safety_notes <- dict_get text_result "safety_notes" (ret (VStr "")) ;;
  alloc (ODict [("task", VStr "email_phishing_detection");
                ("verdict", VStr final);
                ("confidence", confidence);
                ("phishing_indicators", phishing_indicators);
                ("legitimacy_indicators", all_legitimacy_indicators);
                ("agents_used", agents_used);
                ("text_agent_result", text_result);
                ("url_agent_result", url_result);
                ("overall_rationale", VStr overall_rationale);
                ("safety_notes", safety_notes)]).

End Merge.

(** ** Analyzers ([BaseAgent], [TextAgent], [URLAgent]) and the orchestrator *)

Section Agents.

(** The reasoning backend: what the HTTP round trip of [call_llm] yields
    for a request, given the requests answered before it: the text of
    [data["message"]["content"]], or the exception raised on the way. *)
Variable backend : list request -> request -> outcome string.

Variable json_loads : string -> outcome json.
Variable set_order : list val -> list val.
Variable py_str : list obj -> val -> string.

(** The two instruction texts (module constants of the agents). *)
Variable TEXT_AGENT_SYSTEM_PROMPT : string.
Variable URL_AGENT_SYSTEM_PROMPT : string.

(** The objects [json.loads] returns for a document: new ones, parts
    before the whole. *)
Fixpoint alloc_json (j : json) : M val :=
  match j with
  | JNull => ret VNone
  | JBool b => ret (VBool b)
  | JInt z => ret (VInt z)
  | JFloat f => ret (VFloat f)
  | JStr s => ret (VStr s)
  | JList items =>
      vs <- (fix go (js : list json) : M (list val) :=
               match js with
               | [] => ret []
               | j' :: rest =>
                   v <- alloc_json j' ;; vs <- go rest ;; ret (v :: vs)
               end) items ;;
      alloc (OList vs)
  | JObject fields =>
      kvs <- (fix go (fs : list (string * json)) : M (list (string * val)) :=
                match fs with
                | [] => ret []
                | (k, j') :: rest =>
                    v <- alloc_json j' ;; kvs <- go rest ;; ret ((k, v) :: kvs)
                end) fields ;;
      alloc (ODict kvs)
  end.

(** An analyzer: the abstract methods of [BaseAgent] as fields, over the
    keyword arguments [I] of its [analyze]. *)
Record BaseAgent (I : Type) : Type := Agent {
  model : string;
  ollama_url : string;
  agent_name : string;
  get_system_prompt : string;
  prepare_input : I -> string
}.
Arguments model {I}.
Arguments ollama_url {I}.
Arguments agent_name {I}.
Arguments get_system_prompt {I}.
Arguments prepare_input {I}.

(** The state of an analysis: the store, and the requests sent to the
    backend so far (oldest first). *)
Record world : Type := World {
  heap : list obj;
  calls : list request
}.

Definition IO (A : Type) : Type := ST world A.

(** A computation on the store, run on the store of the world. *)
Definition on_heap {A} (m : M A) : IO A :=
  fun w => let (r, h) := m (heap w) in (r, World h (calls w)).

(** The world once [req] has been sent. *)
Definition logged (w : world) (req : request) : world :=
  {| heap := heap w; calls := (calls w ++ [req])%list |}.

(** [requests.post] up to [raw_content]: the request is sent, and logged. *)
Definition post (req : request) : IO string :=
  fun w => (backend (calls w) req, logged w req).

(** The request [call_llm] posts: where to, and the payload. *)
Definition payload {I} (self : BaseAgent I)
    (system_prompt user_message : string) : request :=
  {| req_url := ollama_url self ++ "/api/chat";
     req_model := model self;
     req_system := system_prompt;
     req_user := user_message;
     req_stream := false |}.

Definition call_llm {I} (self : BaseAgent I)
    (system_prompt user_message : string) : IO val :=
  raw_content <- post (payload self system_prompt user_message) ;;
  obj <- lift (_extract_json json_loads raw_content) ;;
  on_heap (alloc_json obj).

(** The request an analyzer sends for its input. *)
Definition request_of {I} (self : BaseAgent I) (kwargs : I) : request :=
  payload self (get_system_prompt self) (prepare_input self kwargs).

Definition analyze {I} (self : BaseAgent I) (kwargs : I) : IO val :=
  let system_prompt := get_system_prompt self in
  let user_message := prepare_input self kwargs in
  result <- call_llm self system_prompt user_message ;;
  ret result.

Definition TextAgent (model ollama_url : string) : BaseAgent (string * string) :=
  {| model := model;
     ollama_url := ollama_url;
     agent_name := "text";
     get_system_prompt := TEXT_AGENT_SYSTEM_PROMPT;
     prepare_input := fun '(subject, body) =>
       "Subject: " ++ subject ++ PyStr.newline ++ PyStr.newline
       ++ "Body:" ++ PyStr.newline ++ body |}.

Definition URLAgent (model ollama_url : string)
  : BaseAgent (option (list string)) :=
  {| model := model;
     ollama_url := ollama_url;
     agent_name := "url";
     get_system_prompt := URL_AGENT_SYSTEM_PROMPT;
     prepare_input := fun urls =>
       let urls := match urls with
                   | None | Some [] => []
                   | Some us => us
                   end in
       let urls_text := match urls with
                        | [] => "(no URLs provided)"
                        | _ => PyStr.join PyStr.newline urls
                        end in
       "URLs to analyze:" ++ PyStr.newline ++ urls_text |}.

Record UnifiedEmailAnalyzer : Type := Analyzer {
  text_agent : BaseAgent (string * string);
  url_agent : BaseAgent (option (list string))
}.

Definition new_analyzer (model ollama_url : string) : UnifiedEmailAnalyzer :=
  {| text_agent := TextAgent model ollama_url;
     url_agent := URLAgent model ollama_url |}.

(** [UnifiedEmailAnalyzer.analyze_email], lines 19-40. *)
Definition analyze_email (self : UnifiedEmailAnalyzer)
    (subject body : string) (urls : option (list string)) : IO val :=
  let urls := match urls with None => [] | Some us => us end in
  text_result <- analyze (text_agent self) (subject, body) ;;
  url_result <-
    match urls with
    | [] => ret VNone
    | _ => analyze (url_agent self) (Some urls)
    end ;;
  merged <- on_heap (_merge_results set_order py_str text_result url_result) ;;
  ret merged.

(** The module-level convenience function, with the constructor defaults. *)
Definition analyze_email_default
    (subject body : string) (urls : option (list string)) : IO val :=
  analyze_email (new_analyzer "llama3" "http://localhost:11434")
                subject body urls.

End Agents.

Arguments model {I}.
Arguments ollama_url {I}.
Arguments agent_name {I}.
Arguments get_system_prompt {I}.
Arguments prepare_input {I}.

(** ** Observing results *)

(** The field [k] of the dict at [v], if [v] is a dict that has one. *)
Definition field (h : list obj) (v : val) (k : string) : option val :=
  match v with
  | VRef l =>
      match h !! l with
      | Some (ODict kvs) => assoc k kvs
      | _ => None
      end
  | _ => None
  end.

(** The document a value stands for in a store (what [json.dumps] would
    write), down to [fuel] levels of nesting. *)
Fixpoint read_back (fuel : nat) (h : list obj) (v : val) : option json :=
  match v with
  | VNone => Some JNull
  | VBool b => Some (JBool b)
  | VInt z => Some (JInt z)
  | VFloat f => Some (JFloat f)
  | VStr s => Some (JStr s)
  | VRef l =>
      match fuel with
      | O => None
      | S n =>
          match h !! l with
          | Some (OList xs) =>
              option_map JList
                (fold_right (fun x acc =>
                               match read_back n h x, acc with
                               | Some j, Some js => Some (j :: js)
                               | _, _ => None
                               end) (Some []) xs)
          | Some (ODict kvs) =>
              option_map JObject
                (fold_right (fun kv acc =>
                               match read_back n h (snd kv), acc with
                               | Some j, Some js => Some ((fst kv, j) :: js)
                               | _, _ => None
                               end) (Some []) kvs)
          | None => None
          end
      end
  end.

(** How deep the lists and objects of a document nest. *)
Fixpoint depth (j : json) : nat :=
  match j with
  | JList items =>
      S (fold_right (fun x acc => Nat.max (depth x) acc) 0%nat items)
  | JObject fields =>
      S (fold_right (fun kj acc => Nat.max (depth (snd kj)) acc) 0%nat fields)
  | _ => 0%nat
  end.

(** The field [k] of a JSON object's fields. *)
Fixpoint json_assoc (k : string) (fields : list (string * json)) : option json :=
  match fields with
  | [] => None
  | (k', j) :: rest => if String.eqb k' k then Some j else json_assoc k rest
  end.

(** The document a merge returns, read back from the store it leaves. *)
Definition merged_doc (set_order : list val -> list val)
    (py_str : list obj -> val -> string)
    (text_result url_result : val) (h : list obj) : option json :=
  match _merge_results set_order py_str text_result url_result h with
  | (Ok r, h') => read_back 6 h' r
  | (Raise _, _) => None
  end.

(** The three verdicts of the data model, their names and their scores. *)
Inductive verdict : Type := phishing | legitimate | unsure.

Definition verdict_name (v : verdict) : string :=
  match v with
  | phishing => "phishing"
  | legitimate => "legitimate"
  | unsure => "unsure"
  end.

Definition verdict_value (v : verdict) : float :=
  match v with
  | phishing => 1.0%float
  | unsure => 0.5%float
  | legitimate => 0.0%float
  end.

(** A string that names none of the three verdicts. *)
Definition outside_enum (s : string) : Prop :=
  s <> "phishing" /\ s <> "legitimate" /\ s <> "unsure".

(** A verdict field that is missing, or holds a string that names none of
    the three verdicts. *)
Definition invalid_verdict (fields : list (string * json)) : Prop :=
  json_assoc "verdict" fields = None
  \/ exists s, json_assoc "verdict" fields = Some (JStr s) /\ outside_enum s.

(** ** Two decimal places, in the words of the spec *)

(** [k] hundredths as a float, [float(k) / 100.0], with a sign. *)
Definition hundredths (negative : bool) (k : Z) : float :=
  let q := (PrimFloat.of_uint63 (Uint63.of_Z k) / 100)%float in
  if negative then (- q)%float else q.

(** [k] is the integer nearest to a hundred times [m * 2 ^ e], and the
    even one when two integers are as near. *)
Definition nearest_hundredth (m : positive) (e k : Z) : Prop :=
  let n := Z.pos m * 100 * 2 ^ Z.max e 0 in
  let d := 2 ^ Z.max (- e) 0 in
  2 * Z.abs (n - k * d) <= d
  /\ (2 * Z.abs (n - k * d) = d -> Z.even k = true).

(** The quotient of [k] by 100 in binary64, with a sign, as the Standard
    Library specifies the division of floats. *)
Definition quotient_by_100 (negative : bool) (k : Z) : float :=
  match k with
  | Z.pos p =>
      SF2Prim (SFdiv prec emax (S754_finite negative p 0)
                               (S754_finite false 100 0))
  | _ => if negative then (-0)%float else 0%float
  end.

(** ** Results that follow the schema *)

(** A list of the store whose items are all hashable: a list of indicator
    tags, for one. *)
Definition tag_list (h : list obj) (v : val) : Prop :=
  exists l xs,
    v = VRef l /\ h !! l = Some (OList xs) /\ forallb hashable xs = true.

(** A field that is absent, or holds a value that satisfies [P]. *)
Definition optional (P : val -> Prop) (o : option val) : Prop :=
  match o with
  | None => True
  | Some v => P v
  end.

(** An entry of [url_details]: a dict whose [indicators], if any, are tags. *)
Definition url_detail_ok (h : list obj) (d : val) : Prop :=
  exists l kd,
    d = VRef l /\ h !! l = Some (ODict kd)
    /\ optional (tag_list h) (assoc "indicators" kd).

(** The URL argument of the merge: [None], or a dict that is not empty and
    whose [url_details], if any, are a list of such entries. *)
Definition url_result_ok (h : list obj) (url_result : val) : Prop :=
  url_result = VNone
  \/ exists u ku,
       url_result = VRef u /\ h !! u = Some (ODict ku) /\ ku <> []
       /\ optional (fun v => exists l ds,
                       v = VRef l /\ h !! l = Some (OList ds)
                       /\ Forall (url_detail_ok h) ds)
                   (assoc "url_details" ku).

(** A store [h'] that keeps what the merge relies on in [h]: every dict as
    it is, and every list of tags a list of tags. *)
Definition keeps (h h' : list obj) : Prop :=
  (forall l kvs, h !! l = Some (ODict kvs) -> h' !! l = Some (ODict kvs))
  /\ (forall v, tag_list h v -> tag_list h' v).

(** A computation that only reads the store. *)
Definition readonly {A} (m : M A) : Prop := forall h, snd (m h) = h.

(** ** Vocabulary of the proofs *)

(** The object of one field of a JSON object. *)
Definition alloc_field (kj : string * json) : M (string * val) :=
  v <- alloc_json (snd kj) ;; ret (fst kj, v).

(** The items of a list and the fields of a dict, read back one by one. *)
Definition read_items (n : nat) (h : list obj) (xs : list val)
  : option (list json) :=
  fold_right (fun x acc =>
                match read_back n h x, acc with
                | Some j, Some js => Some (j :: js)
                | _, _ => None
                end) (Some []) xs.

Definition read_fields (n : nat) (h : list obj) (kvs : list (string * val))
  : option (list (string * json)) :=
  fold_right (fun kv acc =>
                match read_back n h (snd kv), acc with
                | Some j, Some js => Some ((fst kv, j) :: js)
                | _, _ => None
                end) (Some []) kvs.

(** A value that reads back as [j] in every store that extends [h]. *)
Definition stands_for (n : nat) (h : list obj) (v : val) (j : json) : Prop :=
  forall ext, read_back n (h ++ ext)%list v = Some j.

(** A computation that leaves every dict of the store as it is. *)
Definition dict_stable {A} (m : M A) : Prop :=
  forall h l kvs,
    h !! l = Some (ODict kvs) -> snd (m h) !! l = Some (ODict kvs).

(** A value that is a string. *)
Definition is_str (v : val) : Prop := exists s, v = VStr s.

(** The rationale text of a result whose rationale is a string. *)
Definition rationale_of (kvs : list (string * val)) : string :=
  match assoc "overall_rationale" kvs with
  | Some (VStr s) => s
  | _ => ""
  end.

(** What [_build_rationale] returns for string rationales. *)
Definition composed_rationale (kt : list (string * val))
    (ku : option (list (string * val))) : string :=
  match ku with
  | Some ((_ :: _) as ku) =>
      "Text analysis: " ++ rationale_of kt ++ PyStr.newline ++ PyStr.newline
      ++ "URL analysis: " ++ rationale_of ku
  | _ => "Based on text analysis: " ++ rationale_of kt
  end.

(** The URL argument as the rationale sees it: [None], or a dict with a
    string rationale. *)
Definition url_dict (h : list obj) (url_result : val)
    (ku : option (list (string * val))) : Prop :=
  match ku with
  | None => url_result = VNone
  | Some kvs =>
      exists u, url_result = VRef u /\ h !! u = Some (ODict kvs)
                /\ optional is_str (assoc "overall_rationale" kvs)
  end.

(** The merge up to the items [list(set(...))] is given ... *)
Definition merge_prefix (text_result url_result : val)
  : M (float * bool * val * val * list val) :=
  sc <- score_results text_result url_result ;;
  let '(combined_score, combined_confidence, urls_analyzed) := sc in
  ind <- compile_indicators text_result url_result ;;
  let '(all_phishing_indicators, all_legitimacy_indicators) := ind in
  confidence <- lift (PyNum.round_ndigits2 combined_confidence) ;;
  xs <- iterate all_phishing_indicators ;;
  if forallb hashable xs
  then ret (combined_score, urls_analyzed, confidence,
            all_legitimacy_indicators, xs)
  else raise TypeError.

(** ... and from the list it makes of them. *)
Definition merge_suffix (set_order : list val -> list val)
    (py_str : list obj -> val -> string) (text_result url_result : val)
    (p : float * bool * val * val * list val) : M val :=
  let '(combined_score, urls_analyzed, confidence,
        all_legitimacy_indicators, xs) := p in
  let final := final_verdict combined_score in
  phishing_indicators <- alloc (OList (set_order xs)) ;;
  agents_used <-
    alloc (ODict [("text", VBool true); ("url", VBool urls_analyzed)]) ;;
  overall_rationale <- _build_rationale py_str final text_result url_result ;;
  safety_notes <- dict_get text_result "safety_notes" (ret (VStr "")) ;;
  alloc (ODict [("task", VStr "email_phishing_detection");
                ("verdict", VStr final);
                ("confidence", confidence);
                ("phishing_indicators", phishing_indicators);
                ("legitimacy_indicators", all_legitimacy_indicators);
                ("agents_used", agents_used);
                ("text_agent_result", text_result);
                ("url_agent_result", url_result);
                ("overall_rationale", VStr overall_rationale);
                ("safety_notes", safety_notes)]).

(** ** Sample data *)

Module Sample.

(** Two possible iteration orders of a set of strings: the distinct items
    in the order of their first occurrence, and in the reverse of it. *)
Definition same_str (a b : val) : bool :=
  match a, b with
  | VStr s, VStr t => String.eqb s t
  | _, _ => false
  end.

Fixpoint order_first (xs : list val) : list val :=
  match xs with
  | [] => []
  | x :: rest =>
      x :: List.filter (fun y => negb (same_str x y)) (order_first rest)
  end.

Definition order_reversed (xs : list val) : list val := rev (order_first xs).

(** The samples format strings only. *)
Definition no_str (h : list obj) (v : val) : string := "".

Definition text_prompt : string := "You are the TEXT AGENT.".
Definition url_prompt : string := "You are the URL AGENT.".

(** A text result and a URL result, as documents. *)
Definition text_doc : json :=
  JObject [("verdict", JStr "phishing");
           ("confidence", JFloat 0.9);
           ("phishing_indicators", JList [JStr "urgent_threat_or_deadline"]);
           ("legitimacy_indicators", JList []);
           ("overall_rationale", JStr "Urgent request for a password.")].

Definition url_doc : json :=
  JObject [("verdict", JStr "phishing");
           ("confidence", JFloat 0.8);
           ("url_details",
            JList [JObject [("url", JStr "http://verify-account-security.com/login");
                            ("indicators", JList [JStr "http_not_https"])]]);
           ("overall_rationale", JStr "The link is not encrypted.")].

(** A text result whose verdict is none of the three. *)
Definition odd_doc : json :=
  JObject [("verdict", JStr "spam"); ("confidence", JFloat 0.9)].

(** The recursion limit of a new CPython interpreter. *)
Definition recursion_limit : nat := 1000.

(** The greatest number of brackets open at once in a text, [open] of them
    being open where it starts. *)
Fixpoint nesting (open : nat) (s : string) : nat :=
  match s with
  | EmptyString => open
  | String c s' =>
      if Ascii.eqb c "["%char || Ascii.eqb c "{"%char
      then nesting (S open) s'
      else if Ascii.eqb c "]"%char || Ascii.eqb c "}"%char
      then Nat.max open (nesting (Nat.pred open) s')
      else nesting open s'
  end.

(** A parser that knows three texts, standing for the three documents; it
    gives up with a [RecursionError] on a text whose brackets nest as deep
    as the recursion limit, and refuses any other text as no JSON
    document. *)
Definition loads (s : string) : outcome json :=
  if (recursion_limit <=? nesting 0 s)%nat then Raise RecursionError
  else if String.eqb s "{text}" then Ok text_doc
  else if String.eqb s "{url}" then Ok url_doc
  else if String.eqb s "{odd}" then Ok odd_doc
  else Raise (JSONDecodeError s).

(** Backends: one answers every request, one answers the text request with
    the odd document, one fails on its second request. *)
Definition backend_ok (history : list request) (req : request)
  : outcome string :=
  if String.eqb (req_system req) text_prompt
  then Ok "Here is the analysis: {text} Done."
  else Ok "{url}".

Definition backend_odd (history : list request) (req : request)
  : outcome string :=
  Ok "{odd}".

Definition backend_url_down (history : list request) (req : request)
  : outcome string :=
  match history with
  | [] => Ok "{text}"
  | _ => Raise (BackendError "connection refused")
  end.

Definition backend_down (history : list request) (req : request)
  : outcome string :=
  Raise (BackendError "connection refused").


Definition analyzer : UnifiedEmailAnalyzer :=
  new_analyzer text_prompt url_prompt "llama3" "http://localhost:11434".

Definition start : world := {| heap := []; calls := [] |}.

(** The store after [json.loads] has built the two results: the text
    result at location 2, the URL result at location 6. *)
Definition two_results : list obj :=
  snd ((alloc_json text_doc ;;; alloc_json url_doc) []).

Definition text_ref : val := VRef 2%nat.
Definition url_ref : val := VRef 6%nat.

(** The fields of the two results in [two_results]. *)
Definition text_fields : list (string * val) :=
  [("verdict", VStr "phishing");
   ("confidence", VFloat 0.9);
   ("phishing_indicators", VRef 0%nat);
   ("legitimacy_indicators", VRef 1%nat);
   ("overall_rationale", VStr "Urgent request for a password.")].

Definition url_fields : list (string * val) :=
  [("verdict", VStr "phishing");
   ("confidence", VFloat 0.8);
   ("url_details", VRef 5%nat);
   ("overall_rationale", VStr "The link is not encrypted.")].

(** The text result with the URL indicator appended to its own list. *)
Definition text_doc_extended : json :=
  JObject [("verdict", JStr "phishing");
           ("confidence", JFloat 0.9);
           ("phishing_indicators",
            JList [JStr "urgent_threat_or_deadline"; JStr "http_not_https"]);
           ("legitimacy_indicators", JList []);
           ("overall_rationale", JStr "Urgent request for a password.")].

(** A store holding two bare results, for the scenarios of the spec. *)
Definition bare_results (text_verdict : string) (text_confidence : float)
    (url_verdict : string) (url_confidence : float) : list obj :=
  [ODict [("verdict", VStr text_verdict);
          ("confidence", VFloat text_confidence)];
   ODict [("verdict", VStr url_verdict);
          ("confidence", VFloat url_confidence)]].

(** The document an analysis returns, read back from the store. *)
Definition run_doc (run : outcome val * world) : option json :=
  match run with
  | (Ok r, w) => read_back 6 (heap w) r
  | (Raise _, _) => None
  end.

(** A field of a document. *)
Definition doc_field (k : string) (d : option json) : option json :=
  match d with
  | Some (JObject fields) => json_assoc k fields
  | _ => None
  end.

(** Some fields of a document, in the order asked. *)
Definition merged_doc_fields (ks : list string) (d : option json)
  : list (option json) :=
  map (fun k => doc_field k d) ks.

(** The requests of a run whose input holds the no-URL marker. *)
Definition marker_requests (run : outcome val * world) : list request :=
  List.filter (fun req => PyStr.contains "(no URLs provided)" (req_user req))
         (calls (snd run)).

End Sample.

(** ** More of Python's [str]: letter case, blanks, [strip]

    Texts are read as ASCII, or as UTF-8 bytes: [lower] maps the letters A
    to Z and leaves every other byte as it is, and the blanks are the ten
    ASCII characters for which [str.isspace] holds.  Looking for an ASCII
    word in a lowered text gives Python's answer on every text as long as
    the word has no [k] and does not end in [i] (the only characters
    outside ASCII whose lower case holds an ASCII letter are the Kelvin
    sign and the dotted capital I); where a result depends on more than
    that, the text is required to be ASCII. *)

Module PyText.

Definition code (c : ascii) : nat := nat_of_ascii c.

Fixpoint all (p : ascii -> bool) (s : string) : bool :=
  match s with
  | EmptyString => true
  | String c s' => p c && all p s'
  end.

Definition is_ascii (s : string) : bool := all (fun c => (code c <? 128)%nat) s.

Definition lower_char (c : ascii) : ascii :=
  if ((65 <=? code c) && (code c <=? 90))%nat
  then ascii_of_nat (code c + 32) else c.

(** [s.lower()]. *)
Fixpoint lower (s : string) : string :=
  match s with
  | EmptyString => EmptyString
  | String c s' => String (lower_char c) (lower s')
  end.

(** [c.isspace()] for an ASCII character: tab to carriage return, the four
    separators 28 to 31, and the space. *)
Definition is_space (c : ascii) : bool :=
  (((9 <=? code c) && (code c <=? 13))
   || ((28 <=? code c) && (code c <=? 32)))%nat.

(** [s.lstrip(...)] and [s.rstrip(...)] for the characters that satisfy [p]. *)
Fixpoint lstrip_by (p : ascii -> bool) (s : string) : string :=
  match s with
  | EmptyString => EmptyString
  | String c s' => if p c then lstrip_by p s' else s
  end.

Fixpoint rstrip_by (p : ascii -> bool) (s : string) : string :=
  match s with
  | EmptyString => EmptyString
  | String c s' =>
      match rstrip_by p s' with
      | EmptyString => if p c then EmptyString else String c EmptyString
      | r => String c r
      end
  end.

(** [s.strip()]. *)
Definition strip (s : string) : string :=
  lstrip_by is_space (rstrip_by is_space s).

(** [c in chars]. *)
Fixpoint mem (c : ascii) (chars : string) : bool :=
  match chars with
  | EmptyString => false
  | String a rest => Ascii.eqb a c || mem c rest
  end.

(** [s.rstrip(chars)]. *)
Definition rstrip (chars s : string) : string :=
  rstrip_by (fun c => mem c chars) s.

(** [s.split(sep)] for a one-character [sep]. *)
Fixpoint split (sep : ascii) (s : string) : list string :=
  match s with
  | EmptyString => [EmptyString]
  | String c s' =>
      if Ascii.eqb c sep then EmptyString :: split sep s'
      else match split sep s' with
           | [] => [String c EmptyString]
           | p :: rest => String c p :: rest
           end
  end.

End PyText.

(** ** The first URL check ([src/agents/url_agent.py]) *)

Module UrlCheck.

Definition suspicious_patterns : list string :=
  ["http://"; "bit.ly"; "tinyurl"; "phishing"; "verify"; "confirm"].

Definition is_suspicious_url (url : string) : bool :=
  let url_lower := PyText.lower url in
  existsb (fun pattern => PyStr.contains pattern url_lower)
          suspicious_patterns.

End UrlCheck.

(** ** Instruction texts *)

Module Prompt.

(** A text given line by line, every line ended by a newline. *)
Definition of_lines (ls : list string) : string :=
  fold_right (fun l acc => l ++ PyStr.newline ++ acc) EmptyString ls.

(** A piece of text between two double quotes. *)
Definition q (s : string) : string :=
  String (ascii_of_nat 34) (s ++ String (ascii_of_nat 34) EmptyString).

End Prompt.

(** ** The first text analyzer ([src/agents/text_agent.py]) *)

Module TextAgentV1.

(** The instruction text of [text_agent.py], lines 4-91. *)
Definition TEXT_AGENT_SYSTEM_PROMPT : string :=
  Prompt.of_lines
    ["";
     "You are the TEXT AGENT in a multi-agent phishing email "
       ++ "detection system.";
     "";
     "GOAL";
     "- Analyze ONLY the textual content (subject + body) of a single "
       ++ "email.";
     "- Decide whether the email is phishing, legitimate, or unsure.";
     "- Identify concrete indicators that justify your decision.";
     "- Produce a STRICT JSON object as output, with no extra text.";
     "";
     "INPUT VIEW";
     "- You see only:";
     "    - Subject line";
     "    - Email body text";
     "- You MUST NOT assume anything about:";
     "    - Network logs, browser behavior, user history, or "
       ++ "attachments.";
     "    - The ground-truth label.";
     "- URLs may appear in the text as strings; you may mention them, "
       ++ "but a separate URL Agent will analyze URLs in detail.";
     "";
     "PHISHING DEFINITION";
     "For this system, a “phishing” email is ANY email that tries to "
       ++ "trick the user into:";
     "- Revealing credentials or sensitive data (passwords, OTPs, "
       ++ "banking details, personal IDs),";
     "- Clicking or opening links/attachments for harmful purposes,";
     "- Transferring money, gift cards, or crypto,";
     "- Installing or enabling malicious software,";
     "- Performing actions that benefit the attacker while harming "
       ++ "the user or their organization.";
     "";
     "TEXT-BASED PHISHING INDICATORS";
     "When reading subject and body, look for patterns such as:";
     "- urgent_threat_or_deadline";
     "- credential_harvesting";
     "- financial_gain_or_reward";
     "- impersonation_of_trusted_entity";
     "- unexpected_or_unusual_request";
     "- language_style_anomaly";
     "- mismatched_context_or_recipient";
     "- excessive_click_or_open_pressure";
     "";
     "LEGITIMATE INDICATORS (OPTIONAL)";
     "Examples:";
     "- reasonable_business_context";
     "- informational_only_no_action_required";
     "- professional_tone_and_language";
     "- no_sensitive_data_requested";
     "";
     "DECISION LOGIC";
     "- " ++ Prompt.q "phishing"
       ++ ": one or more strong phishing indicators, not balanced by "
       ++ "strong evidence of legitimacy.";
     "- " ++ Prompt.q "legitimate"
       ++ ": normal text, no phishing indicators, and fits a benign "
       ++ "context.";
     "- " ++ Prompt.q "unsure"
       ++ ": text is too short/ambiguous or evidence is weak/conflicting.";
     "";
     "HALLUCINATION AND ETHICS";
     "- Do NOT invent details that are not present in the email.";
     "- Do NOT guess about external systems, IP addresses, or unseen "
       ++ "URLs.";
     "- If evidence is weak, choose " ++ Prompt.q "unsure"
       ++ " and explain why.";
     "- NEVER provide advice on how to write better phishing emails "
       ++ "or bypass security.";
     "";
     "OUTPUT FORMAT (STRICT JSON)";
     "Return a SINGLE valid JSON object with this schema and NOTHING "
       ++ "else:";
     "";
     "{";
     "    " ++ Prompt.q "agent" ++ ": " ++ Prompt.q "text" ++ ",";
     "    " ++ Prompt.q "version" ++ ": " ++ Prompt.q "1.0" ++ ",";
     "    " ++ Prompt.q "view" ++ ": " ++ Prompt.q "text_only" ++ ",";
     "    " ++ Prompt.q "task" ++ ": " ++ Prompt.q "email_phishing_detection"
       ++ ",";
     "    " ++ Prompt.q "verdict" ++ ": "
       ++ Prompt.q "phishing | legitimate | unsure" ++ ",";
     "    " ++ Prompt.q "confidence" ++ ": 0.0,";
     "    " ++ Prompt.q "phishing_indicators" ++ ": [";
     "    " ++ Prompt.q "urgent_threat_or_deadline" ++ ",";
     "    " ++ Prompt.q "credential_harvesting";
     "    ],";
     "    " ++ Prompt.q "legitimacy_indicators" ++ ": [";
     "    " ++ Prompt.q "rea    sonable_business_context";
     "],";
     Prompt.q "evidence" ++ ": [";
     "    {";
     "        " ++ Prompt.q "indicator" ++ ": "
       ++ Prompt.q "credential_harvesting" ++ ",";
     "        " ++ Prompt.q "text_quote" ++ ": "
       ++ Prompt.q "short excerpt from the email..." ++ ",";
     "        " ++ Prompt.q "explanation" ++ ": "
       ++ Prompt.q "why this excerpt is suspicious";
     "    }";
     "],";
     "    " ++ Prompt.q "overall_rationale" ++ ": "
       ++ Prompt.q ("Short paragraph summarizing why the verdict was chosen, "
       ++ "using only information from the email text.") ++ ",";
     "    " ++ Prompt.q "safety_notes" ++ ": "
       ++ Prompt.q "Optional short message to the end user (can be empty).";
     "}";
     "";
     "JSON RULES";
     "- Use double quotes for all keys and string values.";
     "- No comments, no trailing commas.";
     "- If the input text is empty or clearly not an email, set "
       ++ Prompt.q "verdict" ++ " to " ++ Prompt.q "unsure"
       ++ " and explain in " ++ Prompt.q "overall_rationale" ++ "."].

Section FirstTextAgent.

Variable backend : list request -> request -> outcome string.
Variable json_loads : string -> outcome json.

Definition _extract_json_from_text (raw : string) : outcome json :=
  let start := PyStr.find PyStr.lbrace raw in
  let end_ := PyStr.rfind PyStr.rbrace raw in
  if (start =? -1) || (end_ =? -1) || (end_ <=? start) then
    Raise (ValueError "No JSON object found in model output")
  else
    let json_str := PyStr.slice raw start (end_ + 1) in
    json_loads json_str.

Definition run_text_agent (subject body : string) : IO val :=
  let email_text :=
    "Subject: " ++ subject ++ PyStr.newline ++ PyStr.newline
    ++ "Body:" ++ PyStr.newline ++ body in
  let payload :=
    {| req_url := "http://localhost:11434/api/chat";
       req_model := "llama3";
       req_system := TEXT_AGENT_SYSTEM_PROMPT;
       req_user := email_text;
       req_stream := false |} in
  raw_content <- post backend payload ;;
  result <- lift (_extract_json_from_text raw_content) ;;
  on_heap (alloc_json result).

End FirstTextAgent.

End TextAgentV1.

(** ** The second text analyzer ([src/agents/text_agent_v2.py]): its
    instruction text and its [run_text_agent] *)

Module TextAgentV2.

(** The instruction text of [text_agent_v2.py], lines 8-90. *)
Definition TEXT_AGENT_SYSTEM_PROMPT : string :=
  Prompt.of_lines
    ["";
     "You are the TEXT AGENT in a multi-agent phishing email "
       ++ "detection system.";
     "";
     "GOAL";
     "- Analyze ONLY the textual content (subject + body) of a single "
       ++ "email.";
     "- Decide whether the email is phishing, legitimate, or unsure.";
     "- Identify concrete indicators that justify your decision.";
     "- Produce a STRICT JSON object as output, with no extra text.";
     "";
     "INPUT VIEW";
     "- You see only:";
     "    - Subject line";
     "    - Email body text";
     "- You MUST NOT assume anything about:";
     "    - Network logs, browser behavior, user history, or "
       ++ "attachments.";
     "    - The ground-truth label.";
     "- URLs may appear in the text as strings; you may mention them, "
       ++ "but a separate URL Agent will analyze URLs in detail.";
     "";
     "PHISHING DEFINITION";
     "For this system, a " ++ Prompt.q "phishing"
       ++ " email is ANY email that tries to trick the user into:";
     "- Revealing credentials or sensitive data (passwords, OTPs, "
       ++ "banking details, personal IDs),";
     "- Clicking or opening links/attachments for harmful purposes,";
     "- Transferring money, gift cards, or crypto,";
     "- Installing or enabling malicious software,";
     "- Performing actions that benefit the attacker while harming "
       ++ "the user or their organization.";
     "";
     "TEXT-BASED PHISHING INDICATORS";
     "When reading subject and body, look for patterns such as:";
     "- urgent_threat_or_deadline";
     "- credential_harvesting";
     "- financial_gain_or_reward";
     "- impersonation_of_trusted_entity";
     "- unexpected_or_unusual_request";
     "- language_style_anomaly";
     "- mismatched_context_or_recipient";
     "- excessive_click_or_open_pressure";
     "";
     "LEGITIMATE INDICATORS (OPTIONAL)";
     "Examples:";
     "- reasonable_business_context";
     "- informational_only_no_action_required";
     "- professional_tone_and_language";
     "- no_sensitive_data_requested";
     "";
     "DECISION LOGIC";
     "- " ++ Prompt.q "phishing"
       ++ ": one or more strong phishing indicators, not balanced by "
       ++ "strong evidence of legitimacy.";
     "- " ++ Prompt.q "legitimate"
       ++ ": normal text, no phishing indicators, and fits a benign "
       ++ "context.";
     "- " ++ Prompt.q "unsure"
       ++ ": text is too short/ambiguous or evidence is weak/conflicting.";
     "";
     "HALLUCINATION AND ETHICS";
     "- Do NOT invent details that are not present in the email.";
     "- Do NOT guess about external systems, IP addresses, or unseen "
       ++ "URLs.";
     "- If evidence is weak, choose " ++ Prompt.q "unsure"
       ++ " and explain why.";
     "- NEVER provide advice on how to write better phishing emails "
       ++ "or bypass security.";
     "";
     "OUTPUT FORMAT (STRICT JSON)";
     "Return a SINGLE valid JSON object with this schema and NOTHING "
       ++ "else:";
     "";
     "{";
     "    " ++ Prompt.q "agent" ++ ": " ++ Prompt.q "text" ++ ",";
     "    " ++ Prompt.q "version" ++ ": " ++ Prompt.q "1.0" ++ ",";
     "    " ++ Prompt.q "view" ++ ": " ++ Prompt.q "text_only" ++ ",";
     "    " ++ Prompt.q "task" ++ ": " ++ Prompt.q "email_phishing_detection"
       ++ ",";
     "    " ++ Prompt.q "verdict" ++ ": "
       ++ Prompt.q "phishing | legitimate | unsure" ++ ",";
     "    " ++ Prompt.q "confidence" ++ ": 0.0,";
     "    " ++ Prompt.q "phishing_indicators" ++ ": ["
       ++ Prompt.q "urgent_threat_or_deadline" ++ "],";
     "    " ++ Prompt.q "legitimacy_indicators" ++ ": [],";
     "    " ++ Prompt.q "evidence" ++ ": [";
     "        {";
     "            " ++ Prompt.q "indicator" ++ ": "
       ++ Prompt.q "credential_harvesting" ++ ",";
     "            " ++ Prompt.q "text_quote" ++ ": "
       ++ Prompt.q "short excerpt from the email..." ++ ",";
     "            " ++ Prompt.q "explanation" ++ ": "
       ++ Prompt.q "why this excerpt is suspicious";
     "        }";
     "    ],";
     "    " ++ Prompt.q "overall_rationale" ++ ": "
       ++ Prompt.q "Short paragraph summarizing why the verdict was chosen."
       ++ ",";
     "    " ++ Prompt.q "safety_notes" ++ ": "
       ++ Prompt.q "Optional short message to the end user (can be empty).";
     "}";
     "";
     "JSON RULES";
     "- Use double quotes for all keys and string values.";
     "- No comments, no trailing commas.";
     "- If the input text is empty or clearly not an email, set "
       ++ Prompt.q "verdict" ++ " to " ++ Prompt.q "unsure"
       ++ " and explain in " ++ Prompt.q "overall_rationale" ++ "."].

(** Lines 111-114: [TextAgent()] with the defaults of its constructor, and
    its [analyze]. *)
Definition run_text_agent
    (backend : list request -> request -> outcome string)
    (json_loads : string -> outcome json)
    (subject body : string) : IO val :=
  let agent :=
    TextAgent TEXT_AGENT_SYSTEM_PROMPT "llama3" "http://localhost:11434" in
  analyze backend json_loads agent (subject, body).

End TextAgentV2.

(** The request of a text analysis with the default model and address,
    for an instruction text. *)
Definition default_text_request (system_prompt subject body : string)
  : request :=
  {| req_url := "http://localhost:11434/api/chat";
     req_model := "llama3";
     req_system := system_prompt;
     req_user := "Subject: " ++ subject ++ PyStr.newline ++ PyStr.newline
                 ++ "Body:" ++ PyStr.newline ++ body;
     req_stream := false |}.

(** ** Dataset normalization ([src/agents/normalize_phishing_datasets.py]) *)

Module Normalize.

(** *** [find_column] *)

(** [d[k] = v] on a dict kept in insertion order: a key that is there keeps
    its place and takes the new value. *)
Fixpoint dict_set (k v : string) (d : list (string * string))
  : list (string * string) :=
  match d with
  | [] => [(k, v)]
  | (k', v') :: rest =>
      if String.eqb k' k then (k, v) :: rest else (k', v') :: dict_set k v rest
  end.

(** [{c.lower(): c for c in df_columns}]. *)
Definition lower_to_orig (df_columns : list string) : list (string * string) :=
  fold_left (fun d c => dict_set (PyText.lower c) c d) df_columns [].

(** The inner loop: the first column of the dict that [test] accepts. *)
Fixpoint first_column (test : string -> bool) (d : list (string * string))
  : option string :=
  match d with
  | [] => None
  | (col_lower, col_orig) :: rest =>
      if test col_lower then Some col_orig else first_column test rest
  end.

(** The two nested loops: candidates outside, columns inside. *)
Fixpoint first_match (test : string -> string -> bool)
    (candidates : list string) (d : list (string * string)) : option string :=
  match candidates with
  | [] => None
  | cand :: rest =>
      match first_column (test (PyText.lower cand)) d with
      | Some col => Some col
      | None => first_match test rest d
      end
  end.

Definition find_column (df_columns candidates : list string) : option string :=
  let d := lower_to_orig df_columns in
  match first_match String.eqb candidates d with
  | Some col => Some col
  | None => first_match PyStr.contains candidates d
  end.

Definition SUBJECT_CANDIDATES : list string :=
  ["subject"; "title"; "mail_subject"; "email_subject"].

(** What the dict of line 69 holds: one entry for each lowered name, whose
    value is the last column of that lowered name. *)
Definition columns_dict (cols : list string) (d : list (string * string))
  : Prop :=
  NoDup (map fst d)
  /\ (forall k v, In (k, v) d ->
        k = PyText.lower v
        /\ exists pre post,
             cols = (pre ++ v :: post)%list
             /\ Forall (fun c => PyText.lower c <> k) post)
  /\ (forall c, In c cols -> In (PyText.lower c) (map fst d)).

(** *** [extract_urls] *)

Definition quote : ascii := ascii_of_nat 34.

(** The character class of the pattern: anything but a blank, a closing
    parenthesis or a double quote. *)
Definition url_char (c : ascii) : bool :=
  negb (PyText.is_space c || Ascii.eqb c ")" || Ascii.eqb c quote).

(** A literal of the pattern at the start of [s], letter case ignored:
    what is left of [s] after it. *)
Fixpoint literal (lit s : string) : option string :=
  match lit, s with
  | EmptyString, _ => Some s
  | String a lit', String b s' =>
      if Ascii.eqb (PyText.lower_char a) (PyText.lower_char b)
      then literal lit' s' else None
  | String _ _, EmptyString => None
  end.

(** The length of the longest run of characters of the class at the start
    of [s]. *)
Fixpoint run (s : string) : nat :=
  match s with
  | EmptyString => 0
  | String c s' => if url_char c then S (run s') else 0
  end.

(** One or more characters of the class at the start of [s]: the length
    matched, greedy. *)
Definition run1 (s : string) : option nat :=
  match run s with
  | O => None
  | n => Some n
  end.

(** The first alternative of the pattern at the start of [s]: http, an
    optional s (tried first), a colon and two slashes, and one or more
    characters of the class; the length matched. *)
Definition match_http (s : string) : option nat :=
  match literal "http" s with
  | None => None
  | Some r =>
      let with_s :=
        match literal "s" r with
        | Some r1 =>
            match literal "://" r1 with
            | Some r2 => option_map (fun n => (8 + n)%nat) (run1 r2)
            | None => None
            end
        | None => None
        end in
      match with_s with
      | Some n => Some n
      | None =>
          match literal "://" r with
          | Some r2 => option_map (fun n => (7 + n)%nat) (run1 r2)
          | None => None
          end
      end
  end.

(** The second alternative: www, a dot, and one or more characters of the
    class. *)
Definition match_www (s : string) : option nat :=
  match literal "www." s with
  | Some r => option_map (fun n => (4 + n)%nat) (run1 r)
  | None => None
  end.

(** The piece of a text a match covers: a literal that reads [lit] in
    lower case, and characters of the class. *)
Definition url_match (lit s : string) (n : nat) : Prop :=
  exists l x r,
    s = (l ++ x) ++ r /\ n = String.length (l ++ x)
    /\ PyText.lower l = lit /\ x <> "" /\ PyText.all url_char x = true.

(** The whole pattern at the start of [s]: the first alternative that
    matches. *)
Definition match_at (s : string) : option nat :=
  match match_http s with
  | Some n => Some n
  | None => match_www s
  end.

(** [URL_REGEX.findall]: the matches from left to right, the search going
    on after the end of each match; [skip] characters are still inside the
    last match. *)
Fixpoint findall_from (skip : nat) (s : string) : list string :=
  match s with
  | EmptyString => []
  | String _ s' =>
      match skip with
      | S k => findall_from k s'
      | O =>
          match match_at s with
          | Some n => substring 0 n s :: findall_from (n - 1) s'
          | None => findall_from 0 s'
          end
      end
  end.

Definition findall (text : string) : list string := findall_from 0 text.

Definition extract_urls (text : string) : list string :=
  if String.eqb text "" then []
  else
    let urls := findall text in
    map (fun u => PyText.rstrip ".,;:" u) urls.


(** *** [normalize_label] *)

Definition LABEL_MAP : list (string * string) :=
  [("phishing", "phishing");
   ("phish", "phishing");
   ("malicious", "phishing");
   ("spam_phishing", "phishing");
   ("1", "phishing");
   ("true", "phishing");
   ("legitimate", "legitimate");
   ("ham", "legitimate");
   ("not_phishing", "legitimate");
   ("0", "legitimate");
   ("false", "legitimate")].

(** [d.get(k)] on a dict of strings. *)
Fixpoint lookup_str (k : string) (d : list (string * string)) : option string :=
  match d with
  | [] => None
  | (k', v) :: rest => if String.eqb k' k then Some v else lookup_str k rest
  end.

(** [any(k in lab for k in keys)]. *)
Definition any_in (keys : list string) (lab : string) : bool :=
  existsb (fun k => PyStr.contains k lab) keys.

(** [raw_label] is [None], or the text [str(raw_label)] of the label. *)
Definition normalize_label (raw_label source_hint : option string) : string :=
  match raw_label with
  | None =>
      match source_hint with
      | Some hint =>
          if negb (String.eqb hint "")
             && PyStr.contains "nazario" (PyText.lower hint)
          then "phishing" else "unknown"
      | None => "unknown"
      end
  | Some raw =>
      let lab := PyText.lower (PyText.strip raw) in
      match lookup_str lab LABEL_MAP with
      | Some l => l
      | None =>
          if any_in ["phish"; "fraud"; "malicious"; "scam"] lab then "phishing"
          else if any_in ["legit"; "ham"; "not"; "normal"] lab then "legitimate"
          else "unknown"
      end
  end.

(** The three labels of the normalized dataset. *)
Definition known_label (l : string) : Prop :=
  l = "phishing" \/ l = "legitimate" \/ l = "unknown".

(** *** Normalized records *)

(** A record of the dataset: the dict [normalize_df_like] builds, with
    [metadata.from] and [metadata.source] as fields of their own.  A field
    read with [get] may be missing or [None]; both are [None] here. *)
Record email_record : Type := EmailRecord {
  rec_subject : option string;
  rec_body : option string;
  rec_urls : list string;
  rec_from : option string;
  rec_source : option string;
  rec_label : option string
}.

(** [a or b] on texts that may be [None]: [a] when it is a text that is not
    empty, [b] otherwise. *)
Definition py_or (a b : option string) : option string :=
  match a with
  | Some s => if String.eqb s "" then b else a
  | None => b
  end.

(** [not a]. *)
Definition falsy (a : option string) : bool :=
  match a with
  | Some s => String.eqb s ""
  | None => true
  end.

(** [a or '']. *)
Definition or_empty (a : option string) : string := default "" a.

(** What [parse_raw_email] returns, without the headers. *)
Record parsed_email : Type := ParsedEmail {
  parsed_subject : option string;
  parsed_body : option string;
  parsed_from : option string
}.

Section Rows.

(** [parse_raw_email] on a text that is not empty: the work of the [email]
    library. *)
Variable parse_raw_email : string -> parsed_email.

(** One turn of the loop of lines 205-223, on a row of
    [csv.DictReader]. *)
Definition normalize_row (source_name : option string)
    (r : gmap string string) : email_record :=
  let subj := py_or (py_or (r !! "subject") (r !! "Subject")) (r !! "title") in
  let body := py_or (py_or (py_or (r !! "body") (r !! "message"))
                           (r !! "content")) (r !! "text") in
  let raw := py_or (r !! "raw") (r !! "eml") in
  let sender := py_or (r !! "from") (r !! "sender") in
  let label :=
    normalize_label (py_or (r !! "label") (r !! "class")) source_name in
  let '(subj, body, sender) :=
    match raw with
    | Some raw_text =>
        if negb (String.eqb raw_text "") && (falsy subj || falsy body) then
          let parsed := parse_raw_email raw_text in
          (py_or subj (parsed_subject parsed),
           py_or body (parsed_body parsed),
           py_or sender (parsed_from parsed))
        else (subj, body, sender)
    | None => (subj, body, sender)
    end in
  let urls :=
    extract_urls (or_empty subj ++ PyStr.newline ++ PyStr.newline
                  ++ or_empty body) in
  {| rec_subject := Some (or_empty subj);
     rec_body := Some (or_empty body);
     rec_urls := urls;
     rec_from := Some (or_empty sender);
     rec_source := Some (or_empty source_name);
     rec_label := Some label |}.

(** [normalize_df_like] on a list of dicts (the branch of line 202). *)
Definition normalize_rows (obj : list (gmap string string))
    (source_name : option string) : list email_record :=
  map (normalize_row source_name) obj.

End Rows.

(** *** [main]: the labels of a file that holds phishing only *)

(** Lines 305-309: in the rows of a file whose path names Nazario or
    phishing, a label that is unknown (or missing) becomes phishing. *)
Definition force_labels (p : string) (rows : list email_record)
  : list email_record :=
  if PyStr.contains "nazario" (PyText.lower p)
     || PyStr.contains "phish" (PyText.lower p)
  then
    map (fun r =>
           if String.eqb (default "unknown" (rec_label r)) "unknown"
           then {| rec_subject := rec_subject r;
                   rec_body := rec_body r;
                   rec_urls := rec_urls r;
                   rec_from := rec_from r;
                   rec_source := rec_source r;
                   rec_label := Some "phishing" |}
           else r)
        rows
  else rows.

(** *** [dedupe_records] *)

Definition dedupe_key (r : email_record) : string :=
  or_empty (rec_subject r) ++ "||" ++ or_empty (rec_body r) ++ "||"
  ++ or_empty (rec_from r).

Section Dedupe.

(** [simple_hash]: the SHA-1 digest of the text, in hexadecimal. *)
Variable simple_hash : string -> string.

(** One turn of the loop, on the set [seen] and the list [out]. *)
Definition dedupe_step (acc : gset string * list email_record)
    (r : email_record) : gset string * list email_record :=
  let '(seen, out) := acc in
  let h := simple_hash (dedupe_key r) in
  if decide (h ∈ seen) then (seen, out)
  else ({[h]} ∪ seen, (out ++ [r])%list).

Definition dedupe_records (records : list email_record) : list email_record :=
  snd (fold_left dedupe_step records (∅, [])).

(** The hash under which a record is remembered. *)
Definition record_hash (r : email_record) : string :=
  simple_hash (dedupe_key r).

(** The records of [rs] the loop appends when it starts with the set
    [seen]: the first record of each hash that is not in [seen]. *)
Fixpoint first_of_each (seen : gset string) (rs : list email_record)
  : list email_record :=
  match rs with
  | [] => []
  | r :: rest =>
      if decide (record_hash r ∈ seen) then first_of_each seen rest
      else r :: first_of_each ({[record_hash r]} ∪ seen) rest
  end.

End Dedupe.

(** *** [train_test_split] *)

(** [int(x)]: the integer part, [ValueError] for NaN and [OverflowError]
    for an infinity. *)
Definition int_of_float (x : float) : outcome Z :=
  match Prim2SF x with
  | S754_zero _ => Ok 0
  | S754_finite s m e =>
      let a := if 0 <=? e then Z.pos m * 2 ^ e else Z.pos m / 2 ^ (- e) in
      Ok (if s then - a else a)
  | S754_infinity _ => Raise OverflowError
  | S754_nan => Raise (ValueError "cannot convert float NaN to integer")
  end.

Section Split.

Context {A : Type}.

(** [random.Random(seed).shuffle(records)]: the items of the list after
    the call. *)
Variable shuffle : Z -> list A -> list A.

(** [l[:n]] and [l[n:]]. *)
Definition slice_to (l : list A) (n : Z) : list A :=
  take (Z.to_nat (PyStr.clamp (Z.of_nat (length l)) n)) l.

Definition slice_from (l : list A) (n : Z) : list A :=
  drop (Z.to_nat (PyStr.clamp (Z.of_nat (length l)) n)) l.

(** The pair [(train, test)] returned, or the exception raised, and the
    items of the caller's list afterwards: the list is shuffled in place. *)
Definition train_test_split (records : list A) (test_frac : float) (seed : Z)
  : outcome (list A * list A) * list A :=
  let records := shuffle seed records in
  let n_test :=
    match PyNum.of_int (Z.of_nat (length records)) with
    | Ok len => int_of_float (len * test_frac)%float
    | Raise e => Raise e
    end in
  match n_test with
  | Ok n_test =>
      let test := slice_to records n_test in
      let train := slice_from records n_test in
      (Ok (train, test), records)
  | Raise e => (Raise e, records)
  end.

End Split.

End Normalize.

(** ** What a computation may write *)

(** A computation that, run on a store of [n0] objects or more, removes no
    object and changes none of the first [n0] except at the locations
    [allowed]. *)
Definition touches {A} (n0 : nat) (allowed : loc -> Prop) (m : M A) : Prop :=
  forall h, (n0 <= length h)%nat ->
    (length h <= length (snd (m h)))%nat
    /\ forall l, (l < n0)%nat -> ~ allowed l -> snd (m h) !! l = h !! l.

(** The items of the [indicators] list of an entry of [url_details], none
    when the entry has no such list. *)
Definition indicators_of (h : list obj) (d : val) : list val :=
  match field h d "indicators" with
  | Some (VRef l) =>
      match h !! l with
      | Some (OList ys) => ys
      | _ => []
      end
  | _ => []
  end.

(** ** More sample data *)

Module Cases.

(** An answer of the backend: an object with one field, whose value opens
    a hundred thousand lists and closes none. *)
Definition nested_answer : string :=
  String "{"%char
    (String (ascii_of_nat 34)
       (String "a"%char
          (String (ascii_of_nat 34)
             (String ":"%char
                (Pos.iter (String "["%char) (String "}"%char EmptyString)
                          100000%positive))))).

(** A text result whose confidence is a word, one that is legitimate with a
    low confidence, and the latter beside an empty URL result. *)
Definition worded_confidence : list obj :=
  [ODict [("verdict", VStr "phishing"); ("confidence", VStr "high")]].

Definition low_confidence : list obj :=
  [ODict [("verdict", VStr "legitimate"); ("confidence", VFloat 0.05)];
   ODict []].

(** Column names as three data sets have them. *)
Definition no_subject_columns : list string := ["sender"; "date"; "Email Text"].
Definition twice_subject_columns : list string := ["Subject"; "body"; "SUBJECT"].
Definition subject_line_columns : list string := ["email_subject_line"; "title"].

Definition mail_text : string :=
  "Visit http://example.com/login, or (www.example.org).".

(** Two records whose subject and body are cut differently around the
    separator of the key, and a third one. *)
Definition cut_early : Normalize.email_record :=
  {| Normalize.rec_subject := Some "Offer";
     Normalize.rec_body := Some "today||only";
     Normalize.rec_urls := [];
     Normalize.rec_from := Some "a@example.org";
     Normalize.rec_source := Some "emails.csv";
     Normalize.rec_label := Some "phishing" |}.

Definition cut_late : Normalize.email_record :=
  {| Normalize.rec_subject := Some "Offer||today";
     Normalize.rec_body := Some "only";
     Normalize.rec_urls := [];
     Normalize.rec_from := Some "a@example.org";
     Normalize.rec_source := Some "emails.csv";
     Normalize.rec_label := Some "legitimate" |}.

Definition other_record : Normalize.email_record :=
  {| Normalize.rec_subject := Some "Minutes";
     Normalize.rec_body := Some "See attachment.";
     Normalize.rec_urls := [];
     Normalize.rec_from := None;
     Normalize.rec_source := Some "emails.csv";
     Normalize.rec_label := Some "legitimate" |}.

(** A hash without collisions, and a shuffle, to run the samples with. *)
Definition plain_hash (s : string) : string := s.

Definition reversing {A : Type} (seed : Z) (l : list A) : list A := rev l.

(** Rows of a file of phishing mails: one without a label, one labelled. *)
Definition nazario_rows : list (gmap string string) :=
  [<["subject" := "Verify your account"]> (<["body" := "Click here"]> ∅);
   <["subject" := "Lunch"]> (<["label" := "ham"]> ∅)].

Definition no_parse (raw : string) : Normalize.parsed_email :=
  {| Normalize.parsed_subject := None;
     Normalize.parsed_body := None;
     Normalize.parsed_from := None |}.

End Cases.

(** * Properties *)

(** ** Facts about [find], [rfind] and slices *)

Module PyStrFacts.
Import PyStr.

Lemma len_nonneg s : 0 <= len s.
Proof. unfold len. lia. Qed.

Lemma len_String a s : len (String a s) = len s + 1.
Proof. unfold len. cbn [String.length]. lia. Qed.

Lemma app_String a (s t : string) : String a s ++ t = String a (s ++ t).
Proof. reflexivity. Qed.

Lemma app_empty (t : string) : "" ++ t = t.
Proof. reflexivity. Qed.

Lemma length_app (s t : string) :
  String.length (s ++ t) = (String.length s + String.length t)%nat.
Proof.
  induction s as [|a s IH]; [reflexivity |].
  rewrite app_String. cbn [String.length]. now rewrite IH.
Qed.

Lemma len_app (s t : string) : len (s ++ t) = len s + len t.
Proof. unfold len. rewrite length_app. lia. Qed.

Lemma find_range c s : find c s = -1 \/ 0 <= find c s < len s.
Proof.
  induction s as [|a s IH]; cbn [find]; [now left |].
  rewrite len_String. destruct (Ascii.eqb a c).
  - right. pose proof (len_nonneg s). lia.
  - destruct (Z.eqb_spec (find c s) (-1)); [now left | right; lia].
Qed.

Lemma rfind_range c s : rfind c s = -1 \/ 0 <= rfind c s < len s.
Proof.
  induction s as [|a s IH]; cbn [rfind]; [now left |].
  rewrite len_String. pose proof (len_nonneg s).
  destruct (Z.eqb_spec (rfind c s) (-1)).
  - destruct (Ascii.eqb a c); [right; lia | now left].
  - right. lia.
Qed.

Lemma find_absent c s : count_char c s = 0%nat -> find c s = -1.
Proof.
  induction s as [|a s IH]; cbn [count_char find]; [reflexivity |].
  destruct (Ascii.eqb a c); [discriminate |].
  cbn. intros H. now rewrite (IH H).
Qed.

Lemma rfind_absent c s : count_char c s = 0%nat -> rfind c s = -1.
Proof.
  induction s as [|a s IH]; cbn [count_char rfind]; [reflexivity |].
  destruct (Ascii.eqb a c); [discriminate |].
  cbn. intros H. now rewrite (IH H).
Qed.

(** A character that is not found does not occur. *)
Lemma find_none_count c s : find c s = -1 -> count_char c s = 0%nat.
Proof.
  induction s as [|a s IH]; cbn [find count_char]; [reflexivity |].
  destruct (Ascii.eqb a c); [discriminate |].
  destruct (Z.eqb_spec (find c s) (-1)) as [E|E].
  - intros _. now rewrite IH.
  - destruct (find_range c s); lia.
Qed.

Lemma rfind_none_count c s : rfind c s = -1 -> count_char c s = 0%nat.
Proof.
  induction s as [|a s IH]; cbn [rfind count_char]; [reflexivity |].
  destruct (Z.eqb_spec (rfind c s) (-1)) as [E|E].
  - destruct (Ascii.eqb a c); [discriminate |]. intros _. now rewrite IH.
  - destruct (rfind_range c s); lia.
Qed.

(** A prefix without [c] shifts the first occurrence. *)
Lemma find_app_absent c p s :
  count_char c p = 0%nat ->
  find c (p ++ s) = if find c s =? -1 then -1 else len p + find c s.
Proof.
  induction p as [|a p IH]; rewrite ?app_String, ?app_empty;
    cbn [count_char find].
  - intros _. unfold len. cbn. now destruct (Z.eqb_spec (find c s) (-1)).
  - destruct (Ascii.eqb a c); [discriminate |]. cbn [Nat.add]. intros H.
    rewrite (IH H), len_String.
    destruct (Z.eqb_spec (find c s) (-1)); [reflexivity |].
    pose proof (len_nonneg p). destruct (find_range c s) as [E|E]; [lia |].
    destruct (Z.eqb_spec (len p + find c s) (-1)); lia.
Qed.

(** A suffix without [c] leaves the last occurrence where it is. *)
Lemma rfind_app_absent c s t :
  count_char c t = 0%nat -> rfind c (s ++ t) = rfind c s.
Proof.
  intros H. induction s as [|a s IH]; rewrite ?app_String, ?app_empty;
    cbn [rfind].
  - now apply rfind_absent.
  - now rewrite IH.
Qed.

(** Any prefix shifts the last occurrence, when there is one. *)
Lemma rfind_app_present c p s :
  rfind c s <> -1 -> rfind c (p ++ s) = len p + rfind c s.
Proof.
  intros H. induction p as [|a p IH]; rewrite ?app_String, ?app_empty;
    cbn [rfind].
  - unfold len. cbn. lia.
  - rewrite IH, len_String. pose proof (len_nonneg p).
    destruct (rfind_range c s) as [E|E]; [lia |].
    destruct (Z.eqb_spec (len p + rfind c s) (-1)); lia.
Qed.

Lemma rfind_last c s : rfind c (s ++ String c "") = len s.
Proof.
  induction s as [|a s IH]; rewrite ?app_String, ?app_empty; cbn [rfind].
  - now rewrite Ascii.eqb_refl.
  - rewrite IH, len_String. pose proof (len_nonneg s).
    destruct (Z.eqb_spec (len s) (-1)); lia.
Qed.

Lemma substring_prefix (b s : string) :
  substring 0 (String.length b) (b ++ s) = b.
Proof.
  induction b as [|a b IH]; rewrite ?app_String, ?app_empty;
    cbn [String.length substring].
  - now destruct s.
  - now rewrite IH.
Qed.

Lemma substring_middle (p b s : string) :
  substring (String.length p) (String.length b) (p ++ b ++ s) = b.
Proof.
  induction p as [|a p IH]; rewrite ?app_String, ?app_empty;
    cbn [String.length substring].
  - apply substring_prefix.
  - exact IH.
Qed.

(** The slice from the end of [p] over the length of [b] is [b]. *)
Lemma slice_middle (p b s : string) :
  slice (p ++ b ++ s) (len p) (len p + len b) = b.
Proof.
  unfold slice, clamp. rewrite !len_app.
  pose proof (len_nonneg p). pose proof (len_nonneg b).
  pose proof (len_nonneg s).
  destruct (Z.ltb_spec (len p) 0); [lia |].
  destruct (Z.ltb_spec (len p + len b) 0); [lia |].
  replace (Z.min (len p) (len p + (len b + len s))) with (len p) by lia.
  replace (Z.min (len p + len b) (len p + (len b + len s)) - len p)
    with (len b) by lia.
  unfold len. rewrite !Nat2Z.id. apply substring_middle.
Qed.

End PyStrFacts.

(** ** The result extractor *)

Section ExtractorFacts.
Import PyStr PyStrFacts.

Variable json_loads : string -> outcome json.

(** What the extractor does, by cases on the two positions. *)
Lemma extract_json_cases raw :
  let start := find lbrace raw in
  let end_ := rfind rbrace raw in
  (start = -1 \/ end_ = -1 \/ end_ <= start) /\
    _extract_json json_loads raw = Raise no_object_error
  \/
  (0 <= start < end_) /\
    _extract_json json_loads raw = json_loads (slice raw start (end_ + 1)).
Proof.
  cbv zeta. unfold _extract_json.
  destruct (Z.eqb_spec (find lbrace raw) (-1)) as [E1|E1]; cbn [orb].
  { left. split; [now left | reflexivity]. }
  destruct (Z.eqb_spec (rfind rbrace raw) (-1)) as [E2|E2]; cbn [orb].
  { left. split; [right; now left | reflexivity]. }
  destruct (Z.leb_spec (rfind rbrace raw) (find lbrace raw)) as [E3|E3].
  { left. split; [right; now right | reflexivity]. }
  right. split; [| reflexivity].
  destruct (find_range lbrace raw); lia.
Qed.

(** The brace positions of a text made of a brace-free prefix, a document
    that opens and closes with a brace, and a brace-free suffix. *)
Lemma embedded_positions pre mid suf :
  count_char lbrace pre = 0%nat ->
  count_char rbrace suf = 0%nat ->
  let doc := String lbrace (mid ++ String rbrace "") in
  find lbrace (pre ++ doc ++ suf) = len pre
  /\ rfind rbrace (pre ++ doc ++ suf) = len pre + len doc - 1.
Proof.
  intros Hpre Hsuf doc. split.
  - rewrite (find_app_absent _ _ _ Hpre). subst doc.
    rewrite app_String. cbn [find]. rewrite Ascii.eqb_refl. cbn. lia.
  - assert (Hdoc : rfind rbrace (doc ++ suf) = len doc - 1).
    { rewrite (rfind_app_absent _ _ _ Hsuf). subst doc.
      change (String lbrace (mid ++ String rbrace ""))
        with (String lbrace mid ++ String rbrace "").
      rewrite rfind_last, len_app. unfold len at 3. cbn. lia. }
    rewrite rfind_app_present; rewrite Hdoc.
    + lia.
    + subst doc. rewrite len_String. pose proof (len_nonneg (mid ++ String rbrace "")).
      lia.
Qed.

(** What the extractor raises is its own [ValueError], or what the parser
    raises on the text between the braces. *)
Lemma extract_json_raise_inv raw e :
  _extract_json json_loads raw = Raise e ->
  e = no_object_error
  \/ json_loads (slice raw (find lbrace raw) (rfind rbrace raw + 1)) = Raise e.
Proof.
  intros He. destruct (extract_json_cases raw) as [[_ Hc]|[_ Hc]];
    cbv zeta in Hc; rewrite Hc in He.
  - left. now inversion He.
  - now right.
Qed.

End ExtractorFacts.

(** ** Running computations *)

Section Running.

Context {St A B : Type}.

Lemma bind_ok (m : ST St A) (k : A -> ST St B) s a s' :
  m s = (Ok a, s') -> bind m k s = k a s'.
Proof. unfold bind. now intros ->. Qed.

Lemma bind_raise (m : ST St A) (k : A -> ST St B) s e s' :
  m s = (Raise e, s') -> bind m k s = (Raise e, s').
Proof. unfold bind. now intros ->. Qed.

Lemma bind_ok_inv (m : ST St A) (k : A -> ST St B) s b s' :
  bind m k s = (Ok b, s') ->
  exists a s1, m s = (Ok a, s1) /\ k a s1 = (Ok b, s').
Proof.
  unfold bind. destruct (m s) as [[a|e] s1]; [eauto | discriminate].
Qed.

Lemma bind_raise_inv (m : ST St A) (k : A -> ST St B) s e s' :
  bind m k s = (Raise e, s') ->
  m s = (Raise e, s')
  \/ exists a s1, m s = (Ok a, s1) /\ k a s1 = (Raise e, s').
Proof.
  unfold bind. destruct (m s) as [[a|e'] s1]; intros H.
  - right. eauto.
  - left. inversion H. reflexivity.
Qed.

End Running.

Lemma bind_assoc {St A B C} (m : ST St A) (f : A -> ST St B)
    (g : B -> ST St C) s :
  bind (bind m f) g s = bind m (fun x => bind (f x) g) s.
Proof. unfold bind. destruct (m s) as [[a|e] s1]; reflexivity. Qed.

Lemma bind_ext {St A B} (m : ST St A) (k1 k2 : A -> ST St B) s :
  (forall a s', k1 a s' = k2 a s') -> bind m k1 s = bind m k2 s.
Proof.
  intros H. unfold bind. destruct (m s) as [[a|e] s1]; [apply H | reflexivity].
Qed.

Lemma bind_ret_r {St A} (m : ST St A) s : bind m ret s = m s.
Proof. unfold bind, ret. destruct (m s) as [[a|e] s1]; reflexivity. Qed.

(** Splits a successful run of a sequence into the run of its first step
    and the run of the rest. *)
Tactic Notation "inv_bind" hyp(H) "as" ident(a) ident(s) ident(H1) :=
  apply bind_ok_inv in H; destruct H as (a & s & H1 & H).

Lemma lift_ok_inv {St A} (o : outcome A) (s s' : St) a :
  lift o s = (Ok a, s') -> o = Ok a /\ s' = s.
Proof.
  destruct o; cbn; unfold ret, raise; intros H; inversion H; auto.
Qed.

Lemma alloc_run o h : alloc o h = (Ok (VRef (length h)), (h ++ [o])%list).
Proof. reflexivity. Qed.

(** ** Computations that only read the store *)

Lemma readonly_ret {A} (a : A) : readonly (ret a).
Proof. intros h. reflexivity. Qed.

Lemma readonly_raise {A} e : readonly (@raise _ A e).
Proof. intros h. reflexivity. Qed.

Lemma readonly_lift {A} (o : outcome A) : readonly (lift o).
Proof. destruct o; [apply readonly_ret | apply readonly_raise]. Qed.

Lemma readonly_bind {A B} (m : M A) (k : A -> M B) :
  readonly m -> (forall a, readonly (k a)) -> readonly (bind m k).
Proof.
  intros Hm Hk h. unfold bind. specialize (Hm h).
  destruct (m h) as [[a|e] h1]; cbn in Hm; subst h1.
  - apply Hk.
  - reflexivity.
Qed.

Lemma readonly_load l : readonly (load l).
Proof. intros h. unfold load. now destruct (h !! l). Qed.

Lemma readonly_dict_get d k dflt :
  readonly dflt -> readonly (dict_get d k dflt).
Proof.
  intros Hd. destruct d; try apply readonly_raise. cbn [dict_get].
  apply readonly_bind; [apply readonly_load |].
  intros [xs|kvs]; [apply readonly_raise |].
  apply readonly_bind; [exact Hd | intros; apply readonly_ret].
Qed.

Lemma readonly_truthy v : readonly (truthy v).
Proof.
  destruct v; try apply readonly_ret. cbn [truthy].
  apply readonly_bind; [apply readonly_load |].
  intros [xs|kvs]; apply readonly_ret.
Qed.

Lemma readonly_iterate v : readonly (iterate v).
Proof.
  destruct v; try apply readonly_raise; [apply readonly_ret |]. cbn [iterate].
  apply readonly_bind; [apply readonly_load |].
  intros [xs|kvs]; apply readonly_ret.
Qed.

Lemma readonly_verdict_scores_get key dflt :
  readonly (verdict_scores_get key dflt).
Proof. destruct key; first [apply readonly_ret | apply readonly_raise]. Qed.

Lemma readonly_verdict_score result : readonly (verdict_score result).
Proof.
  apply readonly_bind; [apply readonly_dict_get, readonly_ret |].
  intros; apply readonly_verdict_scores_get.
Qed.

Lemma readonly_mul_l f v : readonly (PyNum.mul_l f v).
Proof.
  apply readonly_bind; [apply readonly_lift | intros; apply readonly_ret].
Qed.

Lemma readonly_mul_r v f : readonly (PyNum.mul_r v f).
Proof.
  apply readonly_bind; [apply readonly_lift | intros; apply readonly_ret].
Qed.

Lemma readonly_format_value py_str v : readonly (format_value py_str v).
Proof. intros h. reflexivity. Qed.

Create HintDb readonly.

#[local] Hint Resolve readonly_ret readonly_raise readonly_lift readonly_load
  readonly_dict_get readonly_truthy readonly_iterate
  readonly_verdict_scores_get readonly_verdict_score readonly_mul_l
  readonly_mul_r readonly_format_value : readonly.

Ltac readonly_steps :=
  repeat first
    [ apply readonly_bind; [auto with readonly | intros]
    | match goal with
      | |- readonly (if ?b then _ else _) => destruct b
      end
    | solve [auto with readonly] ].

(** Scoring reads the two results and changes nothing. *)
Lemma readonly_score_results text_result url_result :
  readonly (score_results text_result url_result).
Proof. unfold score_results. readonly_steps. Qed.

Lemma readonly_build_rationale py_str verdict text_result url_result :
  readonly (_build_rationale py_str verdict text_result url_result).
Proof. unfold _build_rationale. readonly_steps. Qed.

Lemma readonly_run {A} (m : M A) h r h' :
  readonly m -> m h = (r, h') -> h' = h.
Proof. intros Hm H. specialize (Hm h). rewrite H in Hm. exact Hm. Qed.

(** ** The shape of a merged result *)

Section MergeShape.

Variable set_order : list val -> list val.
Variable py_str : list obj -> val -> string.

(** The dict a successful merge returns: the last object of the store,
    right after its [agents_used] dict. *)
Lemma merge_ok_inv text_result url_result h r h' :
  _merge_results set_order py_str text_result url_result h = (Ok r, h') ->
  exists cs cc ua conf h2 pi li rat saf,
    score_results text_result url_result h = (Ok (cs, cc, ua), h)
    /\ PyNum.round_ndigits2 cc = Ok conf
    /\ r = VRef (S (length h2))
    /\ h' = (h2 ++ [ODict [("text", VBool true); ("url", VBool ua)];
                    ODict [("task", VStr "email_phishing_detection");
                           ("verdict", VStr (final_verdict cs));
                           ("confidence", conf);
                           ("phishing_indicators", pi);
                           ("legitimacy_indicators", li);
                           ("agents_used", VRef (length h2));
                           ("text_agent_result", text_result);
                           ("url_agent_result", url_result);
                           ("overall_rationale", VStr rat);
                           ("safety_notes", saf)]])%list.
Proof.
  unfold _merge_results. intros H.
  inv_bind H as sc h1 Hsc. destruct sc as [[cs cc] ua].
  pose proof (readonly_run _ _ _ _ (readonly_score_results _ _) Hsc) as ->.
  inv_bind H as ind h1 Hind. destruct ind as [pi0 li].
  inv_bind H as conf h1' Hconf. apply lift_ok_inv in Hconf as [Hconf ->].
  inv_bind H as pi h2 Hpi.
  inv_bind H as au h3 Hau. rewrite alloc_run in Hau.
  inversion Hau; subst au h3; clear Hau.
  inv_bind H as rat h3 Hrat.
  pose proof (readonly_run _ _ _ _ (readonly_build_rationale _ _ _ _) Hrat) as ->.
  inv_bind H as saf h3 Hsaf.
  assert (h3 = (h2 ++ [ODict [("text", VBool true); ("url", VBool ua)]])%list)
    as ->.
  { eapply readonly_run; [| exact Hsaf].
    apply readonly_dict_get, readonly_ret. }
  rewrite alloc_run in H. inversion H; subst; clear H.
  exists cs, cc, ua, conf, h2, pi, li, rat, saf.
  repeat split; try assumption.
  - rewrite length_app. cbn. f_equal. lia.
  - now rewrite <- app_assoc.
Qed.

End MergeShape.

(** ** Scores and thresholds *)

Lemma lookup_snoc_0 {A} (l : list A) (x y : A) :
  (l ++ [x; y])%list !! length l = Some x.
Proof. now apply list_lookup_middle. Qed.

Lemma lookup_snoc_1 {A} (l : list A) (x y : A) :
  (l ++ [x; y])%list !! S (length l) = Some y.
Proof.
  change (l ++ [x; y])%list with (l ++ [x] ++ [y])%list.
  rewrite app_assoc. apply list_lookup_middle.
  rewrite length_app. cbn. lia.
Qed.

(** A float at most 0.3 is not at least 0.7, so the order of the two tests
    of lines 66-69 does not matter. *)
Lemma leb_03_not_07 (x : float) :
  PrimFloat.leb x 0.3 = true -> PrimFloat.leb 0.7 x = false.
Proof.
  rewrite !leb_spec.
  change (Prim2SF 0.3) with (S754_finite false 5404319552844595 (-54)).
  change (Prim2SF 0.7) with (S754_finite false 6305039478318694 (-53)).
  destruct (Prim2SF x) as [s|s| |s m e]; unfold SFleb, SFcompare;
    try destruct s; try reflexivity; try discriminate.
  destruct (Z.compare_spec e (-54)) as [E|E|E]; intros H; try discriminate.
  - subst e. reflexivity.
  - destruct (Z.compare_spec (-53) e) as [E'|E'|E'];
      first [reflexivity | lia].
Qed.

Lemma final_verdict_phishing score :
  PrimFloat.leb 0.7 score = true -> final_verdict score = "phishing".
Proof. unfold final_verdict. now intros ->. Qed.

Lemma final_verdict_legitimate score :
  PrimFloat.leb score 0.3 = true -> final_verdict score = "legitimate".
Proof.
  intros H. unfold final_verdict. now rewrite (leb_03_not_07 _ H), H.
Qed.

Lemma final_verdict_unsure score :
  PrimFloat.leb 0.7 score = false -> PrimFloat.leb score 0.3 = false ->
  final_verdict score = "unsure".
Proof. unfold final_verdict. now intros -> ->. Qed.

Section MergeFields.

Variable set_order : list val -> list val.
Variable py_str : list obj -> val -> string.

(** What the fields of a merged result hold, in terms of the scoring. *)
Lemma merge_fields text_result url_result h r h' :
  _merge_results set_order py_str text_result url_result h = (Ok r, h') ->
  exists cs cc ua conf au,
    score_results text_result url_result h = (Ok (cs, cc, ua), h)
    /\ PyNum.round_ndigits2 cc = Ok conf
    /\ field h' r "verdict" = Some (VStr (final_verdict cs))
    /\ field h' r "confidence" = Some conf
    /\ field h' r "agents_used" = Some au
    /\ field h' au "text" = Some (VBool true)
    /\ field h' au "url" = Some (VBool ua)
    /\ field h' r "text_agent_result" = Some text_result
    /\ field h' r "url_agent_result" = Some url_result.
Proof.
  intros H. apply merge_ok_inv in H.
  destruct H as (cs & cc & ua & conf & h2 & pi & li & rat & saf
                 & Hsc & Hconf & -> & ->).
  exists cs, cc, ua, conf, (VRef (length h2)).
  unfold field. rewrite lookup_snoc_0, lookup_snoc_1.
  repeat split; assumption || reflexivity.
Qed.

End MergeFields.

(** ** Scoring the two results *)

Lemma float_mul_comm (a b : float) : (a * b = b * a)%float.
Proof.
  apply Prim2SF_inj. rewrite !mul_spec. unfold SF64mul, SFmul.
  destruct (Prim2SF a) as [s|s| |s m e], (Prim2SF b) as [s'|s'| |s' m' e'];
    try reflexivity; rewrite ?(xorb_comm s s'); try reflexivity.
  now rewrite Pos.mul_comm, Z.add_comm.
Qed.

Lemma verdict_value_weight (v : verdict) (w : float) :
  (verdict_value v * w = w * verdict_value v)%float.
Proof. apply float_mul_comm. Qed.

Lemma load_run h l o : h !! l = Some o -> load l h = (Ok o, h).
Proof. unfold load. now intros ->. Qed.

Lemma dict_get_run h l kvs k d :
  h !! l = Some (ODict kvs) ->
  dict_get (VRef l) k (ret d) h = (Ok (default d (assoc k kvs)), h).
Proof.
  intros Hl. cbn [dict_get]. rewrite (bind_ok _ _ _ _ _ (load_run _ _ _ Hl)).
  reflexivity.
Qed.

Lemma truthy_dict h l kvs :
  h !! l = Some (ODict kvs) -> kvs <> [] -> truthy (VRef l) h = (Ok true, h).
Proof.
  intros Hl Hne. cbn [truthy]. rewrite (bind_ok _ _ _ _ _ (load_run _ _ _ Hl)).
  destruct kvs; [contradiction | reflexivity].
Qed.

Lemma mul_l_run f v x (h : list obj) :
  PyNum.to_float v = Ok x -> PyNum.mul_l f v h = (Ok (f * x)%float, h).
Proof. unfold PyNum.mul_l. now intros ->. Qed.

Lemma mul_r_run f v x (h : list obj) :
  PyNum.to_float v = Ok x -> PyNum.mul_r v f h = (Ok (x * f)%float, h).
Proof. unfold PyNum.mul_r. now intros ->. Qed.

(** A verdict of the enum is scored by the table. *)
Lemma verdict_score_enum h l kvs (v : verdict) :
  h !! l = Some (ODict kvs) ->
  assoc "verdict" kvs = Some (VStr (verdict_name v)) ->
  verdict_score (VRef l) h = (Ok (verdict_value v), h).
Proof.
  intros Hl Hv. unfold verdict_score.
  rewrite (bind_ok _ _ _ _ _ (dict_get_run _ _ _ _ _ Hl)), Hv.
  now destruct v.
Qed.

Lemma score_of_outside s :
  outside_enum s -> score_of s verdict_scores = None.
Proof.
  intros (H1 & H2 & H3). unfold verdict_scores. cbn [score_of].
  destruct (String.eqb_spec "phishing" s); [now subst |].
  destruct (String.eqb_spec "unsure" s); [now subst |].
  destruct (String.eqb_spec "legitimate" s); [now subst |].
  reflexivity.
Qed.

(** A missing verdict, and a string that is none of the three, score 0.5. *)
Lemma verdict_score_invalid h l kvs :
  h !! l = Some (ODict kvs) ->
  (assoc "verdict" kvs = None
   \/ exists s, assoc "verdict" kvs = Some (VStr s) /\ outside_enum s) ->
  verdict_score (VRef l) h = (Ok 0.5%float, h).
Proof.
  intros Hl Hv. unfold verdict_score.
  rewrite (bind_ok _ _ _ _ _ (dict_get_run _ _ _ _ _ Hl)).
  destruct Hv as [-> | (s & -> & Hs)].
  - reflexivity.
  - cbn -[score_of verdict_scores]. now rewrite (score_of_outside _ Hs).
Qed.

(** Lines 60-63. *)
Lemma score_results_text_only h t kvs (v : verdict) c :
  h !! t = Some (ODict kvs) ->
  assoc "verdict" kvs = Some (VStr (verdict_name v)) ->
  PyNum.to_float (default (VFloat 0.5) (assoc "confidence" kvs)) = Ok c ->
  score_results (VRef t) VNone h
    = (Ok ((verdict_value v * c)%float,
           default (VFloat 0.5) (assoc "confidence" kvs), false), h).
Proof.
  intros Ht Hv Hc. unfold score_results.
  rewrite (bind_ok _ _ _ _ _ (verdict_score_enum _ _ _ _ Ht Hv)).
  rewrite (bind_ok _ _ _ _ _ (dict_get_run _ _ _ _ _ Ht)).
  rewrite (bind_ok (truthy VNone) _ h false h eq_refl).
  rewrite (bind_ok _ _ _ _ _ (mul_l_run _ _ _ _ Hc)).
  reflexivity.
Qed.

(** Lines 52-59. *)
Lemma score_results_with_url h t u kt ku (vt vu : verdict) tc uc :
  h !! t = Some (ODict kt) ->
  h !! u = Some (ODict ku) ->
  ku <> [] ->
  assoc "verdict" kt = Some (VStr (verdict_name vt)) ->
  assoc "verdict" ku = Some (VStr (verdict_name vu)) ->
  PyNum.to_float (default (VFloat 0.5) (assoc "confidence" kt)) = Ok tc ->
  PyNum.to_float (default (VFloat 0.5) (assoc "confidence" ku)) = Ok uc ->
  score_results (VRef t) (VRef u) h
    = (Ok ((0.6 * verdict_value vt * tc + 0.4 * verdict_value vu * uc)%float,
           VFloat (0.6 * tc + 0.4 * uc)%float, true), h).
Proof.
  intros Ht Hu Hne Hvt Hvu Htc Huc. unfold score_results.
  rewrite (bind_ok _ _ _ _ _ (verdict_score_enum _ _ _ _ Ht Hvt)).
  rewrite (bind_ok _ _ _ _ _ (dict_get_run _ _ _ _ _ Ht)).
  rewrite (bind_ok _ _ _ _ _ (truthy_dict _ _ _ Hu Hne)).
  rewrite (bind_ok _ _ _ _ _ (verdict_score_enum _ _ _ _ Hu Hvu)).
  rewrite (bind_ok _ _ _ _ _ (dict_get_run _ _ _ _ _ Hu)).
  rewrite (bind_ok _ _ _ _ _ (mul_l_run _ _ _ _ Htc)).
  rewrite (bind_ok _ _ _ _ _ (mul_l_run _ _ _ _ Huc)).
  rewrite (bind_ok _ _ _ _ _ (mul_r_run _ _ _ _ Htc)).
  rewrite (bind_ok _ _ _ _ _ (mul_r_run _ _ _ _ Huc)).
  unfold ret.
  rewrite (verdict_value_weight vt), (verdict_value_weight vu).
  now rewrite (float_mul_comm tc), (float_mul_comm uc).
Qed.

(** ** The merge returns on results that follow the schema *)

Lemma keeps_refl h : keeps h h.
Proof. split; auto. Qed.

Lemma keeps_trans h1 h2 h3 : keeps h1 h2 -> keeps h2 h3 -> keeps h1 h3.
Proof. intros [A1 B1] [A2 B2]. split; auto. Qed.

Lemma keeps_alloc h o : keeps h (h ++ [o])%list.
Proof.
  split.
  - intros l kvs Hl. now apply lookup_app_l_Some.
  - intros v (l & xs & -> & Hl & Hx). exists l, xs.
    repeat split; [now apply lookup_app_l_Some | exact Hx].
Qed.

Lemma keeps_extend h lp xs ys :
  h !! lp = Some (OList xs) ->
  forallb hashable xs = true -> forallb hashable ys = true ->
  keeps h (<[lp := OList (xs ++ ys)%list]> h).
Proof.
  intros Hlp Hxs Hys. split.
  - intros l kvs Hl. rewrite list_lookup_insert_ne; [exact Hl |].
    intros <-. congruence.
  - intros v (l & zs & -> & Hl & Hz).
    destruct (decide (lp = l)) as [<- | Hne].
    + exists lp, (xs ++ ys)%list. repeat split.
      * apply list_lookup_insert_eq. now apply lookup_lt_Some in Hlp.
      * rewrite forallb_app, Hxs, Hys. reflexivity.
    + exists l, zs. repeat split; [| exact Hz].
      now rewrite list_lookup_insert_ne.
Qed.

Lemma optional_tag_list_keeps h h' o :
  keeps h h' -> optional (tag_list h) o -> optional (tag_list h') o.
Proof. intros [_ K]. destruct o; cbn; auto. Qed.

Lemma url_detail_ok_keeps h h' d :
  keeps h h' -> url_detail_ok h d -> url_detail_ok h' d.
Proof.
  intros K (l & kd & -> & Hl & Ho). exists l, kd.
  repeat split; [now apply (proj1 K) | now apply (optional_tag_list_keeps h)].
Qed.

(** [d.get(k, [])] on a dict. *)
Lemma dict_get_fresh_run h l kvs k :
  h !! l = Some (ODict kvs) ->
  dict_get (VRef l) k (alloc (OList [])) h
    = (Ok (default (VRef (length h)) (assoc k kvs)), (h ++ [OList []])%list).
Proof.
  intros Hl. cbn [dict_get]. rewrite (bind_ok _ _ _ _ _ (load_run _ _ _ Hl)).
  reflexivity.
Qed.

(** What [d.get(k, [])] returns is a list of tags when the field, if
    there, is one. *)
Lemma fresh_default_tag_list h kvs k :
  optional (tag_list h) (assoc k kvs) ->
  tag_list (h ++ [OList []])%list (default (VRef (length h)) (assoc k kvs)).
Proof.
  destruct (assoc k kvs) as [v|]; cbn; intros H.
  - now apply (proj2 (keeps_alloc h (OList []))).
  - exists (length h), []. split; [reflexivity |]. split; [| reflexivity].
    exact (list_lookup_middle h [] (OList []) (length h) eq_refl).
Qed.

(** Line 78 on a list of well-formed entries. *)
Lemma url_indicators_run ds : forall h,
  Forall (url_detail_ok h) ds ->
  exists vs h',
    mapM (fun d => dict_get d "indicators" (alloc (OList []))) ds h
      = (Ok vs, h')
    /\ keeps h h' /\ Forall (tag_list h') vs.
Proof.
  induction ds as [|d ds IH]; intros h Hds.
  - exists [], h. split; [reflexivity |].
    split; [apply keeps_refl | constructor].
  - inversion Hds as [|? ? Hd Hrest]; subst.
    destruct Hd as (l & kd & -> & Hl & Ho).
    pose proof (keeps_alloc h (OList [])) as K1.
    destruct (IH (h ++ [OList []])%list) as (vs & h' & Hrun & K2 & Hvs).
    { eapply Forall_impl; [exact Hrest |].
      intros a. now apply url_detail_ok_keeps. }
    exists (default (VRef (length h)) (assoc "indicators" kd) :: vs), h'.
    split; [| split].
    + cbn [mapM]. rewrite (bind_ok _ _ _ _ _ (dict_get_fresh_run _ _ _ _ Hl)).
      now rewrite (bind_ok _ _ _ _ _ Hrun).
    + now apply (keeps_trans _ _ _ K1).
    + constructor; [| exact Hvs].
      apply (proj2 K2). now apply fresh_default_tag_list.
Qed.

(** Lines 79-80 on lists of tags. *)
Lemma extend_all_run all_p vs : forall h,
  tag_list h all_p -> Forall (tag_list h) vs ->
  exists h',
    forM_ (fun indicators_list => list_extend all_p indicators_list) vs h
      = (Ok tt, h')
    /\ keeps h h'.
Proof.
  induction vs as [|v vs IH]; intros h Hp Hvs.
  - exists h. split; [reflexivity | apply keeps_refl].
  - inversion Hvs as [|? ? Hv Hrest]; subst.
    destruct Hp as (lp & xs & -> & Hlp & Hxs).
    destruct Hv as (li & ys & -> & Hli & Hys).
    pose proof (keeps_extend h lp xs ys Hlp Hxs Hys) as K1.
    destruct (IH (<[lp := OList (xs ++ ys)%list]> h)) as (h' & Hrun & K2).
    { apply (proj2 K1). exists lp, xs. auto. }
    { eapply Forall_impl; [exact Hrest |]. intros a. apply (proj2 K1). }
    exists h'. split; [| now apply (keeps_trans _ _ _ K1)].
    cbn [forM_ list_extend].
    assert (Hstep : list_extend (VRef lp) (VRef li) h
                    = (Ok tt, <[lp := OList (xs ++ ys)%list]> h)).
    { cbn [list_extend].
      rewrite (bind_ok _ _ _ _ _ (load_run _ _ _ Hlp)).
      cbn [iterate].
      rewrite (bind_ok (bind (load li) _) _ h ys h).
      - reflexivity.
      - now rewrite (bind_ok _ _ _ _ _ (load_run _ _ _ Hli)). }
    now rewrite (bind_ok _ _ _ _ _ Hstep).
Qed.

Lemma iterate_list_run h l xs :
  h !! l = Some (OList xs) -> iterate (VRef l) h = (Ok xs, h).
Proof.
  intros Hl. cbn [iterate]. now rewrite (bind_ok _ _ _ _ _ (load_run _ _ _ Hl)).
Qed.

(** Lines 73-80 on results that follow the schema. *)
Lemma compile_indicators_run h t kt url_result :
  h !! t = Some (ODict kt) ->
  optional (tag_list h) (assoc "phishing_indicators" kt) ->
  url_result_ok h url_result ->
  exists all_p all_l h',
    compile_indicators (VRef t) url_result h = (Ok (all_p, all_l), h')
    /\ keeps h h' /\ tag_list h' all_p.
Proof.
  intros Ht Hp Hu. unfold compile_indicators.
  rewrite (bind_ok _ _ _ _ _ (dict_get_fresh_run _ _ _ _ Ht)).
  set (all_p := default (VRef (length h)) (assoc "phishing_indicators" kt)).
  set (h1 := (h ++ [OList []])%list).
  assert (K1 : keeps h h1) by apply keeps_alloc.
  assert (Hp1 : tag_list h1 all_p) by now apply fresh_default_tag_list.
  rewrite (bind_ok _ _ _ _ _ (dict_get_fresh_run _ _ _ _ (proj1 K1 _ _ Ht))).
  set (all_l := default (VRef (length h1)) (assoc "legitimacy_indicators" kt)).
  set (h2 := (h1 ++ [OList []])%list).
  assert (K2 : keeps h h2) by (eapply keeps_trans; [exact K1 | apply keeps_alloc]).
  destruct Hu as [-> | (u & ku & -> & Hu & Hne & Hd)].
  - exists all_p, all_l, h2.
    split; [reflexivity |]. split; [exact K2 |].
    now apply (proj2 (keeps_alloc h1 (OList []))).
  - rewrite (bind_ok _ _ _ _ _ (truthy_dict _ _ _ (proj1 K2 _ _ Hu) Hne)).
    cbv iota. rewrite bind_assoc.
    rewrite (bind_ok _ _ _ _ _ (dict_get_fresh_run _ _ _ _ (proj1 K2 _ _ Hu))).
    set (h3 := (h2 ++ [OList []])%list).
    assert (K3 : keeps h h3) by (eapply keeps_trans; [exact K2 | apply keeps_alloc]).
    assert (Hds : exists ds,
               iterate (default (VRef (length h2)) (assoc "url_details" ku)) h3
                 = (Ok ds, h3)
               /\ Forall (url_detail_ok h3) ds).
    { destruct (assoc "url_details" ku) as [v|]; cbn [default from_option id].
      - destruct Hd as (l & ds & -> & Hl & Hds). exists ds. split.
        + apply iterate_list_run. subst h3 h2 h1.
          now repeat apply lookup_app_l_Some.
        + eapply Forall_impl; [exact Hds |].
          intros a. now apply url_detail_ok_keeps.
      - exists []. split; [| constructor].
        apply iterate_list_run.
        exact (list_lookup_middle h2 [] (OList []) (length h2) eq_refl). }
    destruct Hds as (ds & Hit & Hds).
    rewrite bind_assoc, (bind_ok _ _ _ _ _ Hit).
    destruct (url_indicators_run ds h3 Hds) as (vs & h4 & Hmap & K4 & Hvs).
    rewrite bind_assoc, (bind_ok _ _ _ _ _ Hmap).
    assert (Hp4 : tag_list h4 all_p).
    { apply (proj2 K4). apply (proj2 (keeps_alloc h2 (OList []))).
      now apply (proj2 (keeps_alloc h1 (OList []))). }
    destruct (extend_all_run all_p vs h4 Hp4 Hvs) as (h5 & Hext & K5).
    exists all_p, all_l, h5. split; [| split].
    + now rewrite (bind_ok _ _ _ _ _ Hext).
    + eapply keeps_trans; [exact K3 |]. now apply (keeps_trans _ _ _ K4).
    + now apply (proj2 K5).
Qed.

(** The combined confidence that scoring returns is a number. *)
Lemma score_results_numeric text_result url_result h cs cc ua h' :
  score_results text_result url_result h = (Ok (cs, cc, ua), h') ->
  exists x, PyNum.to_float cc = Ok x.
Proof.
  unfold score_results. intros H.
  inv_bind H as ts h1 H1. inv_bind H as tc h2 H2. inv_bind H as b h3 H3.
  destruct b.
  - inv_bind H as us h4 H4. inv_bind H as uc h5 H5.
    inv_bind H as st h6 H6. inv_bind H as su h7 H7.
    inv_bind H as ct h8 H8. inv_bind H as cu h9 H9.
    inversion H; subst. cbn. eauto.
  - inv_bind H as x h4 H4. inversion H; subst.
    unfold PyNum.mul_l in H4. inv_bind H4 as y h5 H5.
    apply lift_ok_inv in H5 as [H5 _]. eauto.
Qed.

Lemma round_of_numeric v x :
  PyNum.to_float v = Ok x -> exists r, PyNum.round_ndigits2 v = Ok r.
Proof. destruct v; cbn; intros H; try discriminate; eauto. Qed.

Section MergeReturns.

Variable set_order : list val -> list val.
Variable py_str : list obj -> val -> string.

Lemma build_rationale_run final h t kt url_result :
  h !! t = Some (ODict kt) ->
  (url_result = VNone
   \/ exists u ku, url_result = VRef u /\ h !! u = Some (ODict ku) /\ ku <> []) ->
  exists s, _build_rationale py_str final (VRef t) url_result h = (Ok s, h).
Proof.
  intros Ht Hu. unfold _build_rationale.
  rewrite (bind_ok _ _ _ _ _ (dict_get_run _ _ _ _ _ Ht)).
  destruct Hu as [-> | (u & ku & -> & Hu & Hne)].
  - rewrite (bind_ok (truthy VNone) _ h false h eq_refl).
    unfold format_value, bind, ret. eauto.
  - rewrite (bind_ok _ _ _ _ _ (truthy_dict _ _ _ Hu Hne)). cbv iota.
    rewrite (bind_ok _ _ _ _ _ (dict_get_run _ _ _ _ _ Hu)).
    unfold format_value, bind, ret. eauto.
Qed.

(** A merge returns when its scoring does and the indicator fields follow
    the schema. *)
Lemma merge_returns h t kt url_result sc :
  h !! t = Some (ODict kt) ->
  optional (tag_list h) (assoc "phishing_indicators" kt) ->
  url_result_ok h url_result ->
  score_results (VRef t) url_result h = (Ok sc, h) ->
  exists r h',
    _merge_results set_order py_str (VRef t) url_result h = (Ok r, h').
Proof.
  intros Ht Hp Hu Hsc. destruct sc as [[cs cc] ua].
  destruct (score_results_numeric _ _ _ _ _ _ _ Hsc) as (x & Hx).
  destruct (round_of_numeric _ _ Hx) as (conf & Hconf).
  destruct (compile_indicators_run h t kt url_result Ht Hp Hu)
    as (all_p & all_l & h1 & Hci & K1 & Hp1).
  unfold _merge_results.
  rewrite (bind_ok _ _ _ _ _ Hsc). cbv iota.
  rewrite (bind_ok _ _ _ _ _ Hci). cbv iota. rewrite Hconf.
  cbn [lift]. rewrite (bind_ok (ret conf) _ h1 conf h1 eq_refl).
  destruct Hp1 as (lp & xs & -> & Hlp & Hxs).
  unfold list_of_set. rewrite bind_assoc.
  rewrite (bind_ok _ _ _ _ _ (iterate_list_run _ _ _ Hlp)), Hxs.
  rewrite (bind_ok _ _ _ _ _ (alloc_run _ _)).
  rewrite (bind_ok _ _ _ _ _ (alloc_run _ _)).
  set (h3 := ((h1 ++ _) ++ _)%list).
  assert (Ht3 : h3 !! t = Some (ODict kt)).
  { subst h3. repeat apply lookup_app_l_Some. now apply (proj1 K1). }
  assert (Hu3 : url_result = VNone
                \/ exists u ku,
                     url_result = VRef u /\ h3 !! u = Some (ODict ku)
                     /\ ku <> []).
  { destruct Hu as [-> | (u & ku & -> & Hu & Hne & _)]; [now left | right].
    exists u, ku. repeat split; [| exact Hne].
    subst h3. repeat apply lookup_app_l_Some. now apply (proj1 K1). }
  destruct (build_rationale_run (final_verdict cs) h3 t kt url_result Ht3 Hu3)
    as (rat & Hrat).
  rewrite (bind_ok _ _ _ _ _ Hrat).
  rewrite (bind_ok _ _ _ _ _ (dict_get_run _ _ _ _ _ Ht3)).
  rewrite alloc_run. eauto.
Qed.

End MergeReturns.

(** ** Analyzers *)

(** Building the objects of a document never raises. *)
Lemma alloc_json_ok :
  forall j h, exists v h', alloc_json j h = (Ok v, h').
Proof.
  fix alloc_json_ok 1.
  intros j. destruct j as [ | b | z | f | s | items | fields]; intros h;
    try (cbn; unfold ret; eauto; fail).
  - cbn [alloc_json].
    assert (Hgo : forall h0, exists vs h1,
               (fix go (js : list json) : M (list val) :=
                  match js with
                  | [] => ret []
                  | j' :: rest =>
                      v <- alloc_json j' ;; vs <- go rest ;; ret (v :: vs)
                  end) items h0 = (Ok vs, h1)).
    { induction items as [|j' rest IH]; intros h0.
      - exists [], h0. reflexivity.
      - destruct (alloc_json_ok j' h0) as (v & h1 & Hv).
        destruct (IH h1) as (vs & h2 & Hvs).
        exists (v :: vs), h2.
        rewrite (bind_ok _ _ _ _ _ Hv), (bind_ok _ _ _ _ _ Hvs). reflexivity. }
    destruct (Hgo h) as (vs & h1 & Hvs).
    rewrite (bind_ok _ _ _ _ _ Hvs), alloc_run. eauto.
  - cbn [alloc_json].
    assert (Hgo : forall h0, exists kvs h1,
               (fix go (fs : list (string * json)) : M (list (string * val)) :=
                  match fs with
                  | [] => ret []
                  | (k, j') :: rest =>
                      v <- alloc_json j' ;; kvs <- go rest ;; ret ((k, v) :: kvs)
                  end) fields h0 = (Ok kvs, h1)).
    { induction fields as [|[k j'] rest IH]; intros h0.
      - exists [], h0. reflexivity.
      - destruct (alloc_json_ok j' h0) as (v & h1 & Hv).
        destruct (IH h1) as (kvs & h2 & Hkvs).
        exists ((k, v) :: kvs), h2.
        rewrite (bind_ok _ _ _ _ _ Hv), (bind_ok _ _ _ _ _ Hkvs). reflexivity. }
    destruct (Hgo h) as (kvs & h1 & Hkvs).
    rewrite (bind_ok _ _ _ _ _ Hkvs), alloc_run. eauto.
Qed.

Section AnalyzerFacts.

Variable backend : list request -> request -> outcome string.
Variable json_loads : string -> outcome json.

Lemma on_heap_calls {A} (m : M A) w : calls (snd (on_heap m w)) = calls w.
Proof. unfold on_heap. now destruct (m (heap w)). Qed.

Lemma on_heap_ok_inv {A} (m : M A) w a w' :
  on_heap m w = (Ok a, w') ->
  m (heap w) = (Ok a, heap w') /\ calls w' = calls w.
Proof.
  unfold on_heap. destruct (m (heap w)) as [r h'].
  intros H. inversion H; subst. auto.
Qed.

(** One analysis: the request is sent; the backend's failure, or the
    extractor's, is raised as it is; otherwise the extracted object is
    returned as it is. *)
Lemma analyze_run {I} (self : BaseAgent I) (kwargs : I) w :
  analyze backend json_loads self kwargs w
  = match backend (calls w) (request_of self kwargs) with
    | Raise e => (Raise e, logged w (request_of self kwargs))
    | Ok raw =>
        match _extract_json json_loads raw with
        | Raise e => (Raise e, logged w (request_of self kwargs))
        | Ok obj => on_heap (alloc_json obj) (logged w (request_of self kwargs))
        end
    end.
Proof.
  unfold analyze. rewrite bind_ret_r. unfold call_llm, bind, post.
  fold (request_of self kwargs).
  destruct (backend (calls w) (request_of self kwargs)) as [raw|e];
    [| reflexivity].
  destruct (_extract_json json_loads raw) as [obj|e]; reflexivity.
Qed.

Lemma analyze_calls {I} (self : BaseAgent I) (kwargs : I) w :
  calls (snd (analyze backend json_loads self kwargs w))
  = (calls w ++ [request_of self kwargs])%list.
Proof.
  rewrite analyze_run.
  destruct (backend _ _) as [raw|e]; [| reflexivity].
  destruct (_extract_json _ _) as [obj|e]; [| reflexivity].
  now rewrite on_heap_calls.
Qed.

(** An analysis fails only as the backend fails, or as the extractor
    fails on the backend's answer. *)
Lemma analyze_raise_inv {I} (self : BaseAgent I) (kwargs : I) w e w' :
  analyze backend json_loads self kwargs w = (Raise e, w') ->
  backend (calls w) (request_of self kwargs) = Raise e
  \/ exists raw,
       backend (calls w) (request_of self kwargs) = Ok raw
       /\ _extract_json json_loads raw = Raise e.
Proof.
  rewrite analyze_run.
  destruct (backend _ _) as [raw|e0].
  - destruct (_extract_json json_loads raw) as [obj|e1] eqn:Hx.
    + unfold on_heap.
      destruct (alloc_json_ok obj (heap (logged w (request_of self kwargs))))
        as (v & h' & ->). discriminate.
    + intros H. inversion H; subst. right. now exists raw.
  - intros H. inversion H; subst. now left.
Qed.

End AnalyzerFacts.

(** ** The objects of a JSON object *)

Lemma alloc_json_object fields h :
  alloc_json (JObject fields) h
  = (kvs <- mapM alloc_field fields ;; alloc (ODict kvs)) h.
Proof.
  cbn [alloc_json].
  assert (Hgo : forall h0,
             (fix go (fs : list (string * json)) : M (list (string * val)) :=
                match fs with
                | [] => ret []
                | (k, j') :: rest =>
                    v <- alloc_json j' ;; kvs <- go rest ;; ret ((k, v) :: kvs)
                end) fields h0 = mapM alloc_field fields h0).
  { induction fields as [|[k j'] rest IH]; intros h0; [reflexivity |].
    cbn [mapM]. unfold alloc_field at 1. cbn [fst snd].
    rewrite bind_assoc. apply bind_ext. intros v s'.
    transitivity (bind (mapM alloc_field rest)
                       (fun ys => ret ((k, v) :: ys)) s');
      [| reflexivity].
    unfold bind. now rewrite IH. }
  unfold bind. now rewrite Hgo.
Qed.

(** Without a URL result, scoring reports that no URL analysis counts. *)
Lemma score_results_no_url text_result h cs cc ua h' :
  score_results text_result VNone h = (Ok (cs, cc, ua), h') -> ua = false.
Proof.
  unfold score_results. intros H.
  inv_bind H as ts h1 H1. inv_bind H as tc h2 H2. inv_bind H as b h3 H3.
  inversion H3; subst. inv_bind H as x h4 H4. now inversion H.
Qed.

(** ** Where the set order enters the merge *)

Lemma dict_stable_readonly {A} (m : M A) : readonly m -> dict_stable m.
Proof. intros Hm h l kvs Hl. now rewrite Hm. Qed.

Lemma dict_stable_bind {A B} (m : M A) (k : A -> M B) :
  dict_stable m -> (forall a, dict_stable (k a)) -> dict_stable (bind m k).
Proof.
  intros Hm Hk h l kvs Hl. unfold bind. specialize (Hm h l kvs Hl).
  destruct (m h) as [[a|e] h1]; cbn [snd] in *; [now apply Hk | exact Hm].
Qed.

Lemma dict_stable_alloc o : dict_stable (alloc o).
Proof. intros h l kvs Hl. cbn. now apply lookup_app_l_Some. Qed.

Lemma dict_stable_dict_get d k dflt :
  dict_stable dflt -> dict_stable (dict_get d k dflt).
Proof.
  intros Hd. destruct d; try (apply dict_stable_readonly, readonly_raise).
  cbn [dict_get]. apply dict_stable_bind.
  - apply dict_stable_readonly, readonly_load.
  - intros [xs|kvs]; [apply dict_stable_readonly, readonly_raise |].
    apply dict_stable_bind; [exact Hd |].
    intros; apply dict_stable_readonly, readonly_ret.
Qed.

Lemma dict_stable_list_extend lst arg : dict_stable (list_extend lst arg).
Proof.
  destruct lst; try (apply dict_stable_readonly, readonly_raise).
  intros h l0 kvs Hl. cbn [list_extend]. unfold bind, load.
  destruct (h !! l) as [[xs|kvs']|] eqn:El; cbn [snd]; try exact Hl.
  pose proof (readonly_iterate arg h) as Hro.
  destruct (iterate arg h) as [[ys|e] h1]; cbn [snd] in *; subst h1;
    [| exact Hl].
  unfold store. cbn [snd].
  rewrite list_lookup_insert_ne; [exact Hl |].
  intros E. subst l0.
  assert (Hc : Some (OList xs) = Some (ODict kvs))
    by (rewrite <- El; exact Hl).
  discriminate Hc.
Qed.

Lemma dict_stable_mapM {A B} (f : A -> M B) xs :
  (forall x, dict_stable (f x)) -> dict_stable (mapM f xs).
Proof.
  intros Hf. induction xs as [|x xs IH]; cbn [mapM].
  - apply dict_stable_readonly, readonly_ret.
  - apply dict_stable_bind; [apply Hf | intros y].
    apply dict_stable_bind; [exact IH | intros ys].
    apply dict_stable_readonly, readonly_ret.
Qed.

Lemma dict_stable_forM_ {A} (f : A -> M unit) xs :
  (forall x, dict_stable (f x)) -> dict_stable (forM_ f xs).
Proof.
  intros Hf. induction xs as [|x xs IH]; cbn [forM_].
  - apply dict_stable_readonly, readonly_ret.
  - apply dict_stable_bind; [apply Hf | intros _; exact IH].
Qed.

Lemma dict_stable_compile_indicators text_result url_result :
  dict_stable (compile_indicators text_result url_result).
Proof.
  unfold compile_indicators.
  apply dict_stable_bind;
    [apply dict_stable_dict_get, dict_stable_alloc | intros all_p].
  apply dict_stable_bind;
    [apply dict_stable_dict_get, dict_stable_alloc | intros all_l].
  apply dict_stable_bind;
    [apply dict_stable_readonly, readonly_truthy | intros b].
  apply dict_stable_bind;
    [| intros; apply dict_stable_readonly, readonly_ret].
  destruct b; [| apply dict_stable_readonly, readonly_ret].
  apply dict_stable_bind;
    [apply dict_stable_dict_get, dict_stable_alloc | intros details].
  apply dict_stable_bind;
    [apply dict_stable_readonly, readonly_iterate | intros ds].
  apply dict_stable_bind.
  - apply dict_stable_mapM. intros d.
    apply dict_stable_dict_get, dict_stable_alloc.
  - intros vs. apply dict_stable_forM_. intros v.
    apply dict_stable_list_extend.
Qed.

Lemma merge_split set_order py_str text_result url_result h :
  _merge_results set_order py_str text_result url_result h
  = bind (merge_prefix text_result url_result)
         (merge_suffix set_order py_str text_result url_result) h.
Proof.
  unfold _merge_results, merge_prefix.
  rewrite bind_assoc. apply bind_ext. intros [[cs cc] ua] h1.
  rewrite bind_assoc. apply bind_ext. intros [all_p all_l] h2.
  rewrite bind_assoc. apply bind_ext. intros conf h3.
  unfold list_of_set. rewrite !bind_assoc. apply bind_ext. intros xs h4.
  destruct (forallb hashable xs); reflexivity.
Qed.

Lemma dict_stable_merge_prefix text_result url_result :
  dict_stable (merge_prefix text_result url_result).
Proof.
  unfold merge_prefix.
  apply dict_stable_bind;
    [apply dict_stable_readonly, readonly_score_results
    | intros [[cs cc] ua]].
  apply dict_stable_bind;
    [apply dict_stable_compile_indicators | intros [all_p all_l]].
  apply dict_stable_bind;
    [apply dict_stable_readonly, readonly_lift | intros conf].
  apply dict_stable_bind;
    [apply dict_stable_readonly, readonly_iterate | intros xs].
  destruct (forallb hashable xs); apply dict_stable_readonly;
    [apply readonly_ret | apply readonly_raise].
Qed.

(** The merge changes no dict: neither record it is given, nor any record
    inside them.  (A list is another matter.) *)
Lemma dict_stable_merge_results set_order py_str text_result url_result :
  dict_stable (_merge_results set_order py_str text_result url_result).
Proof.
  intros h l kvs Hl. rewrite merge_split.
  revert h l kvs Hl. apply dict_stable_bind.
  - apply dict_stable_merge_prefix.
  - intros [[[[cs ua] conf] all_l] xs]. unfold merge_suffix. cbv zeta.
    apply dict_stable_bind; [apply dict_stable_alloc | intros pi].
    apply dict_stable_bind; [apply dict_stable_alloc | intros au].
    apply dict_stable_bind;
      [apply dict_stable_readonly, readonly_build_rationale | intros rat].
    apply dict_stable_bind;
      [apply dict_stable_dict_get, dict_stable_readonly, readonly_ret
      | intros saf].
    apply dict_stable_alloc.
Qed.

Lemma format_rationale py_str (h : list obj) kvs :
  optional is_str (assoc "overall_rationale" kvs) ->
  format_value py_str (default (VStr "") (assoc "overall_rationale" kvs)) h
    = (Ok (rationale_of kvs), h).
Proof.
  unfold rationale_of.
  destruct (assoc "overall_rationale" kvs) as [v|]; cbn; [| reflexivity].
  now intros (s & ->).
Qed.

Lemma build_rationale_strings py_str final h t kt url_result ku :
  h !! t = Some (ODict kt) ->
  optional is_str (assoc "overall_rationale" kt) ->
  url_dict h url_result ku ->
  _build_rationale py_str final (VRef t) url_result h
    = (Ok (composed_rationale kt ku), h).
Proof.
  intros Ht Hs Hu. unfold _build_rationale.
  rewrite (bind_ok _ _ _ _ _ (dict_get_run _ _ _ _ _ Ht)).
  destruct ku as [ku|]; cbn [url_dict] in Hu.
  - destruct Hu as (u & -> & Hu & Hsu).
    assert (Htr : truthy (VRef u) h
                  = (Ok (negb (Nat.eqb (length ku) 0)), h)).
    { cbn [truthy]. now rewrite (bind_ok _ _ _ _ _ (load_run _ _ _ Hu)). }
    rewrite (bind_ok _ _ _ _ _ Htr).
    destruct ku as [|kv ku]; cbn [length Nat.eqb negb composed_rationale].
    + rewrite (bind_ok _ _ _ _ _ (format_rationale _ _ _ Hs)).
      reflexivity.
    + rewrite (bind_ok _ _ _ _ _ (dict_get_run _ _ _ _ _ Hu)).
      rewrite (bind_ok _ _ _ _ _ (format_rationale _ _ _ Hs)).
      rewrite (bind_ok _ _ _ _ _ (format_rationale _ _ _ Hsu)).
      reflexivity.
  - subst url_result.
    rewrite (bind_ok (truthy VNone) _ h false h eq_refl).
    rewrite (bind_ok _ _ _ _ _ (format_rationale _ _ _ Hs)).
    reflexivity.
Qed.

Lemma url_dict_stable h h' url_result ku :
  (forall l kvs, h !! l = Some (ODict kvs) -> h' !! l = Some (ODict kvs)) ->
  url_dict h url_result ku -> url_dict h' url_result ku.
Proof.
  intros K. destruct ku as [ku|]; cbn; [| auto].
  intros (u & -> & Hu & Hs). exists u. auto.
Qed.

(** The merge from the list of distinct indicators on: the result is the
    third new object, after the list and the [agents_used] dict. *)
Lemma merge_suffix_run set_order py_str h t kt url_result ku
    cs ua conf all_l xs :
  h !! t = Some (ODict kt) ->
  optional is_str (assoc "overall_rationale" kt) ->
  url_dict h url_result ku ->
  merge_suffix set_order py_str (VRef t) url_result
               (cs, ua, conf, all_l, xs) h
  = (Ok (VRef (S (S (length h)))),
     (h ++ [OList (set_order xs);
            ODict [("text", VBool true); ("url", VBool ua)];
            ODict [("task", VStr "email_phishing_detection");
                   ("verdict", VStr (final_verdict cs));
                   ("confidence", conf);
                   ("phishing_indicators", VRef (length h));
                   ("legitimacy_indicators", all_l);
                   ("agents_used", VRef (S (length h)));
                   ("text_agent_result", VRef t);
                   ("url_agent_result", url_result);
                   ("overall_rationale", VStr (composed_rationale kt ku));
                   ("safety_notes",
                    default (VStr "") (assoc "safety_notes" kt))]])%list).
Proof.
  intros Ht Hs Hu. unfold merge_suffix. cbv zeta.
  rewrite (bind_ok _ _ _ _ _ (alloc_run _ _)).
  rewrite (bind_ok _ _ _ _ _ (alloc_run _ _)).
  set (h2 := ((h ++ _) ++ _)%list).
  assert (K : forall l kvs,
             h !! l = Some (ODict kvs) -> h2 !! l = Some (ODict kvs)).
  { intros l kvs Hl. subst h2. now repeat apply lookup_app_l_Some. }
  rewrite (bind_ok _ _ _ _ _
             (build_rationale_strings py_str _ h2 t kt url_result ku
                (K _ _ Ht) Hs (url_dict_stable _ _ _ _ K Hu))).
  rewrite (bind_ok _ _ _ _ _ (dict_get_run _ _ _ _ _ (K _ _ Ht))).
  rewrite alloc_run. subst h2.
  rewrite !length_app. cbn [length].
  replace (length h + 1 + 1)%nat with (S (S (length h))) by lia.
  replace (length h + 1)%nat with (S (length h)) by lia.
  now rewrite <- !app_assoc.
Qed.


(** ** The two sample iteration orders list the same distinct items *)

Lemma order_first_subset x xs : In x (Sample.order_first xs) -> In x xs.
Proof.
  induction xs as [|y ys IH]; cbn [Sample.order_first]; [auto |].
  intros [-> | H]; [now left | right].
  apply filter_In in H as [H _]. auto.
Qed.

Lemma same_str_eq (a b : val) : Sample.same_str a b = true -> a = b.
Proof.
  destruct a, b; cbn; try discriminate.
  intros H. apply String.eqb_eq in H. now subst.
Qed.

Lemma same_str_refl s : Sample.same_str (VStr s) (VStr s) = true.
Proof. cbn. apply String.eqb_refl. Qed.

(** On strings, [order_first] lists every item of the list, once. *)
Lemma order_first_lists_the_set xs :
  Forall is_str xs ->
  List.NoDup (Sample.order_first xs)
  /\ forall x, In x (Sample.order_first xs) <-> In x xs.
Proof.
  induction 1 as [|y ys (s & ->) Hys [IHn IHi]]; cbn [Sample.order_first].
  - split; [constructor | reflexivity].
  - split.
    + constructor.
      * intros Hin. apply filter_In in Hin as [_ Hneq].
        now rewrite same_str_refl in Hneq.
      * now apply List.NoDup_filter.
    + intros x. split.
      * intros [-> | Hin]; [now left | right].
        apply filter_In in Hin as [Hin _]. now apply IHi.
      * intros [-> | Hin]; [now left |].
        destruct (Sample.same_str (VStr s) x) eqn:E.
        -- left. now apply same_str_eq.
        -- right. apply filter_In. split; [now apply IHi | now rewrite E].
Qed.

Lemma order_reversed_permutation xs :
  Permutation (Sample.order_first xs) (Sample.order_reversed xs).
Proof. apply Permutation_rev. Qed.

(** ** What a computation writes *)

Section Touches.

Variable n0 : nat.
Variable allowed : loc -> Prop.
Lemma touches_readonly {A} (m : M A) : readonly m -> touches n0 allowed m.
Proof. intros Hm h _. rewrite (Hm h). auto. Qed.

Lemma touches_bind {A B} (m : M A) (k : A -> M B) :
  touches n0 allowed m -> (forall a, touches n0 allowed (k a)) ->
  touches n0 allowed (bind m k).
Proof.
  intros Hm Hk h Hn. unfold bind. destruct (Hm h Hn) as [Hlen Hsame].
  destruct (m h) as [[a|e] h1]; cbn [snd] in *; [| auto].
  destruct (Hk a h1) as [Hlen' Hsame']; [lia |].
  split; [lia |]. intros l Hl Hna. now rewrite Hsame', Hsame.
Qed.

Lemma touches_alloc o : touches n0 allowed (alloc o).
Proof.
  intros h Hn. cbn [alloc snd]. rewrite length_app. split; [lia |].
  intros l Hl _. apply lookup_app_l. lia.
Qed.

Lemma touches_store l o :
  allowed l \/ (n0 <= l)%nat -> touches n0 allowed (store l o).
Proof.
  intros Hl h Hn. cbn [store snd]. rewrite length_insert. split; [lia |].
  intros l' Hl' Hna. apply list_lookup_insert_ne. intros <-.
  destruct Hl; [contradiction | lia].
Qed.

Lemma touches_dict_get d k dflt :
  touches n0 allowed dflt -> touches n0 allowed (dict_get d k dflt).
Proof.
  intros Hd. destruct d; try (apply touches_readonly, readonly_raise).
  cbn [dict_get]. apply touches_bind; [apply touches_readonly, readonly_load |].
  intros [xs|kvs]; [apply touches_readonly, readonly_raise |].
  apply touches_bind; [exact Hd |]. intros v. apply touches_readonly, readonly_ret.
Qed.

Lemma touches_list_extend lst arg :
  (forall l, lst = VRef l -> allowed l \/ (n0 <= l)%nat) ->
  touches n0 allowed (list_extend lst arg).
Proof.
  intros Hl. destruct lst; try (apply touches_readonly, readonly_raise).
  cbn [list_extend].
  apply touches_bind; [apply touches_readonly, readonly_load |].
  intros [xs|kvs]; [| apply touches_readonly, readonly_raise].
  apply touches_bind; [apply touches_readonly, readonly_iterate |].
  intros ys. apply touches_store. now apply Hl.
Qed.

Lemma touches_mapM {A B} (f : A -> M B) xs :
  (forall x, touches n0 allowed (f x)) -> touches n0 allowed (mapM f xs).
Proof.
  intros Hf. induction xs as [|x xs IH]; cbn [mapM].
  - apply touches_readonly, readonly_ret.
  - apply touches_bind; [apply Hf |]. intros y.
    apply touches_bind; [exact IH |]. intros ys.
    apply touches_readonly, readonly_ret.
Qed.

Lemma touches_forM_ {A} (f : A -> M unit) xs :
  (forall x, touches n0 allowed (f x)) -> touches n0 allowed (forM_ f xs).
Proof.
  intros Hf. induction xs as [|x xs IH]; cbn [forM_].
  - apply touches_readonly, readonly_ret.
  - apply touches_bind; [apply Hf | intros _; exact IH].
Qed.

(** Lines 74-80, once [all_phishing_indicators] is known. *)
Lemma touches_compile_tail text_result url_result all_p :
  (forall l, all_p = VRef l -> allowed l \/ (n0 <= l)%nat) ->
  touches n0 allowed
    (all_legitimacy_indicators <-
       dict_get text_result "legitimacy_indicators" (alloc (OList [])) ;;
     has_url <- truthy url_result ;;
     (if has_url then
        url_details <- dict_get url_result "url_details" (alloc (OList [])) ;;
        ds <- iterate url_details ;;
        url_indicators <-
          mapM (fun d => dict_get d "indicators" (alloc (OList []))) ds ;;
        forM_ (fun indicators_list => list_extend all_p indicators_list)
              url_indicators
      else ret tt) ;;;
     ret (all_p, all_legitimacy_indicators)).
Proof.
  intros Hp.
  apply touches_bind; [apply touches_dict_get, touches_alloc |]. intros all_l.
  apply touches_bind; [apply touches_readonly, readonly_truthy |].
  intros has_url. apply touches_bind.
  2:{ intros _. apply touches_readonly, readonly_ret. }
  destruct has_url; [| apply touches_readonly, readonly_ret].
  apply touches_bind; [apply touches_dict_get, touches_alloc |]. intros details.
  apply touches_bind; [apply touches_readonly, readonly_iterate |]. intros ds.
  apply touches_bind.
  - apply touches_mapM. intros d. apply touches_dict_get, touches_alloc.
  - intros vs. apply touches_forM_. intros v. now apply touches_list_extend.
Qed.

(** Lines 82-99: what follows the indicators writes to new objects only. *)
Lemma touches_merge_tail set_order py_str text_result url_result
    (combined_score : float) (combined_confidence : val) (urls_analyzed : bool)
    (all_phishing_indicators all_legitimacy_indicators : val) :
  touches n0 allowed
    (let final := final_verdict combined_score in
     confidence <- lift (PyNum.round_ndigits2 combined_confidence) ;;
     phishing_indicators <- list_of_set set_order all_phishing_indicators ;;
     agents_used <-
       alloc (ODict [("text", VBool true); ("url", VBool urls_analyzed)]) ;;
     overall_rationale <-
       _build_rationale py_str final text_result url_result ;;
     safety_notes <- dict_get text_result "safety_notes" (ret (VStr "")) ;;
     alloc (ODict [("task", VStr "email_phishing_detection");
                   ("verdict", VStr final);
                   ("confidence", confidence);
                   ("phishing_indicators", phishing_indicators);
                   ("legitimacy_indicators", all_legitimacy_indicators);
                   ("agents_used", agents_used);
                   ("text_agent_result", text_result);
                   ("url_agent_result", url_result);
                   ("overall_rationale", VStr overall_rationale);
                   ("safety_notes", safety_notes)])).
Proof.
  cbv zeta.
  apply touches_bind; [apply touches_readonly, readonly_lift |]. intros conf.
  apply touches_bind.
  { unfold list_of_set.
    apply touches_bind; [apply touches_readonly, readonly_iterate |].
    intros xs. destruct (forallb hashable xs);
      [apply touches_alloc | apply touches_readonly, readonly_raise]. }
  intros pi. apply touches_bind; [apply touches_alloc |]. intros au.
  apply touches_bind; [apply touches_readonly, readonly_build_rationale |].
  intros rat.
  apply touches_bind;
    [apply touches_readonly, readonly_dict_get, readonly_ret |].
  intros saf. apply touches_alloc.
Qed.

End Touches.
(** The first [get] of line 74, by cases. *)
Lemma dict_get_fresh_cases d k h :
  dict_get d k (alloc (OList [])) h = (Raise AttributeError, h)
  \/ exists l kvs,
       d = VRef l /\ h !! l = Some (ODict kvs)
       /\ dict_get d k (alloc (OList [])) h
          = (Ok (default (VRef (length h)) (assoc k kvs)),
             (h ++ [OList []])%list).
Proof.
  destruct d; try (left; reflexivity).
  destruct (h !! l) as [[xs|kvs]|] eqn:E.
  - left. cbn [dict_get]. unfold bind, load. now rewrite E.
  - right. exists l, kvs. split; [reflexivity |]. split; [exact E |].
    now apply dict_get_fresh_run.
  - left. cbn [dict_get]. unfold bind, load. now rewrite E.
Qed.

Lemma compile_indicators_frame text_result url_result h r h' :
  compile_indicators text_result url_result h = (r, h') ->
  (length h <= length h')%nat
  /\ forall l, (l < length h)%nat ->
       field h text_result "phishing_indicators" <> Some (VRef l) ->
       h' !! l = h !! l.
Proof.
  unfold compile_indicators.
  destruct (dict_get_fresh_cases text_result "phishing_indicators" h)
    as [Hr | (t & kt & Ht & Hlt & Hr)].
  { rewrite (bind_raise _ _ _ _ _ Hr). intros H. inversion H; subst. auto. }
  rewrite (bind_ok _ _ _ _ _ Hr). subst text_result.
  set (all_p := default (VRef (length h)) (assoc "phishing_indicators" kt)).
  intros H.
  destruct (touches_compile_tail (length h)
              (fun l => field h (VRef t) "phishing_indicators"
                        = Some (VRef l))
              (VRef t) url_result all_p) with (h := (h ++ [OList []])%list)
    as [Hlen Hsame].
  - intros l Hl. subst all_p. unfold field. rewrite Hlt.
    destruct (assoc "phishing_indicators" kt) as [v|]; cbn in Hl.
    + left. now subst v.
    + right. inversion Hl. lia.
  - rewrite length_app. lia.
  - rewrite H in Hlen, Hsame. cbn [snd] in Hlen, Hsame.
    rewrite length_app in Hlen. split; [cbn in Hlen; lia |].
    intros l Hl Hna. rewrite (Hsame l Hl Hna). apply lookup_app_l. lia.
Qed.

Lemma touches_compile_no_url n0 text_result :
  touches n0 (fun _ => False) (compile_indicators text_result VNone).
Proof.
  unfold compile_indicators.
  apply touches_bind; [apply touches_dict_get, touches_alloc |]. intros p.
  apply touches_bind; [apply touches_dict_get, touches_alloc |]. intros l.
  apply touches_readonly. intros h. reflexivity.
Qed.

(** ** Reading back what [json.loads] has built *)

Lemma read_back_ref n h l :
  read_back (S n) h (VRef l)
  = match h !! l with
    | Some (OList xs) => option_map JList (read_items n h xs)
    | Some (ODict kvs) => option_map JObject (read_fields n h kvs)
    | None => None
    end.
Proof. reflexivity. Qed.

Lemma read_items_Forall2 n h xs items :
  Forall2 (fun x j => read_back n h x = Some j) xs items ->
  read_items n h xs = Some items.
Proof.
  induction 1 as [|x j xs items Hx _ IH]; [reflexivity |].
  unfold read_items in *. cbn [fold_right]. now rewrite Hx, IH.
Qed.

Lemma read_items_inv n h xs : forall items,
  read_items n h xs = Some items ->
  Forall2 (fun x j => read_back n h x = Some j) xs items.
Proof.
  induction xs as [|x xs IH]; intros items H.
  - inversion H. constructor.
  - unfold read_items in H. cbn [fold_right] in H.
    fold (read_items n h xs) in H.
    destruct (read_back n h x) as [j|] eqn:Hx; [| discriminate].
    destruct (read_items n h xs) as [js|] eqn:Hxs; [| discriminate].
    inversion H; subst. constructor; [exact Hx | now apply IH].
Qed.

Lemma read_fields_Forall2 n h kvs fields :
  Forall2 (fun kv kj => fst kv = fst kj
                        /\ read_back n h (snd kv) = Some (snd kj)) kvs fields ->
  read_fields n h kvs = Some fields.
Proof.
  induction 1 as [|kv kj kvs fields [Hk Hv] _ IH]; [reflexivity |].
  unfold read_fields in *. cbn [fold_right]. rewrite Hv, IH, Hk.
  now destruct kj.
Qed.

Lemma read_fields_inv n h kvs : forall fields,
  read_fields n h kvs = Some fields ->
  Forall2 (fun kv kj => fst kv = fst kj
                        /\ read_back n h (snd kv) = Some (snd kj)) kvs fields.
Proof.
  induction kvs as [|kv kvs IH]; intros fields H.
  - inversion H. constructor.
  - unfold read_fields in H. cbn [fold_right] in H.
    fold (read_fields n h kvs) in H.
    destruct (read_back n h (snd kv)) as [j|] eqn:Hx; [| discriminate].
    destruct (read_fields n h kvs) as [js|] eqn:Hxs; [| discriminate].
    inversion H; subst. constructor; [auto | now apply IH].
Qed.

(** A value that reads back as an object is a dict of the store, whose
    fields read back as the fields of the object, in their order. *)
Lemma read_back_object_inv n h v fields :
  read_back n h v = Some (JObject fields) ->
  exists m l kvs,
    n = S m /\ v = VRef l /\ h !! l = Some (ODict kvs)
    /\ Forall2 (fun kv kj => fst kv = fst kj
                             /\ read_back m h (snd kv) = Some (snd kj))
               kvs fields.
Proof.
  destruct v as [ | b | z | f | s | l]; destruct n as [|m];
    try discriminate.
  rewrite read_back_ref.
  destruct (h !! l) as [[xs|kvs]|] eqn:Hl; try discriminate.
  - destruct (read_items m h xs); discriminate.
  - destruct (read_fields m h kvs) as [fs|] eqn:Hf; [| discriminate].
    intros H. inversion H; subst fs.
    exists m, l, kvs. repeat split; [exact Hl | now apply read_fields_inv].
Qed.

Lemma read_back_list_inv n h v items :
  read_back n h v = Some (JList items) ->
  exists m l xs,
    n = S m /\ v = VRef l /\ h !! l = Some (OList xs)
    /\ Forall2 (fun x j => read_back m h x = Some j) xs items.
Proof.
  destruct v as [ | b | z | f | s | l]; destruct n as [|m];
    try discriminate.
  rewrite read_back_ref.
  destruct (h !! l) as [[xs|kvs]|] eqn:Hl; try discriminate.
  - destruct (read_items m h xs) as [js|] eqn:Hf; [| discriminate].
    intros H. inversion H; subst js.
    exists m, l, xs. repeat split; [exact Hl | now apply read_items_inv].
  - destruct (read_fields m h kvs); discriminate.
Qed.

(** A value that reads back as a number or a string is that number or
    string. *)
Lemma read_back_float_inv n h v c :
  read_back n h v = Some (JFloat c) -> v = VFloat c.
Proof.
  destruct v as [ | b | z | f | s | l]; destruct n as [|m];
    try discriminate; try (intros H; inversion H; reflexivity).
  rewrite read_back_ref.
  destruct (h !! l) as [[xs|kvs]|]; try discriminate.
  - destruct (read_items m h xs); discriminate.
  - destruct (read_fields m h kvs); discriminate.
Qed.

Lemma read_back_str_inv n h v s :
  read_back n h v = Some (JStr s) -> v = VStr s.
Proof.
  destruct v as [ | b | z | f | s' | l]; destruct n as [|m];
    try discriminate; try (intros H; inversion H; reflexivity).
  rewrite read_back_ref.
  destruct (h !! l) as [[xs|kvs]|]; try discriminate.
  - destruct (read_items m h xs); discriminate.
  - destruct (read_fields m h kvs); discriminate.
Qed.

(** The fields of the dict, key by key. *)
Lemma fields_assoc n h kvs fields k :
  Forall2 (fun kv kj => fst kv = fst kj
                        /\ read_back n h (snd kv) = Some (snd kj))
          kvs fields ->
  match json_assoc k fields with
  | None => assoc k kvs = None
  | Some j => exists v, assoc k kvs = Some v /\ read_back n h v = Some j
  end.
Proof.
  induction 1 as [|[k1 v1] [k2 j2] kvs fields [Hk Hv] _ IH];
    [reflexivity |].
  cbn [fst snd] in Hk, Hv. subst k2. cbn [json_assoc assoc].
  destruct (String.eqb k1 k); [eauto | exact IH].
Qed.

(** A list of strings of the store is a list of tags. *)
Lemma tag_list_of_strings n h v tags :
  read_back n h v = Some (JList (map JStr tags)) -> tag_list h v.
Proof.
  intros H. apply read_back_list_inv in H
    as (m & l & xs & -> & -> & Hl & Hxs).
  exists l, xs. repeat split; [exact Hl |].
  clear Hl. revert tags Hxs.
  induction xs as [|x xs IH]; intros tags Hxs; [reflexivity |].
  destruct tags as [|s tags]; inversion Hxs; subst.
  cbn [forallb]. rewrite (IH tags); [| assumption].
  match goal with H : read_back _ _ _ = Some (JStr _) |- _ =>
    apply read_back_str_inv in H; subst x end.
  reflexivity.
Qed.

(** ** What [json.loads] builds reads back as the document *)

Lemma stands_for_app n h ext v j :
  stands_for n h v j -> stands_for n (h ++ ext)%list v j.
Proof. intros H ext'. rewrite <- app_assoc. apply H. Qed.

Lemma alloc_json_list items h :
  alloc_json (JList items) h
  = (vs <- mapM alloc_json items ;; alloc (OList vs)) h.
Proof.
  cbn [alloc_json].
  assert (Hgo : forall h0,
             (fix go (js : list json) : M (list val) :=
                match js with
                | [] => ret []
                | j' :: rest =>
                    v <- alloc_json j' ;; vs <- go rest ;; ret (v :: vs)
                end) items h0 = mapM alloc_json items h0).
  { induction items as [|j' rest IH]; intros h0; [reflexivity |].
    cbn [mapM]. apply bind_ext. intros v s'.
    unfold bind. now rewrite IH. }
  unfold bind. now rewrite Hgo.
Qed.

Lemma depth_list_le items n :
  (depth (JList items) <= S n)%nat -> Forall (fun j => (depth j <= n)%nat) items.
Proof.
  cbn [depth]. intros H. apply Nat.succ_le_mono in H.
  induction items as [|j items IH]; [constructor |].
  cbn [fold_right] in H. constructor; [lia |]. apply IH. lia.
Qed.

Lemma depth_object_le fields n :
  (depth (JObject fields) <= S n)%nat ->
  Forall (fun kj => (depth (snd kj) <= n)%nat) fields.
Proof.
  cbn [depth]. intros H. apply Nat.succ_le_mono in H.
  induction fields as [|kj fields IH]; [constructor |].
  cbn [fold_right] in H. constructor; [lia |]. apply IH. lia.
Qed.

(** The objects built for a document extend the store, and the value
    returned reads back as the document, there and in every larger store. *)
Lemma alloc_json_read_back n :
  forall j h v h',
    (depth j <= n)%nat ->
    alloc_json j h = (Ok v, h') ->
    (exists ext, h' = (h ++ ext)%list) /\ stands_for n h' v j.
Proof.
  induction n as [|n IH]; intros j h v h' Hd Ha.
  - destruct j; cbn [depth] in Hd; try lia; cbn in Ha; inversion Ha; subst;
      (split; [exists []; now rewrite app_nil_r | intros ext; reflexivity]).
  - destruct j as [ | b | z | f | s | items | fields];
      try (cbn in Ha; inversion Ha; subst;
           split; [exists []; now rewrite app_nil_r
                  | intros ext; reflexivity]).
    + rewrite alloc_json_list in Ha. inv_bind Ha as vs h1 Hvs.
      rewrite alloc_run in Ha. inversion Ha; subst v h'; clear Ha.
      apply depth_list_le in Hd.
      assert (Hall : (exists ext, h1 = (h ++ ext)%list)
                     /\ Forall2 (stands_for n h1) vs items).
      { clear - IH Hd Hvs. revert h vs h1 Hvs.
        induction items as [|j items IHi]; intros h vs h1 Hvs.
        - inversion Hvs; subst. split; [exists []; now rewrite app_nil_r |].
          constructor.
        - inversion Hd as [|? ? Hj Hrest]; subst.
          cbn [mapM] in Hvs. inv_bind Hvs as v h2 Hv.
          inv_bind Hvs as vs' h3 Hvs'. inversion Hvs; subst; clear Hvs.
          destruct (IH _ _ _ _ Hj Hv) as [[e1 ->] Sv].
          destruct (IHi Hrest _ _ _ Hvs') as [[e2 ->] Svs].
          split; [exists (e1 ++ e2)%list; now rewrite app_assoc |].
          constructor; [now apply stands_for_app | exact Svs]. }
      destruct Hall as [[e ->] Hall].
      split; [exists (e ++ [OList vs])%list; now rewrite app_assoc |].
      intros ext. rewrite read_back_ref.
      rewrite <- app_assoc.
      change ([OList vs] ++ ext)%list with (OList vs :: ext).
      rewrite list_lookup_middle; [| reflexivity].
      rewrite (read_items_Forall2 n _ vs items); [reflexivity |].
      eapply Forall2_impl; [exact Hall |]. intros x j Hx. apply Hx.
    + rewrite alloc_json_object in Ha. inv_bind Ha as kvs h1 Hkvs.
      rewrite alloc_run in Ha. inversion Ha; subst v h'; clear Ha.
      apply depth_object_le in Hd.
      assert (Hall : (exists ext, h1 = (h ++ ext)%list)
                     /\ Forall2 (fun kv kj =>
                                   fst kv = fst kj
                                   /\ stands_for n h1 (snd kv) (snd kj))
                                kvs fields).
      { clear - IH Hd Hkvs. revert h kvs h1 Hkvs.
        induction fields as [|kj fields IHi]; intros h kvs h1 Hkvs.
        - inversion Hkvs; subst. split; [exists []; now rewrite app_nil_r |].
          constructor.
        - inversion Hd as [|? ? Hj Hrest]; subst.
          cbn [mapM] in Hkvs. inv_bind Hkvs as kv h2 Hkv.
          inv_bind Hkvs as kvs' h3 Hkvs'. inversion Hkvs; subst; clear Hkvs.
          unfold alloc_field in Hkv. inv_bind Hkv as v h4 Hv.
          inversion Hkv; subst; clear Hkv.
          destruct (IH _ _ _ _ Hj Hv) as [[e1 ->] Sv].
          destruct (IHi Hrest _ _ _ Hkvs') as [[e2 ->] Svs].
          split; [exists (e1 ++ e2)%list; now rewrite app_assoc |].
          constructor; [| exact Svs].
          split; [reflexivity | now apply stands_for_app]. }
      destruct Hall as [[e ->] Hall].
      split; [exists (e ++ [ODict kvs])%list; now rewrite app_assoc |].
      intros ext. rewrite read_back_ref.
      rewrite <- app_assoc.
      change ([ODict kvs] ++ ext)%list with (ODict kvs :: ext).
      rewrite list_lookup_middle; [| reflexivity].
      rewrite (read_fields_Forall2 n _ kvs fields); [reflexivity |].
      eapply Forall2_impl; [exact Hall |].
      intros kv kj [Hk Hx]. split; [exact Hk | apply Hx].
Qed.

(** ** Reading back in a store that keeps every object *)

Lemma read_back_frame n : forall h h' v j,
  (forall (l : loc) o, h !! l = Some o -> h' !! l = Some o) ->
  read_back n h v = Some j -> read_back n h' v = Some j.
Proof.
  induction n as [|n IH]; intros h h' v j Hsame H.
  - destruct v; try exact H; discriminate.
  - destruct v as [ | b | z | f | s | l]; try exact H.
    rewrite read_back_ref in H. rewrite read_back_ref.
    destruct (h !! l) as [[xs|kvs]|] eqn:Hl; [| | discriminate];
      rewrite (Hsame _ _ Hl).
    + destruct (read_items n h xs) as [js|] eqn:Hxs; [| discriminate].
      apply read_items_inv in Hxs.
      rewrite (read_items_Forall2 n h' xs js); [exact H |].
      eapply Forall2_impl; [exact Hxs |]. intros x jx Hx.
      now apply (IH h h').
    + destruct (read_fields n h kvs) as [js|] eqn:Hxs; [| discriminate].
      apply read_fields_inv in Hxs.
      rewrite (read_fields_Forall2 n h' kvs js); [exact H |].
      eapply Forall2_impl; [exact Hxs |]. intros x jx [Hk Hx].
      split; [exact Hk | now apply (IH h h')].
Qed.

(** ** Scoring, whatever the scores of the verdicts *)

Lemma score_results_scored_text_only h t kvs ts c :
  h !! t = Some (ODict kvs) ->
  verdict_score (VRef t) h = (Ok ts, h) ->
  PyNum.to_float (default (VFloat 0.5) (assoc "confidence" kvs)) = Ok c ->
  score_results (VRef t) VNone h
    = (Ok ((ts * c)%float,
           default (VFloat 0.5) (assoc "confidence" kvs), false), h).
Proof.
  intros Ht Hv Hc. unfold score_results.
  rewrite (bind_ok _ _ _ _ _ Hv).
  rewrite (bind_ok _ _ _ _ _ (dict_get_run _ _ _ _ _ Ht)).
  rewrite (bind_ok (truthy VNone) _ h false h eq_refl).
  rewrite (bind_ok _ _ _ _ _ (mul_l_run _ _ _ _ Hc)).
  reflexivity.
Qed.

Lemma score_results_scored_with_url h t u kt ku ts us tc uc :
  h !! t = Some (ODict kt) ->
  h !! u = Some (ODict ku) ->
  ku <> [] ->
  verdict_score (VRef t) h = (Ok ts, h) ->
  verdict_score (VRef u) h = (Ok us, h) ->
  PyNum.to_float (default (VFloat 0.5) (assoc "confidence" kt)) = Ok tc ->
  PyNum.to_float (default (VFloat 0.5) (assoc "confidence" ku)) = Ok uc ->
  score_results (VRef t) (VRef u) h
    = (Ok ((ts * 0.6 * tc + us * 0.4 * uc)%float,
           VFloat (tc * 0.6 + uc * 0.4)%float, true), h).
Proof.
  intros Ht Hu Hne Hvt Hvu Htc Huc. unfold score_results.
  rewrite (bind_ok _ _ _ _ _ Hvt).
  rewrite (bind_ok _ _ _ _ _ (dict_get_run _ _ _ _ _ Ht)).
  rewrite (bind_ok _ _ _ _ _ (truthy_dict _ _ _ Hu Hne)).
  rewrite (bind_ok _ _ _ _ _ Hvu).
  rewrite (bind_ok _ _ _ _ _ (dict_get_run _ _ _ _ _ Hu)).
  rewrite (bind_ok _ _ _ _ _ (mul_l_run _ _ _ _ Htc)).
  rewrite (bind_ok _ _ _ _ _ (mul_l_run _ _ _ _ Huc)).
  rewrite (bind_ok _ _ _ _ _ (mul_r_run _ _ _ _ Htc)).
  rewrite (bind_ok _ _ _ _ _ (mul_r_run _ _ _ _ Huc)).
  reflexivity.
Qed.

(** ** An analysis that returns *)

Section AnalysisReturns.

Variable backend : list request -> request -> outcome string.
Variable json_loads : string -> outcome json.

(** When the backend answers and the extractor finds a document, the
    analysis returns a value that reads back as that document, in the store
    it leaves and in every store that keeps the objects of that one. *)
Lemma analyze_returns_the_document {I} (self : BaseAgent I) (kwargs : I)
    (w : world) raw j :
  backend (calls w) (request_of self kwargs) = Ok raw ->
  _extract_json json_loads raw = Ok j ->
  exists result w',
    analyze backend json_loads self kwargs w = (Ok result, w')
    /\ calls w' = (calls w ++ [request_of self kwargs])%list
    /\ stands_for (depth j) (heap w') result j.
Proof.
  intros Hb Hx. rewrite analyze_run, Hb, Hx. unfold on_heap.
  set (w1 := logged w (request_of self kwargs)).
  destruct (alloc_json_ok j (heap w1)) as (v & h' & Hok).
  rewrite Hok. exists v, {| heap := h'; calls := calls w1 |}.
  split; [reflexivity |]. split; [reflexivity |]. cbn [heap].
  now destruct (alloc_json_read_back (depth j) j _ _ _ (le_n _) Hok).
Qed.

End AnalysisReturns.

(** A result that reads back as an object with an invalid verdict is a
    dict of the store, and its verdict scores 0.5. *)
Lemma invalid_verdict_dict n h v fields :
  read_back n h v = Some (JObject fields) ->
  invalid_verdict fields ->
  exists m l kvs,
    n = S m /\ v = VRef l /\ h !! l = Some (ODict kvs)
    /\ Forall2 (fun kv kj => fst kv = fst kj
                             /\ read_back m h (snd kv) = Some (snd kj))
               kvs fields
    /\ verdict_score v h = (Ok 0.5%float, h).
Proof.
  intros Hr Hv.
  destruct (read_back_object_inv _ _ _ _ Hr)
    as (m & l & kvs & -> & -> & Hl & Hf).
  exists m, l, kvs. repeat split; try assumption.
  apply (verdict_score_invalid _ _ kvs Hl).
  pose proof (fields_assoc m h kvs fields "verdict" Hf) as Ha.
  destruct Hv as [Hv | (s & Hv & Hs)]; rewrite Hv in Ha.
  - now left.
  - right. exists s. split; [| exact Hs].
    destruct Ha as (v' & Ha & Hv'). apply read_back_str_inv in Hv'.
    now subst v'.
Qed.

Lemma float_field n h kvs fields k c :
  Forall2 (fun kv kj => fst kv = fst kj
                        /\ read_back n h (snd kv) = Some (snd kj))
          kvs fields ->
  json_assoc k fields = Some (JFloat c) ->
  assoc k kvs = Some (VFloat c).
Proof.
  intros Hf Hk. pose proof (fields_assoc n h kvs fields k Hf) as Ha.
  rewrite Hk in Ha. destruct Ha as (v & Ha & Hv).
  apply read_back_float_inv in Hv. now subst v.
Qed.

Section MergeNoUrl.

Variable set_order : list val -> list val.
Variable py_str : list obj -> val -> string.

(** Without a URL result the merge keeps every object of the store. *)
Lemma merge_no_url_keeps text_result h r h' :
  _merge_results set_order py_str text_result VNone h = (r, h') ->
  forall l o, h !! l = Some o -> h' !! l = Some o.
Proof.
  intros H l o Hl. pose proof (lookup_lt_Some _ _ _ Hl) as Hlt.
  assert (Ht : touches (length h) (fun _ => False)
                 (_merge_results set_order py_str text_result VNone)).
  { unfold _merge_results.
    apply touches_bind; [apply touches_readonly, readonly_score_results |].
    intros [[cs cc] ua].
    apply touches_bind; [apply touches_compile_no_url |]. intros [pi li].
    apply touches_merge_tail. }
  destruct (Ht h (le_n _)) as [_ Hsame]. rewrite H in Hsame. cbn [snd] in Hsame.
  rewrite Hsame; auto.
Qed.

End MergeNoUrl.

Section NoUrls.

Variable backend : list request -> request -> outcome string.
Variable json_loads : string -> outcome json.
Variable set_order : list val -> list val.
Variable py_str : list obj -> val -> string.

(** With no URLs given, or none in the list, [analyze_email] runs the text
    analysis and merges its result with no URL result. *)
Lemma analyze_email_no_urls (self : UnifiedEmailAnalyzer)
    (subject body : string) (urls : option (list string)) (w : world) :
  urls = None \/ urls = Some [] ->
  analyze_email backend json_loads set_order py_str self subject body urls w
  = (text_result <-
       analyze backend json_loads (text_agent self) (subject, body) ;;
     on_heap (_merge_results set_order py_str text_result VNone)) w.
Proof.
  intros Hurls. unfold analyze_email. apply bind_ext. intros t s'.
  destruct Hurls as [-> | ->]; cbv iota;
    unfold bind at 1; unfold ret at 1; now rewrite bind_ret_r.
Qed.

End NoUrls.

(** ** Rounding to two decimal places *)

Module RoundFacts.

Lemma round_half_even_spec n d :
  0 < d -> 0 <= n ->
  let k := PyNum.round_half_even n d in
  0 <= k
  /\ 2 * Z.abs (n - k * d) <= d
  /\ (2 * Z.abs (n - k * d) = d -> Z.even k = true).
Proof.
  intros Hd Hn. cbv zeta. unfold PyNum.round_half_even.
  pose proof (Z.div_mod n d ltac:(lia)) as Hdm.
  pose proof (Z.mod_pos_bound n d Hd) as Hr.
  pose proof (Z.div_pos n d Hn Hd) as Hq.
  set (q := n / d) in *. set (r := n mod d) in *.
  destruct (Z.compare_spec (2 * r) d) as [E|E|E].
  - destruct (Z.even q) eqn:Hev.
    + split; [lia |]. split; [| auto].
      replace (n - q * d) with r by lia. lia.
    + split; [lia |].
      replace (n - (q + 1) * d) with (r - d) by lia.
      split; [lia |]. intros _.
      rewrite Z.even_add, Hev. reflexivity.
  - split; [lia |]. replace (n - q * d) with r by lia. split; lia.
  - split; [lia |]. replace (n - (q + 1) * d) with (r - d) by lia.
    split; lia.
Qed.

(** Only one integer is the nearest. *)
Lemma nearest_unique n d k k' :
  0 < d ->
  2 * Z.abs (n - k * d) <= d ->
  (2 * Z.abs (n - k * d) = d -> Z.even k = true) ->
  2 * Z.abs (n - k' * d) <= d ->
  (2 * Z.abs (n - k' * d) = d -> Z.even k' = true) ->
  k = k'.
Proof.
  intros Hd H1 E1 H2 E2.
  assert (Hnear : k' = k \/ k' = k + 1 \/ k' = k - 1) by nia.
  destruct Hnear as [-> | [-> | ->]]; [reflexivity | exfalso | exfalso].
  - assert (T1 : 2 * Z.abs (n - k * d) = d) by nia.
    assert (T2 : 2 * Z.abs (n - (k + 1) * d) = d) by nia.
    specialize (E1 T1). specialize (E2 T2).
    rewrite Z.even_add, E1 in E2. discriminate.
  - assert (T1 : 2 * Z.abs (n - k * d) = d) by nia.
    assert (T2 : 2 * Z.abs (n - (k - 1) * d) = d) by nia.
    specialize (E1 T1). specialize (E2 T2).
    rewrite Z.even_sub, E1 in E2. discriminate.
Qed.

Lemma digits2_pos_bound m : Z.pos m < 2 ^ Z.pos (digits2_pos m).
Proof.
  induction m as [m IH|m IH|]; cbn [digits2_pos]; [| | reflexivity];
    rewrite Pos2Z.inj_succ, Z.pow_succ_r by lia; lia.
Qed.

(** The mantissa of a binary64 number has at most 53 bits. *)
Lemma mantissa_bound x s m e :
  Prim2SF x = S754_finite s m e -> Z.pos m < 2 ^ 53.
Proof.
  intros Hx. pose proof (Prim2SF_valid x) as Hv. rewrite Hx in Hv.
  cbn [SpecFloat.valid_binary] in Hv. unfold bounded in Hv.
  apply andb_prop in Hv as [Hc _]. unfold canonical_mantissa, fexp in Hc.
  apply Z.eqb_eq in Hc.
  assert (Hd : Z.pos (digits2_pos m) <= 53).
  { change prec with 53 in Hc. lia. }
  pose proof (digits2_pos_bound m) as Hm.
  assert (2 ^ Z.pos (digits2_pos m) <= 2 ^ 53)
    by (apply Z.pow_le_mono_r; lia).
  lia.
Qed.

(** A number of absolute value at most 1, exactly. *)
Lemma at_most_one x s m e :
  Prim2SF x = S754_finite s m e ->
  PrimFloat.leb (abs x) 1 = true ->
  e < 0 /\ Z.pos m <= 2 ^ (- e).
Proof.
  intros Hx Hle. pose proof (mantissa_bound x s m e Hx) as Hm.
  rewrite FloatAxioms.leb_spec, FloatAxioms.abs_spec, Hx in Hle.
  change (Prim2SF 1) with (S754_finite false 4503599627370496 (-52)) in Hle.
  cbn [SFabs] in Hle. unfold SFleb, SFcompare in Hle.
  destruct (Z.compare_spec e (-52)) as [E|E|E]; [| | discriminate].
  - subst e. split; [lia |]. change (2 ^ (- -52)) with 4503599627370496.
    destruct (Pos.compare_cont Eq m 4503599627370496) eqn:Hc;
      try discriminate.
    + apply Pos.compare_eq in Hc. subst m. clear. lia.
    + assert (Hlt : (m < 4503599627370496)%positive) by exact Hc.
      apply Pos2Z.pos_lt_pos in Hlt. clear - Hlt. lia.
  - split; [lia |].
    assert (2 ^ 53 <= 2 ^ (- e)) by (apply Z.pow_le_mono_r; lia). lia.
Qed.

(** In the range of the hundredths from 0 to 100 the quotient is the float
    division. *)
Lemma quotient_small s p :
  (p <= 100)%positive -> quotient_by_100 s (Z.pos p) = hundredths s (Z.pos p).
Proof.
  intros Hp.
  do 7 (try (destruct p as [p|p|])); try (exfalso; lia);
    destruct s; vm_compute; reflexivity.
Qed.

Lemma quotient_zero s : quotient_by_100 s 0 = hundredths s 0.
Proof. destruct s; vm_compute; reflexivity. Qed.

Lemma round2_finite x s m e :
  Prim2SF x = S754_finite s m e ->
  exists k,
    0 <= k
    /\ nearest_hundredth m e k
    /\ PyNum.round2 x = quotient_by_100 s k.
Proof.
  intros Hx. unfold PyNum.round2. rewrite Hx. unfold nearest_hundredth.
  destruct (Z.leb_spec 0 e) as [He|He].
  - exists (Z.pos m * 2 ^ e * 100).
    assert (0 < 2 ^ e) by (apply Z.pow_pos_nonneg; lia).
    rewrite Z.max_l by lia. rewrite (Z.max_r (- e)) by lia.
    change (2 ^ 0) with 1.
    replace (Z.pos m * 100 * 2 ^ e - Z.pos m * 2 ^ e * 100 * 1) with 0 by lia.
    cbn [Z.abs]. repeat split; lia.
  - assert (Hd : 0 < 2 ^ (- e)) by (apply Z.pow_pos_nonneg; lia).
    pose proof (round_half_even_spec (Z.pos m * 100) (2 ^ (- e)) Hd
                  ltac:(lia)) as Hk. cbv zeta in Hk.
    set (k := PyNum.round_half_even (Z.pos m * 100) (2 ^ (- e))) in *.
    exists k. rewrite Z.max_r by lia. rewrite (Z.max_l (- e)) by lia.
    change (2 ^ 0) with 1. rewrite Z.mul_1_r.
    destruct Hk as (Hk0 & Hk1 & Hk2).
    repeat split; try assumption.
Qed.

End RoundFacts.

(** * The claims *)

(** ** Validation of the verdict *)

(** C1 (as the code has it).  An analyzer result whose verdict is missing,
    or is a string outside the three verdicts, raises no validation error.
    Whatever the analyzer, when the backend answers and the extractor finds
    an object with such a verdict, the analysis returns, and what it returns
    is the extracted object as it is: it reads back from the store as that
    very document.  The merge scores it 0.5, the score of [unsure]: with no
    URL result the combined score is 0.5 times its confidence, and with both
    results present 0.5 stands for its verdict in the weighted sum, be it
    the text result or the URL result.  And [analyze_email], given no URLs,
    does return a Unified Verdict for such a text result: its verdict is the
    final verdict of 0.5 times the confidence, its confidence the rounded
    confidence, and the text result it embeds still reads back as the
    extracted document. *)
Theorem invalid_verdict_scored_as_unsure
    (backend : list request -> request -> outcome string)
    (json_loads : string -> outcome json)
    (set_order : list val -> list val) (py_str : list obj -> val -> string) :
  (forall (I : Type) (self : BaseAgent I) (kwargs : I) (w : world)
          (raw : string) (fields : list (string * json)),
      backend (calls w) (request_of self kwargs) = Ok raw ->
      _extract_json json_loads raw = Ok (JObject fields) ->
      invalid_verdict fields ->
      exists result w',
        analyze backend json_loads self kwargs w = (Ok result, w')
        /\ read_back (depth (JObject fields)) (heap w') result
           = Some (JObject fields)
        /\ verdict_score result (heap w')
           = (Ok (verdict_value unsure), heap w')
        /\ forall c, json_assoc "confidence" fields = Some (JFloat c) ->
             score_results result VNone (heap w')
             = (Ok ((verdict_value unsure * c)%float, VFloat c, false),
                heap w')
             /\ (forall u ku us uc,
                    heap w' !! u = Some (ODict ku) -> ku <> [] ->
                    verdict_score (VRef u) (heap w') = (Ok us, heap w') ->
                    PyNum.to_float
                      (default (VFloat 0.5) (assoc "confidence" ku)) = Ok uc ->
                    score_results result (VRef u) (heap w')
                    = (Ok ((verdict_value unsure * 0.6 * c
                            + us * 0.4 * uc)%float,
                           VFloat (c * 0.6 + uc * 0.4)%float, true),
                       heap w'))
             /\ (forall t kt ts tc,
                    fields <> [] ->
                    heap w' !! t = Some (ODict kt) ->
                    verdict_score (VRef t) (heap w') = (Ok ts, heap w') ->
                    PyNum.to_float
                      (default (VFloat 0.5) (assoc "confidence" kt)) = Ok tc ->
                    score_results (VRef t) result (heap w')
                    = (Ok ((ts * 0.6 * tc
                            + verdict_value unsure * 0.4 * c)%float,
                           VFloat (tc * 0.6 + c * 0.4)%float, true),
                       heap w')))
  /\ (forall (self : UnifiedEmailAnalyzer) (subject body : string)
             (urls : option (list string)) (w : world)
             (raw : string) (fields : list (string * json)) (c : float),
         urls = None \/ urls = Some [] ->
         backend (calls w) (request_of (text_agent self) (subject, body))
           = Ok raw ->
         _extract_json json_loads raw = Ok (JObject fields) ->
         invalid_verdict fields ->
         json_assoc "confidence" fields = Some (JFloat c) ->
         (json_assoc "phishing_indicators" fields = None
          \/ exists tags,
               json_assoc "phishing_indicators" fields
               = Some (JList (map JStr tags))) ->
         exists merged w' text_result,
           analyze_email backend json_loads set_order py_str self
                         subject body urls w = (Ok merged, w')
           /\ field (heap w') merged "verdict"
              = Some (VStr (final_verdict (verdict_value unsure * c)))
           /\ field (heap w') merged "confidence"
              = Some (VFloat (PyNum.round2 c))
           /\ field (heap w') merged "text_agent_result" = Some text_result
           /\ read_back (depth (JObject fields)) (heap w') text_result
              = Some (JObject fields)).
Proof.
  split.
  - intros I self kwargs w raw fields Hb Hx Hv.
    destruct (analyze_returns_the_document backend json_loads self kwargs
                w raw _ Hb Hx) as (result & w' & Hrun & _ & Hst).
    exists result, w'. split; [exact Hrun |].
    pose proof (Hst []) as Hr. rewrite app_nil_r in Hr.
    split; [exact Hr |].
    destruct (invalid_verdict_dict _ _ _ _ Hr Hv)
      as (m & l & kvs & _ & -> & Hl & Hf & Hs).
    split; [exact Hs |]. intros c Hc.
    pose proof (float_field _ _ _ _ _ _ Hf Hc) as Hconf.
    assert (Hnum : PyNum.to_float
                     (default (VFloat 0.5) (assoc "confidence" kvs)) = Ok c)
      by now rewrite Hconf.
    split; [| split].
    + rewrite (score_results_scored_text_only _ _ _ _ _ Hl Hs Hnum).
      now rewrite Hconf.
    + intros u ku us uc Hu Hne Hus Huc.
      exact (score_results_scored_with_url _ _ _ _ _ _ _ _ _
               Hl Hu Hne Hs Hus Hnum Huc).
    + intros t kt ts tc Hfields Ht Hts Htc.
      assert (Hne : kvs <> []).
      { intros ->. inversion Hf; subst. contradiction. }
      exact (score_results_scored_with_url _ _ _ _ _ _ _ _ _
               Ht Hl Hne Hts Hs Htc Hnum).
  - intros self subject body urls w raw fields c Hurls Hb Hx Hv Hc Hp.
    destruct (analyze_returns_the_document backend json_loads
                (text_agent self) (subject, body) w raw _ Hb Hx)
      as (result & w1 & Hrun & _ & Hst).
    pose proof (Hst []) as Hr. rewrite app_nil_r in Hr.
    destruct (invalid_verdict_dict _ _ _ _ Hr Hv)
      as (m & l & kvs & _ & -> & Hl & Hf & Hs).
    pose proof (float_field _ _ _ _ _ _ Hf Hc) as Hconf.
    assert (Hnum : PyNum.to_float
                     (default (VFloat 0.5) (assoc "confidence" kvs)) = Ok c)
      by now rewrite Hconf.
    pose proof (score_results_scored_text_only _ _ _ _ _ Hl Hs Hnum) as Hsc.
    rewrite Hconf in Hsc. cbn [default] in Hsc.
    assert (Htags : optional (tag_list (heap w1))
                             (assoc "phishing_indicators" kvs)).
    { pose proof (fields_assoc _ _ _ _ "phishing_indicators" Hf) as Ha.
      destruct Hp as [Hp | (tags & Hp)]; rewrite Hp in Ha.
      - now rewrite Ha.
      - destruct Ha as (v & -> & Hv'). cbn [optional].
        exact (tag_list_of_strings _ _ _ _ Hv'). }
    destruct (merge_returns set_order py_str (heap w1) l kvs VNone _
                Hl Htags (or_introl eq_refl) Hsc) as (r & h' & Hm).
    exists r, {| heap := h'; calls := calls w1 |}, (VRef l).
    cbn [heap]. split.
    { rewrite (analyze_email_no_urls _ _ _ _ _ _ _ _ _ Hurls).
      rewrite (bind_ok _ _ _ _ _ Hrun). unfold on_heap. now rewrite Hm. }
    destruct (merge_fields _ _ _ _ _ _ _ Hm)
      as (cs & cc & ua & conf & au & Hsc' & Hround & Hfv & Hfc & _ & _ & _
          & Hft & _).
    rewrite Hsc in Hsc'. inversion Hsc'; subst cs cc ua.
    cbn in Hround. inversion Hround; subst conf.
    repeat split; try assumption.
    apply (read_back_frame _ (heap w1)); [| exact Hr].
    exact (merge_no_url_keeps set_order py_str _ _ _ _ Hm).
Qed.

Lemma invalid_verdict_scored_as_unsure_witness :
  exists merged w' text_result,
    analyze_email Sample.backend_odd Sample.loads Sample.order_first
                  Sample.no_str Sample.analyzer "Hi" "Hello" None Sample.start
    = (Ok merged, w')
    /\ field (heap w') merged "verdict" = Some (VStr "unsure")
    /\ field (heap w') merged "confidence" = Some (VFloat 0.9)
    /\ field (heap w') merged "text_agent_result" = Some text_result
    /\ read_back 1 (heap w') text_result = Some Sample.odd_doc.
Proof.
  apply (proj2 (invalid_verdict_scored_as_unsure
                  Sample.backend_odd Sample.loads Sample.order_first
                  Sample.no_str)
               Sample.analyzer "Hi" "Hello" None Sample.start "{odd}"
               [("verdict", JStr "spam"); ("confidence", JFloat 0.9)]
               0.9%float).
  - now left.
  - reflexivity.
  - reflexivity.
  - right. exists "spam". split; [reflexivity |].
    repeat split; discriminate.
  - reflexivity.
  - now left.
Defined.

(** The claim fails: a backend answers the text analyzer with the verdict
    "spam"; the analysis raises nothing and returns a Unified Verdict, whose
    verdict [unsure] comes from scoring "spam" as 0.5. *)
Lemma invalid_verdict_accepted :
  Sample.run_doc
    (analyze_email Sample.backend_odd Sample.loads Sample.order_first
                   Sample.no_str Sample.analyzer "Hi" "Hello" None
                   Sample.start)
  = Some
      (JObject
         [("task", JStr "email_phishing_detection");
          ("verdict", JStr "unsure");
          ("confidence", JFloat 0.9);
          ("phishing_indicators", JList []);
          ("legitimacy_indicators", JList []);
          ("agents_used", JObject [("text", JBool true); ("url", JBool false)]);
          ("text_agent_result",
           JObject [("verdict", JStr "spam"); ("confidence", JFloat 0.9)]);
          ("url_agent_result", JNull);
          ("overall_rationale", JStr "Based on text analysis: ");
          ("safety_notes", JStr "")]).
Proof. vm_compute. reflexivity. Qed.

(** ** The merge and its inputs *)

(** C2 (the code at a failing input).  Merging the sample text result, whose
    indicator list holds one tag, with the sample URL result, whose one URL
    has one indicator, appends the URL indicator to the text result's own
    list: after the merge the text result reads differently, and it is that
    changed record that the Unified Verdict embeds as [text_agent_result]. *)
Theorem merge_extends_text_indicators :
  read_back 2 Sample.two_results Sample.text_ref = Some Sample.text_doc
  /\ exists r h',
       _merge_results Sample.order_first Sample.no_str
                      Sample.text_ref Sample.url_ref Sample.two_results
         = (Ok r, h')
       /\ read_back 2 h' Sample.text_ref = Some Sample.text_doc_extended
       /\ field h' r "text_agent_result" = Some Sample.text_ref
       /\ Sample.doc_field "text_agent_result" (read_back 6 h' r)
            = Some Sample.text_doc_extended
       /\ read_back 4 h' Sample.url_ref = Some Sample.url_doc.
Proof.
  split; [vm_compute; reflexivity |].
  exists (VRef 13%nat),
         (snd (_merge_results Sample.order_first Sample.no_str
                 Sample.text_ref Sample.url_ref Sample.two_results)).
  repeat split; vm_compute; reflexivity.
Qed.

(** Merging the very same two objects a second time finds the text
    result's list already extended, and extends it again. *)
Example merging_the_same_objects_again :
  Sample.doc_field "phishing_indicators"
    (read_back 2
       (snd ((_merge_results Sample.order_first Sample.no_str
                             Sample.text_ref Sample.url_ref ;;;
              _merge_results Sample.order_first Sample.no_str
                             Sample.text_ref Sample.url_ref)
               Sample.two_results))
       Sample.text_ref)
  = Some (JList [JStr "urgent_threat_or_deadline"; JStr "http_not_https";
                 JStr "http_not_https"]).
Proof. vm_compute. reflexivity. Qed.

(** ** Thresholds *)

(** C3.  The final verdict is [phishing] when the combined score is at
    least 0.7, [legitimate] when it is at most 0.3 and [unsure] otherwise,
    both bounds included; in a merged result the verdict is that of the
    combined score as scoring computed it, unrounded, and the confidence is
    the combined confidence rounded to two decimal places.  Rounded to two
    decimal places means: for a finite float of absolute value [m * 2 ^ e],
    the result is the quotient by 100 of the one integer [k] nearest to a
    hundred times that value (the even one of two that are as near), with
    the sign of the float; for a float from -1 to 1 that integer is at most
    100 and the result is the float [k / 100.0]; zeros, infinities and NaN
    are left as they are. *)
Theorem final_verdict_thresholds
    (set_order : list val -> list val) (py_str : list obj -> val -> string) :
  (forall score, PrimFloat.leb 0.7 score = true ->
                 final_verdict score = "phishing")
  /\ (forall score, PrimFloat.leb score 0.3 = true ->
                    final_verdict score = "legitimate")
  /\ (forall score, PrimFloat.leb 0.7 score = false ->
                    PrimFloat.leb score 0.3 = false ->
                    final_verdict score = "unsure")
  /\ final_verdict 0.7 = "phishing"
  /\ final_verdict 0.3 = "legitimate"
  /\ (forall text_result url_result h r h',
        _merge_results set_order py_str text_result url_result h = (Ok r, h') ->
        exists combined_score combined_confidence urls_analyzed confidence,
          score_results text_result url_result h
            = (Ok (combined_score, combined_confidence, urls_analyzed), h)
          /\ field h' r "verdict" = Some (VStr (final_verdict combined_score))
          /\ PyNum.round_ndigits2 combined_confidence = Ok confidence
          /\ field h' r "confidence" = Some confidence
          /\ (forall f, combined_confidence = VFloat f ->
                        confidence = VFloat (PyNum.round2 f)))
  /\ (forall x s m e,
        Prim2SF x = S754_finite s m e ->
        exists k,
          0 <= k
          /\ nearest_hundredth m e k
          /\ (forall k', nearest_hundredth m e k' -> k' = k)
          /\ PyNum.round2 x = quotient_by_100 s k
          /\ (PrimFloat.leb (abs x) 1 = true ->
              k <= 100 /\ PyNum.round2 x = hundredths s k))
  /\ (forall x, match Prim2SF x with
                | S754_finite _ _ _ => True
                | _ => PyNum.round2 x = x
                end).
Proof.
  split; [exact final_verdict_phishing |].
  split; [exact final_verdict_legitimate |].
  split; [exact final_verdict_unsure |].
  split; [reflexivity |]. split; [reflexivity |].
  split; [| split].
  - intros t u h r h' H.
    destruct (merge_fields _ _ _ _ _ _ _ H)
      as (cs & cc & ua & conf & au & Hsc & Hconf & Hv & Hc & _).
    exists cs, cc, ua, conf. repeat split; try assumption.
    intros f ->. cbn in Hconf. now inversion Hconf.
  - intros x s m e Hx.
    destruct (RoundFacts.round2_finite x s m e Hx) as (k & Hk0 & Hn & Hr).
    exists k. split; [exact Hk0 |]. split; [exact Hn |].
    split; [| split; [exact Hr |]].
    + intros k' Hn'. destruct Hn as [H1 E1], Hn' as [H2 E2].
      apply (RoundFacts.nearest_unique
               (Z.pos m * 100 * 2 ^ Z.max e 0) (2 ^ Z.max (- e) 0));
        try assumption.
      apply Z.pow_pos_nonneg; lia.
    + intros Hle.
      destruct (RoundFacts.at_most_one x s m e Hx Hle) as [He Hm].
      destruct Hn as [H1 _]. cbv zeta in H1.
      rewrite Z.max_r in H1 by lia. rewrite (Z.max_l (- e)) in H1 by lia.
      change (2 ^ 0) with 1 in H1. rewrite Z.mul_1_r in H1.
      assert (Hd : 0 < 2 ^ (- e)) by (apply Z.pow_pos_nonneg; lia).
      assert (Hk : k <= 100) by nia.
      split; [exact Hk |]. rewrite Hr.
      destruct k as [|p|p]; [apply RoundFacts.quotient_zero | | lia].
      apply RoundFacts.quotient_small. lia.
  - intros x. unfold PyNum.round2. now destruct (Prim2SF x).
Qed.

(** A text result [phishing] of confidence 0.699 and no URL result: the
    score 0.699 is below 0.7, so the verdict is [unsure], while the
    confidence reported is 0.7, seventy hundredths. *)
Lemma final_verdict_thresholds_witness :
  (exists r h',
      _merge_results Sample.order_first Sample.no_str (VRef 0%nat) VNone
                     (Sample.bare_results "phishing" 0.699 "unsure" 0.5)
      = (Ok r, h')
      /\ field h' r "verdict" = Some (VStr "unsure")
      /\ field h' r "confidence" = Some (VFloat 0.7))
  /\ (exists k,
        nearest_hundredth 6296032279063953 (-53) k
        /\ k <= 100
        /\ PyNum.round2 0.699 = hundredths false k)
  /\ final_verdict 0.9 = "phishing"
  /\ final_verdict 0.25 = "legitimate"
  /\ final_verdict 0.36 = "unsure".
Proof.
  destruct (final_verdict_thresholds Sample.order_first Sample.no_str)
    as (Hp & Hl & Hu & _ & _ & Hmerge & Hround & _).
  split; [| split; [| split; [| split]]].
  - destruct (_merge_results Sample.order_first Sample.no_str (VRef 0%nat)
                VNone (Sample.bare_results "phishing" 0.699 "unsure" 0.5))
      as [[r|e] h'] eqn:E; [| vm_compute in E; discriminate].
    exists r, h'. split; [reflexivity |].
    destruct (Hmerge _ _ _ _ _ E)
      as (cs & cc & ua & conf & Hsc & Hv & _ & Hc & Hf).
    vm_compute in Hsc. injection Hsc as <- <- <-.
    rewrite (Hf _ eq_refl) in Hc. split; [exact Hv | exact Hc].
  - destruct (Hround 0.699%float false 6296032279063953%positive (-53)
                eq_refl) as (k & _ & Hn & _ & _ & Hsmall).
    destruct (Hsmall eq_refl) as [Hk Hr].
    exists k. split; [exact Hn |]. split; [exact Hk | exact Hr].
  - apply Hp. reflexivity.
  - apply Hl. reflexivity.
  - apply Hu; reflexivity.
Defined.

(** The scenarios of the spec, and one where rounding would cross the
    threshold: the score 0.699 is not [phishing], although the reported
    confidence rounds to 0.7. *)
Example scenario_text_phishing :
  Sample.merged_doc_fields ["verdict"; "confidence"; "agents_used"]
    (merged_doc Sample.order_first Sample.no_str (VRef 0%nat) VNone
       (Sample.bare_results "phishing" 0.9 "unsure" 0.5))
  = [Some (JStr "phishing"); Some (JFloat 0.9);
     Some (JObject [("text", JBool true); ("url", JBool false)])].
Proof. vm_compute. reflexivity. Qed.

Example scenario_legitimate_text_phishing_url :
  fst (score_results (VRef 0%nat) (VRef 1%nat)
         (Sample.bare_results "legitimate" 0.8 "phishing" 0.9))
  = Ok (0.36000000000000004%float, VFloat 0.84000000000000008, true)
  /\ Sample.merged_doc_fields ["verdict"; "confidence"; "agents_used"]
       (merged_doc Sample.order_first Sample.no_str (VRef 0%nat) (VRef 1%nat)
          (Sample.bare_results "legitimate" 0.8 "phishing" 0.9))
     = [Some (JStr "unsure"); Some (JFloat 0.84);
        Some (JObject [("text", JBool true); ("url", JBool true)])].
Proof. split; vm_compute; reflexivity. Qed.

Example scenario_both_unsure :
  fst (score_results (VRef 0%nat) (VRef 1%nat)
         (Sample.bare_results "unsure" 0.5 "unsure" 0.5))
  = Ok (0.25%float, VFloat 0.5, true)
  /\ Sample.merged_doc_fields ["verdict"; "confidence"]
       (merged_doc Sample.order_first Sample.no_str (VRef 0%nat) (VRef 1%nat)
          (Sample.bare_results "unsure" 0.5 "unsure" 0.5))
     = [Some (JStr "legitimate"); Some (JFloat 0.5)].
Proof. split; vm_compute; reflexivity. Qed.

Example scenario_threshold_on_unrounded_score :
  Sample.merged_doc_fields ["verdict"; "confidence"]
    (merged_doc Sample.order_first Sample.no_str (VRef 0%nat) VNone
       (Sample.bare_results "phishing" 0.699 "unsure" 0.5))
  = [Some (JStr "unsure"); Some (JFloat 0.7)]
  /\ final_verdict 0.7 = "phishing".
Proof. split; vm_compute; reflexivity. Qed.

(** ** The two branches of the scoring *)

(** C4.  With a URL result present (a dict that is not empty), and the
    verdicts scored phishing 1.0, unsure 0.5, legitimate 0.0, the combined
    score is 0.6 x text score x text confidence + 0.4 x URL score x URL
    confidence and the combined confidence is 0.6 x text confidence + 0.4 x
    URL confidence; the merged result has [agents_used.url] true; and the
    merge does return a result when the indicator fields follow the
    schema. *)
Theorem merge_with_url
    (set_order : list val -> list val) (py_str : list obj -> val -> string)
    (h : list obj) (t u : loc) (kt ku : list (string * val))
    (text_verdict url_verdict : verdict) (tc uc : float) :
  h !! t = Some (ODict kt) ->
  h !! u = Some (ODict ku) ->
  ku <> [] ->
  assoc "verdict" kt = Some (VStr (verdict_name text_verdict)) ->
  assoc "verdict" ku = Some (VStr (verdict_name url_verdict)) ->
  PyNum.to_float (default (VFloat 0.5) (assoc "confidence" kt)) = Ok tc ->
  PyNum.to_float (default (VFloat 0.5) (assoc "confidence" ku)) = Ok uc ->
  let combined_score :=
    (0.6 * verdict_value text_verdict * tc
     + 0.4 * verdict_value url_verdict * uc)%float in
  let combined_confidence := (0.6 * tc + 0.4 * uc)%float in
  score_results (VRef t) (VRef u) h
    = (Ok (combined_score, VFloat combined_confidence, true), h)
  /\ (forall r h',
       _merge_results set_order py_str (VRef t) (VRef u) h = (Ok r, h') ->
       field h' r "verdict" = Some (VStr (final_verdict combined_score))
       /\ field h' r "confidence"
            = Some (VFloat (PyNum.round2 combined_confidence))
       /\ (exists agents_used,
             field h' r "agents_used" = Some agents_used
             /\ field h' agents_used "url" = Some (VBool true)))
  /\ (optional (tag_list h) (assoc "phishing_indicators" kt) ->
      url_result_ok h (VRef u) ->
      exists r h',
        _merge_results set_order py_str (VRef t) (VRef u) h = (Ok r, h')).
Proof.
  intros Ht Hu Hne Hvt Hvu Htc Huc combined_score combined_confidence.
  pose proof (score_results_with_url h t u kt ku text_verdict url_verdict
                tc uc Ht Hu Hne Hvt Hvu Htc Huc) as Hs.
  fold combined_score combined_confidence in Hs.
  split; [exact Hs |]. split.
  2:{ intros Hp Hok. eapply merge_returns; eauto. }
  intros r h' H.
  destruct (merge_fields _ _ _ _ _ _ _ H)
    as (cs & cc & ua & conf & au & Hsc & Hconf & Hfv & Hfc & Hfa & _ & Hfu & _).
  rewrite Hs in Hsc. inversion Hsc; subst cs cc ua.
  cbn in Hconf. inversion Hconf; subst conf.
  split; [exact Hfv |]. split; [exact Hfc |]. eauto.
Qed.

Lemma merge_with_url_witness :
  score_results (VRef 2%nat) (VRef 6%nat) Sample.two_results
    = (Ok ((0.6 * 1.0 * 0.9 + 0.4 * 1.0 * 0.8)%float,
           VFloat (0.6 * 0.9 + 0.4 * 0.8)%float, true), Sample.two_results)
  /\ exists r h',
       _merge_results Sample.order_first Sample.no_str
                      (VRef 2%nat) (VRef 6%nat) Sample.two_results = (Ok r, h')
       /\ field h' r "verdict" = Some (VStr "phishing")
       /\ field h' r "confidence" = Some (VFloat 0.86)
       /\ exists agents_used,
            field h' r "agents_used" = Some agents_used
            /\ field h' agents_used "url" = Some (VBool true).
Proof.
  destruct (merge_with_url Sample.order_first Sample.no_str
              Sample.two_results 2%nat 6%nat
              Sample.text_fields Sample.url_fields phishing phishing
              0.9%float 0.8%float
              eq_refl eq_refl ltac:(discriminate)
              eq_refl eq_refl eq_refl eq_refl)
    as (Hscore & Hfields & Hreturns).
  split; [exact Hscore |].
  destruct Hreturns as (r & h' & Hrun).
  - exists 0%nat, [VStr "urgent_threat_or_deadline"]. repeat split.
  - right. exists 6%nat, Sample.url_fields.
    split; [reflexivity |]. split; [reflexivity |].
    split; [discriminate |].
    exists 5%nat, [VRef 4%nat]. split; [reflexivity |].
    split; [reflexivity |].
    constructor; [| constructor].
    exists 4%nat,
      [("url", VStr "http://verify-account-security.com/login");
       ("indicators", VRef 3%nat)].
    split; [reflexivity |]. split; [reflexivity |].
    exists 3%nat, [VStr "http_not_https"]. repeat split.
  - exists r, h'. split; [exact Hrun |]. exact (Hfields r h' Hrun).
Defined.

(** C5.  With no URL result the combined confidence is the text confidence
    itself and the combined score is the text score times the text
    confidence, before any rounding; the merged result reports the verdict
    of that score, the text confidence rounded, and [agents_used.url] false;
    and the merge does return a result when the phishing indicators, if
    any, are a list of tags. *)
Theorem merge_text_only
    (set_order : list val -> list val) (py_str : list obj -> val -> string)
    (h : list obj) (t : loc) (kvs : list (string * val))
    (text_verdict : verdict) (text_confidence : val) (c : float) :
  h !! t = Some (ODict kvs) ->
  assoc "verdict" kvs = Some (VStr (verdict_name text_verdict)) ->
  default (VFloat 0.5) (assoc "confidence" kvs) = text_confidence ->
  PyNum.to_float text_confidence = Ok c ->
  score_results (VRef t) VNone h
    = (Ok ((verdict_value text_verdict * c)%float, text_confidence, false), h)
  /\ (forall r h',
       _merge_results set_order py_str (VRef t) VNone h = (Ok r, h') ->
       field h' r "verdict"
         = Some (VStr (final_verdict (verdict_value text_verdict * c)))
       /\ (exists confidence,
             PyNum.round_ndigits2 text_confidence = Ok confidence
             /\ field h' r "confidence" = Some confidence)
       /\ (exists agents_used,
             field h' r "agents_used" = Some agents_used
             /\ field h' agents_used "url" = Some (VBool false)))
  /\ (optional (tag_list h) (assoc "phishing_indicators" kvs) ->
      exists r h',
        _merge_results set_order py_str (VRef t) VNone h = (Ok r, h')).
Proof.
  intros Ht Hv <- Hc.
  pose proof (score_results_text_only h t kvs text_verdict c Ht Hv Hc) as Hs.
  split; [exact Hs |]. split.
  2:{ intros Hp. eapply merge_returns; eauto. now left. }
  intros r h' H.
  destruct (merge_fields _ _ _ _ _ _ _ H)
    as (cs & cc & ua & conf & au & Hsc & Hconf & Hfv & Hfc & Hfa & _ & Hfu & _).
  rewrite Hs in Hsc. inversion Hsc; subst cs cc ua.
  split; [exact Hfv |]. split; eauto.
Qed.

Lemma merge_text_only_witness :
  score_results (VRef 2%nat) VNone Sample.two_results
    = (Ok ((1.0 * 0.9)%float, VFloat 0.9, false), Sample.two_results)
  /\ exists r h',
       _merge_results Sample.order_first Sample.no_str
                      (VRef 2%nat) VNone Sample.two_results = (Ok r, h')
       /\ field h' r "verdict" = Some (VStr "phishing")
       /\ (exists confidence,
             PyNum.round_ndigits2 (VFloat 0.9) = Ok confidence
             /\ field h' r "confidence" = Some confidence)
       /\ exists agents_used,
            field h' r "agents_used" = Some agents_used
            /\ field h' agents_used "url" = Some (VBool false).
Proof.
  destruct (merge_text_only Sample.order_first Sample.no_str
              Sample.two_results 2%nat Sample.text_fields phishing
              (VFloat 0.9) 0.9%float eq_refl eq_refl eq_refl eq_refl)
    as (Hscore & Hfields & Hreturns).
  split; [exact Hscore |].
  destruct Hreturns as (r & h' & Hrun).
  - exists 0%nat, [VStr "urgent_threat_or_deadline"]. repeat split.
  - exists r, h'. split; [exact Hrun |]. exact (Hfields r h' Hrun).
Defined.

(** ** Failures of the analyzers *)

(** C6 (as the code has it).  A failure of either analyzer aborts the whole
    analysis with that very failure: the text analyzer's at once, the URL
    analyzer's when the text analysis has returned and there are URLs; no
    verdict is returned in place of a failure. *)
Theorem analyzer_failure_aborts
    (backend : list request -> request -> outcome string)
    (json_loads : string -> outcome json)
    (set_order : list val -> list val) (py_str : list obj -> val -> string)
    (self : UnifiedEmailAnalyzer) (subject body : string)
    (urls : option (list string)) (w : world) (e : exn) :
  ((exists w1,
      analyze backend json_loads (text_agent self) (subject, body) w
        = (Raise e, w1))
   \/ (exists text_result w1 w2 u us,
         analyze backend json_loads (text_agent self) (subject, body) w
           = (Ok text_result, w1)
         /\ urls = Some (u :: us)
         /\ analyze backend json_loads (url_agent self) (Some (u :: us)) w1
              = (Raise e, w2))) ->
  fst (analyze_email backend json_loads set_order py_str self
                     subject body urls w) = Raise e.
Proof.
  unfold analyze_email.
  intros [(w1 & Ht) | (t & w1 & w2 & u & us & Ht & -> & Hu)].
  - now rewrite (bind_raise _ _ _ _ _ Ht).
  - rewrite (bind_ok _ _ _ _ _ Ht). now rewrite (bind_raise _ _ _ _ _ Hu).
Qed.

Lemma analyzer_failure_aborts_witness :
  fst (analyze_email Sample.backend_down Sample.loads Sample.order_first
                     Sample.no_str Sample.analyzer "Hi" "Hello"
                     (Some ["http://verify-account-security.com/login"])
                     Sample.start)
  = Raise (BackendError "connection refused").
Proof.
  apply analyzer_failure_aborts. left.
  exists (snd (analyze Sample.backend_down Sample.loads
                 (text_agent Sample.analyzer) ("Hi", "Hello") Sample.start)).
  vm_compute. reflexivity.
Defined.

(** The claim fails: the text analysis returns, the backend then refuses
    the URL analyzer's request, and the caller receives that failure and no
    result at all. *)
Lemma url_failure_aborts_analysis :
  fst (analyze Sample.backend_url_down Sample.loads
               (text_agent Sample.analyzer) ("Hi", "Hello") Sample.start)
  = Ok (VRef 2%nat)
  /\ analyze_email Sample.backend_url_down Sample.loads Sample.order_first
                   Sample.no_str Sample.analyzer "Hi" "Hello"
                   (Some ["http://verify-account-security.com/login"])
                   Sample.start
     = (Raise (BackendError "connection refused"),
        snd (analyze Sample.backend_url_down Sample.loads
               (url_agent Sample.analyzer)
               (Some ["http://verify-account-security.com/login"])
               (snd (analyze Sample.backend_url_down Sample.loads
                       (text_agent Sample.analyzer) ("Hi", "Hello")
                       Sample.start)))).
Proof. split; vm_compute; reflexivity. Qed.

(** ** The result extractor *)

(** C7 (as the code has it).  A text with no opening brace, or no closing
    brace, or whose last closing brace is at or before its first opening
    brace, is refused with the [ValueError] that says No JSON object found
    in model output, which is a Malformed Output error, whatever the parser
    does.  Every other text has a piece that opens with its first opening
    brace and closes with its last closing brace, and on such a text the
    extractor returns or raises exactly what [json.loads] returns or raises
    on that piece.  So the extractor raises the parser's [JSONDecodeError],
    a Malformed Output error, when the parser does; and every other
    exception of the parser leaves the extractor as it is: an error of an
    extraction that is no Malformed Output error is an error of the parser
    on that piece. *)
Theorem extract_json_failures
    (json_loads : string -> outcome json) (raw : string) :
  let start := PyStr.find PyStr.lbrace raw in
  let end_ := PyStr.rfind PyStr.rbrace raw in
  let json_str := PyStr.slice raw start (end_ + 1) in
  ((PyStr.count_char PyStr.lbrace raw = 0%nat
    \/ PyStr.count_char PyStr.rbrace raw = 0%nat
    \/ end_ <= start) ->
   _extract_json json_loads raw = Raise no_object_error
   /\ is_malformed_output no_object_error = true)
  /\ (0 <= start < end_ ->
      _extract_json json_loads raw = json_loads json_str)
  /\ ((PyStr.count_char PyStr.lbrace raw = 0%nat
       \/ PyStr.count_char PyStr.rbrace raw = 0%nat
       \/ end_ <= start)
      \/ 0 <= start < end_)
  /\ (forall doc, json_loads json_str = Raise (JSONDecodeError doc) ->
                  0 <= start < end_ ->
                  _extract_json json_loads raw = Raise (JSONDecodeError doc)
                  /\ is_malformed_output (JSONDecodeError doc) = true)
  /\ (forall e, _extract_json json_loads raw = Raise e ->
                is_malformed_output e = false ->
                0 <= start < end_ /\ json_loads json_str = Raise e).
Proof.
  intros start end_ json_str.
  pose proof (extract_json_cases json_loads raw) as Hc. cbv zeta in Hc.
  fold start end_ in Hc. fold json_str in Hc.
  assert (Habsent :
            PyStr.count_char PyStr.lbrace raw = 0%nat
            \/ PyStr.count_char PyStr.rbrace raw = 0%nat
            \/ end_ <= start ->
            ~ 0 <= start < end_).
  { intros [H|[H|H]] Hr.
    - apply PyStrFacts.find_absent in H. fold start in H. lia.
    - apply PyStrFacts.rfind_absent in H. fold end_ in H. lia.
    - lia. }
  split; [| split; [| split; [| split]]].
  - intros H. split; [| reflexivity].
    destruct Hc as [[_ Hc]|[Hr _]]; [exact Hc | now destruct (Habsent H)].
  - intros Hr. destruct Hc as [[Hc _]|[_ Hc]]; [lia | exact Hc].
  - destruct Hc as [[[H|[H|H]] _]|[Hr _]]; [| | left; auto | right; exact Hr].
    + left. left. now apply PyStrFacts.find_none_count.
    + left. right. left. now apply PyStrFacts.rfind_none_count.
  - intros doc Hdoc Hr. split; [| reflexivity].
    destruct Hc as [[Hc _]|[_ Hc]]; [lia | now rewrite Hc].
  - intros e He Hm. destruct Hc as [[_ Hc]|[Hr Hc]]; rewrite Hc in He.
    + inversion He; subst e. discriminate.
    + split; [exact Hr | exact He].
Qed.

Lemma extract_json_failures_witness :
  _extract_json Sample.loads "The email looks fine to me."
  = Raise no_object_error
  /\ _extract_json Sample.loads "x {not json} y"
     = Raise (JSONDecodeError "{not json}").
Proof.
  split.
  - destruct (proj1 (extract_json_failures
                       Sample.loads "The email looks fine to me.")
                (or_introl eq_refl)) as [H _].
    exact H.
  - destruct (proj1 (proj2 (proj2 (proj2
                (extract_json_failures Sample.loads "x {not json} y"))))
                "{not json}" eq_refl) as [H _].
    + vm_compute. split; [discriminate | reflexivity].
    + exact H.
Defined.

(** The claim fails: the backend's answer holds an object whose one field
    opens a hundred thousand lists and closes none.  The braces delimit a
    piece, the piece is no JSON document, and the error of the extraction
    is the parser's [RecursionError], which is no [ValueError]: no Malformed
    Output error. *)
Lemma deep_nesting_raises_recursion_error :
  0 <= PyStr.find PyStr.lbrace Cases.nested_answer
    < PyStr.rfind PyStr.rbrace Cases.nested_answer
  /\ Z.of_nat (PyStr.count_char "["%char Cases.nested_answer) = 100000
  /\ PyStr.count_char "]"%char Cases.nested_answer = 0%nat
  /\ _extract_json Sample.loads Cases.nested_answer = Raise RecursionError
  /\ is_malformed_output RecursionError = false.
Proof.
  split; [vm_compute; split; [discriminate | reflexivity] |].
  repeat split; vm_compute; reflexivity.
Qed.

Example extract_json_no_brace :
  _extract_json Sample.loads "no braces here" = Raise no_object_error
  /\ _extract_json Sample.loads "} then {" = Raise no_object_error
  /\ _extract_json Sample.loads "x {not json} y"
     = Raise (JSONDecodeError "{not json}").
Proof. repeat split; vm_compute; reflexivity. Qed.



(** ** An empty URL list *)

(** C9 (as the code has it).  Given an empty or absent URL list, the URL
    analyzer itself still sends the backend a request, whose input is the
    marker "(no URLs provided)"; but [analyze_email] does not call the URL
    analyzer then: the only request it sends is the text analyzer's, and
    the merge runs with no URL result. *)
Theorem empty_url_list_requests
    (backend : list request -> request -> outcome string)
    (json_loads : string -> outcome json)
    (set_order : list val -> list val) (py_str : list obj -> val -> string)
    (TEXT_AGENT_SYSTEM_PROMPT URL_AGENT_SYSTEM_PROMPT : string)
    (model ollama_url subject body : string)
    (urls : option (list string)) (w : world) :
  urls = None \/ urls = Some [] ->
  let self :=
    new_analyzer TEXT_AGENT_SYSTEM_PROMPT URL_AGENT_SYSTEM_PROMPT
                 model ollama_url in
  calls (snd (analyze backend json_loads (url_agent self) urls w))
    = (calls w
       ++ [{| req_url := ollama_url ++ "/api/chat";
              req_model := model;
              req_system := URL_AGENT_SYSTEM_PROMPT;
              req_user := "URLs to analyze:" ++ PyStr.newline
                          ++ "(no URLs provided)";
              req_stream := false |}])%list
  /\ calls (snd (analyze_email backend json_loads set_order py_str self
                               subject body urls w))
     = (calls w ++ [request_of (text_agent self) (subject, body)])%list
  /\ forall r w',
       analyze_email backend json_loads set_order py_str self
                     subject body urls w = (Ok r, w') ->
       field (heap w') r "url_agent_result" = Some VNone
       /\ exists agents_used,
            field (heap w') r "agents_used" = Some agents_used
            /\ field (heap w') agents_used "url" = Some (VBool false).
Proof.
  intros Hurls self.
  assert (Hrun : analyze_email backend json_loads set_order py_str self
                   subject body urls w
                 = (text_result <-
                      analyze backend json_loads (text_agent self)
                              (subject, body) ;;
                    on_heap (_merge_results set_order py_str text_result VNone))
                     w).
  { unfold analyze_email. apply bind_ext. intros t s'.
    destruct Hurls as [-> | ->]; cbv iota;
      unfold bind at 1; unfold ret at 1; now rewrite bind_ret_r. }
  split; [| split].
  - rewrite analyze_calls. destruct Hurls as [-> | ->]; reflexivity.
  - rewrite Hrun. unfold bind.
    pose proof (analyze_calls backend json_loads (text_agent self)
                  (subject, body) w) as Hc.
    destruct (analyze backend json_loads (text_agent self) (subject, body) w)
      as [[t|e] w1]; cbn [snd] in Hc.
    + now rewrite on_heap_calls.
    + exact Hc.
  - intros r w' H. rewrite Hrun in H. inv_bind H as t w1 Ht.
    apply on_heap_ok_inv in H as [H _].
    destruct (merge_fields _ _ _ _ _ _ _ H)
      as (cs & cc & ua & conf & au & Hsc & _ & _ & _ & Hfa & _ & Hfu & _ & Hur).
    apply score_results_no_url in Hsc as ->.
    split; [exact Hur | eauto].
Qed.

Lemma empty_url_list_requests_witness :
  calls (snd (analyze Sample.backend_ok Sample.loads
                (url_agent Sample.analyzer) (Some []) Sample.start))
    = [{| req_url := "http://localhost:11434/api/chat";
          req_model := "llama3";
          req_system := Sample.url_prompt;
          req_user := "URLs to analyze:" ++ PyStr.newline
                      ++ "(no URLs provided)";
          req_stream := false |}]
  /\ calls (snd (analyze_email Sample.backend_ok Sample.loads
                   Sample.order_first Sample.no_str Sample.analyzer
                   "Hi" "Hello" (Some []) Sample.start))
     = [request_of (text_agent Sample.analyzer) ("Hi", "Hello")].
Proof.
  destruct (empty_url_list_requests
              Sample.backend_ok Sample.loads Sample.order_first Sample.no_str
              Sample.text_prompt Sample.url_prompt
              "llama3" "http://localhost:11434" "Hi" "Hello"
              (Some []) Sample.start (or_intror eq_refl))
    as (Hurl & Hemail & _).
  split; [exact Hurl | exact Hemail].
Defined.

(** The claim fails for [analyze_email]: with an empty list of URLs, and
    with none, the analysis returns a result, the backend has received one
    request only, and no request holds the marker. *)
Lemma no_urls_no_url_request :
  Sample.marker_requests
    (analyze_email Sample.backend_ok Sample.loads Sample.order_first
                   Sample.no_str Sample.analyzer "Hi" "Hello" (Some [])
                   Sample.start) = []
  /\ Sample.marker_requests
       (analyze_email Sample.backend_ok Sample.loads Sample.order_first
                      Sample.no_str Sample.analyzer "Hi" "Hello" None
                      Sample.start) = []
  /\ length (calls (snd (analyze_email Sample.backend_ok Sample.loads
                           Sample.order_first Sample.no_str Sample.analyzer
                           "Hi" "Hello" (Some []) Sample.start))) = 1%nat
  /\ Sample.doc_field "agents_used"
       (Sample.run_doc
          (analyze_email Sample.backend_ok Sample.loads Sample.order_first
                         Sample.no_str Sample.analyzer "Hi" "Hello" (Some [])
                         Sample.start))
     = Some (JObject [("text", JBool true); ("url", JBool false)]).
Proof. repeat split; vm_compute; reflexivity. Qed.

(** ** Determinism of the merge *)

(** C10 (as the code has it).  Two merges of the same results from the same
    store, under two iteration orders of the set of indicators, end alike:
    both raise the same exception and leave the same store, or both return
    the same result, and the stores they leave differ at most in the
    [phishing_indicators] list, which lists one and the same collection of
    indicators in the one order and in the other.  Nothing else enters the
    merge: no clock, no random source. *)
Theorem merge_determined_up_to_set_order
    (order1 order2 : list val -> list val)
    (py_str : list obj -> val -> string)
    (h : list obj) (t : loc) (kt : list (string * val))
    (url_result : val) (ku : option (list (string * val))) :
  h !! t = Some (ODict kt) ->
  optional is_str (assoc "overall_rationale" kt) ->
  url_dict h url_result ku ->
  match _merge_results order1 py_str (VRef t) url_result h,
        _merge_results order2 py_str (VRef t) url_result h with
  | (Ok r1, h1), (Ok r2, h2) =>
      r1 = r2
      /\ exists lp xs,
           field h1 r1 "phishing_indicators" = Some (VRef lp)
           /\ h1 !! lp = Some (OList (order1 xs))
           /\ h2 = <[lp := OList (order2 xs)]> h1
  | (Raise e1, h1), (Raise e2, h2) => e1 = e2 /\ h1 = h2
  | _, _ => False
  end.
Proof.
  intros Ht Hs Hu. rewrite !merge_split. unfold bind.
  pose proof (dict_stable_merge_prefix (VRef t) url_result h) as K.
  destruct (merge_prefix (VRef t) url_result h) as [[p|e] h1];
    cbn [snd] in K; [| split; reflexivity].
  destruct p as [[[[cs ua] conf] all_l] xs].
  rewrite !(merge_suffix_run _ py_str h1 t kt url_result ku);
    try assumption; try (now apply K);
    try (now apply (url_dict_stable h h1 url_result ku K)).
  split; [reflexivity |]. exists (length h1), xs.
  split; [| split].
  - unfold field.
    change (h1 ++ [?a; ?b; ?c])%list with (h1 ++ [a] ++ [b; c])%list.
    rewrite app_assoc.
    replace (S (S (length h1))) with (S (length (h1 ++ [OList (order1 xs)])))
      by (rewrite length_app; cbn; lia).
    now rewrite lookup_snoc_1.
  - now apply list_lookup_middle.
  - rewrite insert_app_r_alt by lia.
    now rewrite Nat.sub_diag.
Qed.

Lemma merge_determined_up_to_set_order_witness :
  match _merge_results Sample.order_first Sample.no_str
                       (VRef 2%nat) (VRef 6%nat) Sample.two_results,
        _merge_results Sample.order_reversed Sample.no_str
                       (VRef 2%nat) (VRef 6%nat) Sample.two_results with
  | (Ok r1, h1), (Ok r2, h2) =>
      r1 = r2
      /\ exists lp xs,
           field h1 r1 "phishing_indicators" = Some (VRef lp)
           /\ h1 !! lp = Some (OList (Sample.order_first xs))
           /\ h2 = <[lp := OList (Sample.order_reversed xs)]> h1
  | (Raise e1, h1), (Raise e2, h2) => e1 = e2 /\ h1 = h2
  | _, _ => False
  end.
Proof.
  apply (merge_determined_up_to_set_order
           Sample.order_first Sample.order_reversed Sample.no_str
           Sample.two_results 2%nat Sample.text_fields
           (VRef 6%nat) (Some Sample.url_fields)).
  - reflexivity.
  - exists "Urgent request for a password.". reflexivity.
  - exists 6%nat. split; [reflexivity |]. split; [reflexivity |].
    exists "The link is not encrypted.". reflexivity.
Defined.

(** The claim fails: the same two results, merged under two iteration
    orders of one and the same set of two indicators, give two different
    [phishing_indicators] lists. *)
Lemma set_order_changes_merged_doc :
  Sample.doc_field "phishing_indicators"
    (merged_doc Sample.order_first Sample.no_str
                Sample.text_ref Sample.url_ref Sample.two_results)
  = Some (JList [JStr "urgent_threat_or_deadline"; JStr "http_not_https"])
  /\ Sample.doc_field "phishing_indicators"
       (merged_doc Sample.order_reversed Sample.no_str
                   Sample.text_ref Sample.url_ref Sample.two_results)
     = Some (JList [JStr "http_not_https"; JStr "urgent_threat_or_deadline"]).
Proof. split; vm_compute; reflexivity. Qed.

(** * Further properties

    Properties of the code the claims leave aside: what else the extractor,
    the analyzers and the merge do, and the functions of
    [src/agents/url_agent.py], [src/agents/text_agent.py] and
    [src/agents/normalize_phishing_datasets.py]. *)

(** ** Where the first and the last occurrence of a character cut a text *)

Module PyStrSplit.
Import PyStr PyStrFacts.
Lemma app_assoc_str (a b c : string) : (a ++ b) ++ c = a ++ (b ++ c).
Proof.
  induction a as [|x a IH]; [reflexivity |].
  rewrite !app_String. now rewrite IH.
Qed.

Lemma find_split c s :
  0 <= find c s ->
  exists pre rest,
    s = pre ++ String c rest /\ count_char c pre = 0%nat /\ find c s = len pre.
Proof.
  induction s as [|a s IH]; cbn [find]; [lia |].
  destruct (Ascii.eqb_spec a c) as [->|Hac].
  - intros _. exists "", s. repeat split.
  - destruct (Z.eqb_spec (find c s) (-1)) as [E|E]; [lia |]. intros _.
    destruct IH as (pre & rest & -> & Hpre & Hf).
    { destruct (find_range c s); lia. }
    exists (String a pre), rest. rewrite app_String, len_String.
    repeat split; [| lia]. cbn [count_char].
    destruct (Ascii.eqb_spec a c); [contradiction | exact Hpre].
Qed.

Lemma rfind_split c s :
  0 <= rfind c s ->
  exists pre rest,
    s = pre ++ String c rest /\ count_char c rest = 0%nat
    /\ rfind c s = len pre.
Proof.
  induction s as [|a s IH]; cbn [rfind]; [lia |].
  destruct (Z.eqb_spec (rfind c s) (-1)) as [E|E].
  - destruct (Ascii.eqb_spec a c) as [->|Hac]; [| lia]. intros _.
    exists "", s. repeat split. now apply rfind_none_count.
  - intros _. destruct IH as (pre & rest & -> & Hrest & Hf).
    { destruct (rfind_range c s); lia. }
    exists (String a pre), rest. rewrite app_String, len_String.
    repeat split; [exact Hrest | lia].
Qed.

(** A text whose first [{] comes before its last [}]: a prefix without
    [{], the span between the two braces, and a suffix without [}]. *)
Lemma brace_span raw :
  0 <= find lbrace raw < rfind rbrace raw ->
  exists pre mid suf,
    raw = pre ++ String lbrace (mid ++ String rbrace "") ++ suf
    /\ count_char lbrace pre = 0%nat
    /\ count_char rbrace suf = 0%nat.
Proof.
  intros [H0 Hlt].
  destruct (find_split lbrace raw H0) as (pre & rest & -> & Hpre & Hf).
  destruct (Z.eq_dec (rfind rbrace (String lbrace rest)) (-1)) as [E|E].
  { apply rfind_none_count in E.
    rewrite (rfind_app_absent _ _ _ E) in Hlt.
    destruct (rfind_range rbrace pre); lia. }
  rewrite (rfind_app_present _ _ _ E) in Hlt.
  cbn [rfind] in E, Hlt.
  destruct (Z.eqb_spec (rfind rbrace rest) (-1)) as [E1|E1].
  { change (Ascii.eqb lbrace rbrace) with false in E. lia. }
  destruct (rfind_split rbrace rest) as (mid & suf & -> & Hsuf & _).
  { destruct (rfind_range rbrace rest); lia. }
  exists pre, mid, suf. split; [| auto].
  rewrite !app_String. f_equal. f_equal. rewrite app_assoc_str. reflexivity.
Qed.

End PyStrSplit.

(** ** The span the extractor parses *)

Section ExtractorSpan.
Import PyStr PyStrFacts PyStrSplit.

Variable json_loads : string -> outcome json.
(** X1.  Whenever the extractor does not report that no JSON object was
    found, the text it hands to the parser is the span from the first [{]
    of the output to its last [}]: the output is a prefix without [{], that
    span, and a suffix without [}]; the result is what the parser makes of
    the span, its document or its exception. *)
Theorem extract_json_parses_outermost_span (raw : string) :
  _extract_json json_loads raw <> Raise no_object_error ->
  exists pre mid suf,
    let json_str := String lbrace (mid ++ String rbrace "") in
    raw = pre ++ json_str ++ suf
    /\ count_char lbrace pre = 0%nat
    /\ count_char rbrace suf = 0%nat
    /\ _extract_json json_loads raw = json_loads json_str.
Proof.
  intros Hne.
  destruct (extract_json_cases json_loads raw) as [[_ Hc]|[Hpos Hc]];
    cbv zeta in Hc; [contradiction |].
  destruct (brace_span raw Hpos) as (pre & mid & suf & Hraw & Hpre & Hsuf).
  exists pre, mid, suf. cbv zeta. repeat split; try assumption.
  rewrite Hc. subst raw.
  destruct (embedded_positions pre mid suf Hpre Hsuf) as [Hf Hr].
  cbv zeta in Hf, Hr. rewrite Hf, Hr.
  replace (len pre + len (String lbrace (mid ++ String rbrace "")) - 1 + 1)
    with (len pre + len (String lbrace (mid ++ String rbrace ""))) by lia.
  rewrite slice_middle. reflexivity.
Qed.

End ExtractorSpan.

Lemma extract_json_parses_outermost_span_witness :
  exists pre mid suf,
    "Here is the analysis: {text} Done."
    = pre ++ String PyStr.lbrace (mid ++ String PyStr.rbrace "") ++ suf
    /\ PyStr.count_char PyStr.lbrace pre = 0%nat
    /\ PyStr.count_char PyStr.rbrace suf = 0%nat
    /\ _extract_json Sample.loads "Here is the analysis: {text} Done."
       = Sample.loads (String PyStr.lbrace (mid ++ String PyStr.rbrace "")).
Proof.
  apply (extract_json_parses_outermost_span
           Sample.loads "Here is the analysis: {text} Done.").
  vm_compute. discriminate.
Defined.

(** ** The requests of a unified analysis *)

Section RequestFacts.

Variable backend : list request -> request -> outcome string.
Variable json_loads : string -> outcome json.
Variable set_order : list val -> list val.
Variable py_str : list obj -> val -> string.
(** X2.  A unified analysis of an e-mail with URLs sends the text analyzer's
    request first and, only when the text analysis has returned, the URL
    analyzer's request after it; nothing else is sent: no request is
    repeated after a failure, and the merge sends none. *)
Theorem analyze_email_sends_text_then_url
    (self : UnifiedEmailAnalyzer) (subject body : string)
    (urls : list string) (w : world) :
  urls <> [] ->
  let text_request := request_of (text_agent self) (subject, body) in
  let url_request := request_of (url_agent self) (Some urls) in
  calls (snd (analyze_email backend json_loads set_order py_str self
                            subject body (Some urls) w))
  = match fst (analyze backend json_loads (text_agent self)
                       (subject, body) w) with
    | Ok _ => (calls w ++ [text_request; url_request])%list
    | Raise _ => (calls w ++ [text_request])%list
    end.
Proof.
  intros Hne. cbv zeta. unfold analyze_email.
  destruct urls as [|u us]; [contradiction |]. cbv iota.
  pose proof (analyze_calls backend json_loads (text_agent self)
                (subject, body) w) as Ht.
  unfold bind at 1.
  destruct (analyze backend json_loads (text_agent self) (subject, body) w)
    as [[t|e] w1]; cbn [fst snd] in Ht |- *; [| exact Ht].
  pose proof (analyze_calls backend json_loads (url_agent self)
                (Some (u :: us)) w1) as Hu.
  unfold bind at 1.
  destruct (analyze backend json_loads (url_agent self) (Some (u :: us)) w1)
    as [[r|e] w2]; cbn [snd] in Hu |- *.
  - rewrite bind_ret_r, on_heap_calls, Hu, Ht, <- app_assoc. reflexivity.
  - rewrite Hu, Ht, <- app_assoc. reflexivity.
Qed.

End RequestFacts.
Lemma analyze_email_sends_text_then_url_witness :
  calls (snd (analyze_email Sample.backend_url_down Sample.loads
                Sample.order_first Sample.no_str Sample.analyzer "Hi" "Hello"
                (Some ["http://verify-account-security.com/login"])
                Sample.start))
  = [request_of (text_agent Sample.analyzer) ("Hi", "Hello");
     request_of (url_agent Sample.analyzer)
                (Some ["http://verify-account-security.com/login"])].
Proof.
  exact (analyze_email_sends_text_then_url
           Sample.backend_url_down Sample.loads Sample.order_first
           Sample.no_str Sample.analyzer "Hi" "Hello"
           ["http://verify-account-security.com/login"] Sample.start
           ltac:(discriminate)).
Defined.

(** ** Letter case, blanks and [in] *)

Module PyTextFacts.
Import PyStr PyStrFacts PyStrSplit PyText.
Lemma lower_app (a b : string) : lower (a ++ b) = lower a ++ lower b.
Proof.
  induction a as [|c a IH]; [reflexivity |].
  rewrite app_String. cbn [lower]. now rewrite IH, app_String.
Qed.

Lemma prefix_app (p s t : string) :
  String.prefix p s = true -> String.prefix p (s ++ t) = true.
Proof.
  revert s. induction p as [|a p IH]; intros s.
  { intros _. now destruct (s ++ t). }
  destruct s as [|b s]; cbn [String.prefix]; [discriminate |].
  rewrite app_String. cbn [String.prefix].
  destruct (ascii_dec a b); [apply IH | discriminate].
Qed.

Lemma prefix_refl (p s : string) : String.prefix p (p ++ s) = true.
Proof.
  induction p as [|a p IH]; [now destruct s |].
  rewrite app_String. cbn [String.prefix].
  destruct (ascii_dec a a); [exact IH | contradiction].
Qed.

Lemma contains_here (p s : string) : contains p (p ++ s) = true.
Proof.
  destruct p as [|a p].
  - destruct s; reflexivity.
  - rewrite app_String. cbn [contains].
    change (String a (p ++ s)) with (String a p ++ s).
    now rewrite prefix_refl.
Qed.

Lemma contains_unfold (p s : string) :
  contains p s
  = String.prefix p s
    || match s with EmptyString => false | String _ s' => contains p s' end.
Proof. destruct s; reflexivity. Qed.

Lemma contains_app_r (p s t : string) :
  contains p s = true -> contains p (s ++ t) = true.
Proof.
  induction s as [|a s IH]; rewrite contains_unfold; intros H.
  - rewrite orb_false_r in H. destruct p; [| discriminate].
    rewrite app_empty. destruct t; reflexivity.
  - apply orb_true_iff in H as [H|H]; rewrite app_String, contains_unfold.
    + change (String a (s ++ t)) with (String a s ++ t).
      now rewrite (prefix_app _ _ _ H).
    + rewrite (IH H). apply orb_true_r.
Qed.

Lemma contains_app_l (p s t : string) :
  contains p t = true -> contains p (s ++ t) = true.
Proof.
  intros H. induction s as [|a s IH]; [exact H |].
  rewrite app_String, contains_unfold, IH. apply orb_true_r.
Qed.

Lemma contains_self (p : string) : contains p p = true.
Proof.
  destruct p as [|a p]; [reflexivity |]. cbn [contains].
  replace (String.prefix (String a p) (String a p)) with true; [reflexivity |].
  symmetry. apply prefix_correct. clear.
  generalize (String a p). intros s.
  induction s as [|c s IH]; [reflexivity |].
  cbn [String.length substring]. now rewrite IH.
Qed.

Lemma is_space_lower_char c : is_space (lower_char c) = is_space c.
Proof. destruct c as [[] [] [] [] [] [] [] []]; reflexivity. Qed.

Lemma lstrip_lower s :
  lstrip_by is_space (lower s) = lower (lstrip_by is_space s).
Proof.
  induction s as [|c s IH]; [reflexivity |].
  cbn [lower lstrip_by]. rewrite is_space_lower_char.
  destruct (is_space c); [exact IH | reflexivity].
Qed.

Lemma rstrip_lower s :
  rstrip_by is_space (lower s) = lower (rstrip_by is_space s).
Proof.
  induction s as [|c s IH]; [reflexivity |].
  cbn [lower rstrip_by]. rewrite IH, is_space_lower_char.
  destruct (rstrip_by is_space s); cbn [lower]; [| reflexivity].
  now destruct (is_space c).
Qed.

Lemma strip_lower s : strip (lower s) = lower (strip s).
Proof. unfold strip. now rewrite rstrip_lower, lstrip_lower. Qed.

Lemma lstrip_pad p pad s :
  all p pad = true -> lstrip_by p (pad ++ s) = lstrip_by p s.
Proof.
  induction pad as [|c pad IH]; [reflexivity |].
  cbn [all]. intros H. apply andb_true_iff in H as [Hc Hp].
  rewrite app_String. cbn [lstrip_by]. rewrite Hc. now apply IH.
Qed.

Lemma rstrip_all p pad : all p pad = true -> rstrip_by p pad = "".
Proof.
  induction pad as [|c pad IH]; [reflexivity |].
  cbn [all]. intros H. apply andb_true_iff in H as [Hc Hp].
  cbn [rstrip_by]. now rewrite (IH Hp), Hc.
Qed.

Lemma rstrip_app p a b :
  rstrip_by p (a ++ b)
  = match rstrip_by p b with
    | EmptyString => rstrip_by p a
    | r => a ++ r
    end.
Proof.
  induction a as [|c a IH].
  - rewrite app_empty. now destruct (rstrip_by p b).
  - rewrite app_String. cbn [rstrip_by]. rewrite IH.
    destruct (rstrip_by p b) as [|x r]; [reflexivity |].
    destruct (a ++ String x r) eqn:E; [| now rewrite app_String, E].
    destruct a; discriminate.
Qed.

Lemma strip_pad pad1 pad2 s :
  all is_space pad1 = true -> all is_space pad2 = true ->
  strip (pad1 ++ s ++ pad2) = strip s.
Proof.
  intros H1 H2. unfold strip.
  rewrite (rstrip_app _ pad1), (rstrip_app _ s), (rstrip_all _ _ H2).
  destruct (rstrip_by is_space s) as [|x r].
  - now rewrite (rstrip_all _ _ H1).
  - now apply lstrip_pad.
Qed.

Lemma all_app p (a b : string) : all p (a ++ b) = all p a && all p b.
Proof.
  induction a as [|c a IH]; [reflexivity |].
  rewrite app_String. cbn [all]. now rewrite IH, andb_assoc.
Qed.

Lemma rstrip_by_prefix p s : exists t, s = rstrip_by p s ++ t.
Proof.
  induction s as [|c s [t IH]]; [now exists "" |].
  cbn [rstrip_by]. destruct (rstrip_by p s) as [|x r].
  - destruct (p c); [now exists (String c s) |].
    exists s. reflexivity.
  - exists t. rewrite app_String. now rewrite <- IH.
Qed.

Lemma rstrip_by_idem p s : rstrip_by p (rstrip_by p s) = rstrip_by p s.
Proof.
  induction s as [|c s IH]; [reflexivity |].
  cbn [rstrip_by]. destruct (rstrip_by p s) as [|x r] eqn:E.
  - destruct (p c) eqn:Ec; [reflexivity |]. cbn [rstrip_by]. now rewrite Ec.
  - cbn [rstrip_by] in IH |- *. now rewrite IH.
Qed.

Lemma rstrip_by_lower p s :
  (forall c, p (lower_char c) = p c) ->
  rstrip_by p (lower s) = lower (rstrip_by p s).
Proof.
  intros Hp. induction s as [|c s IH]; [reflexivity |].
  cbn [lower rstrip_by]. rewrite IH, Hp.
  destruct (rstrip_by p s); cbn [lower]; [| reflexivity].
  now destruct (p c).
Qed.

Lemma length_lower s : String.length (lower s) = String.length s.
Proof.
  induction s as [|c s IH]; [reflexivity |].
  cbn [lower String.length]. now rewrite IH.
Qed.

Lemma lower_empty s : lower s = "" -> s = "".
Proof. now destruct s. Qed.

Lemma app_inv_head_str (p a b : string) : p ++ a = p ++ b -> a = b.
Proof.
  induction p as [|c p IH]; [auto |].
  rewrite !app_String. intros H. inversion H. auto.
Qed.

(** Two texts cut at their first newline are cut alike. *)
Lemma first_line_inj (a b u v : string) :
  count_char (ascii_of_nat 10) a = 0%nat ->
  count_char (ascii_of_nat 10) b = 0%nat ->
  a ++ newline ++ u = b ++ newline ++ v ->
  a = b /\ u = v.
Proof.
  unfold newline.
  revert b. induction a as [|c a IH]; intros b Ha Hb H;
    destruct b as [|d b];
    rewrite ?app_empty, ?app_String, ?app_empty in H;
    inversion H; subst.
  - auto.
  - cbn [count_char] in Hb. rewrite Ascii.eqb_refl in Hb. discriminate.
  - cbn [count_char] in Ha. rewrite Ascii.eqb_refl in Ha. discriminate.
  - cbn [count_char] in Ha, Hb.
    destruct (Ascii.eqb d (ascii_of_nat 10)); [discriminate |].
    destruct (IH b Ha Hb) as [-> ->]; [| auto].
    now rewrite ?app_empty, ?app_String, ?app_empty.
Qed.

Lemma split_no_sep sep (s : string) :
  count_char sep s = 0%nat -> split sep s = [s].
Proof.
  induction s as [|c s IH]; [reflexivity |].
  cbn [count_char split]. destruct (Ascii.eqb c sep); [discriminate |].
  intros H. now rewrite (IH H).
Qed.

Lemma split_app sep (a b : string) :
  count_char sep a = 0%nat ->
  split sep (a ++ String sep b) = a :: split sep b.
Proof.
  induction a as [|c a IH]; rewrite ?app_String, ?app_empty.
  - intros _. cbn [split]. now rewrite Ascii.eqb_refl.
  - cbn [count_char split]. destruct (Ascii.eqb c sep); [discriminate |].
    intros H. now rewrite (IH H).
Qed.

Lemma split_join sep (parts : list string) :
  parts <> [] ->
  Forall (fun p => count_char sep p = 0%nat) parts ->
  split sep (join (String sep "") parts) = parts.
Proof.
  induction parts as [|p rest IH]; [contradiction |]. intros _ Hall.
  inversion Hall as [|? ? Hp Hrest]; subst.
  destruct rest as [|q rest]; [now apply split_no_sep |].
  change (join (String sep "") (p :: q :: rest))
    with (p ++ String sep "" ++ join (String sep "") (q :: rest)).
  rewrite app_String, app_empty, (split_app _ _ _ Hp), IH; auto.
Qed.

End PyTextFacts.

(** ** The inputs the analyzers prepare *)

Section Inputs.
Import PyStr PyStrFacts PyText PyTextFacts.

Variable TEXT_AGENT_SYSTEM_PROMPT URL_AGENT_SYSTEM_PROMPT : string.
(** X3.  The input the text analyzer prepares determines the e-mail, as long
    as the subjects hold no newline: two e-mails with the same prepared
    input have the same subject and the same body. *)
Theorem text_input_determines_the_email
    (model ollama_url subject body subject' body' : string) :
  count_char (ascii_of_nat 10) subject = 0%nat ->
  count_char (ascii_of_nat 10) subject' = 0%nat ->
  prepare_input (TextAgent TEXT_AGENT_SYSTEM_PROMPT model ollama_url)
                (subject, body)
  = prepare_input (TextAgent TEXT_AGENT_SYSTEM_PROMPT model ollama_url)
                  (subject', body') ->
  subject = subject' /\ body = body'.
Proof.
  intros Hs Hs'. cbn [prepare_input TextAgent]. intros H.
  apply app_inv_head_str in H.
  apply (first_line_inj _ _ _ _ Hs Hs') in H as [-> H].
  split; [reflexivity |]. do 3 apply app_inv_head_str in H. exact H.
Qed.

(** X4.  For a list of URLs that is not empty and whose URLs hold no newline,
    the input the URL analyzer prepares is the heading followed by the URLs,
    one per line and in their order: its lines are the heading and the
    URLs. *)
Theorem url_input_lists_one_url_per_line
    (model ollama_url : string) (urls : list string) :
  urls <> [] ->
  Forall (fun u => count_char (ascii_of_nat 10) u = 0%nat) urls ->
  split (ascii_of_nat 10)
        (prepare_input (URLAgent URL_AGENT_SYSTEM_PROMPT model ollama_url)
                       (Some urls))
  = "URLs to analyze:" :: urls.
Proof.
  intros Hne Hall. cbn [prepare_input URLAgent].
  destruct urls as [|u us]; [contradiction |].
  cbv zeta iota.
  change ("URLs to analyze:" ++ newline ++ join newline (u :: us))
    with ("URLs to analyze:"
          ++ String (ascii_of_nat 10) (join newline (u :: us))).
  rewrite (split_app _ "URLs to analyze:"); [| reflexivity].
  f_equal. now apply split_join.
Qed.

End Inputs.

Lemma text_input_determines_the_email_witness :
  "Invoice" = "Invoice" /\ "Please pay." = "Please pay.".
Proof.
  apply (text_input_determines_the_email
           Sample.text_prompt "llama3" "http://localhost:11434"
           "Invoice" "Please pay." "Invoice" "Please pay.");
    reflexivity.
Defined.

Lemma url_input_lists_one_url_per_line_witness :
  PyText.split (ascii_of_nat 10)
    (prepare_input (url_agent Sample.analyzer)
                   (Some ["http://a.example/x"; "https://b.example"]))
  = ["URLs to analyze:"; "http://a.example/x"; "https://b.example"].
Proof.
  apply (url_input_lists_one_url_per_line
           Sample.url_prompt "llama3" "http://localhost:11434"
           ["http://a.example/x"; "https://b.example"]).
  - discriminate.
  - repeat constructor.
Defined.

(** ** What the merge writes *)

Section MergeWrites.

Variable set_order : list val -> list val.
Variable py_str : list obj -> val -> string.
Lemma merge_frame text_result url_result h r h' :
  _merge_results set_order py_str text_result url_result h = (r, h') ->
  (length h <= length h')%nat
  /\ forall l, (l < length h)%nat ->
       field h text_result "phishing_indicators" <> Some (VRef l) ->
       h' !! l = h !! l.
Proof.
  unfold _merge_results.
  destruct (score_results text_result url_result h) as [[[[cs cc] ua]|e] h1]
    eqn:Hs;
    pose proof (readonly_run _ _ _ _ (readonly_score_results _ _) Hs) as ->.
  2:{ rewrite (bind_raise _ _ _ _ _ Hs). intros H. inversion H; subst. auto. }
  rewrite (bind_ok _ _ _ _ _ Hs).
  destruct (compile_indicators text_result url_result h) as [[[pi li]|e] h2]
    eqn:Hc; destruct (compile_indicators_frame _ _ _ _ _ Hc) as [Hlen Hsame].
  2:{ rewrite (bind_raise _ _ _ _ _ Hc). intros H. inversion H; subst. auto. }
  rewrite (bind_ok _ _ _ _ _ Hc). intros H.
  destruct (touches_merge_tail (length h) (fun _ => False) set_order py_str
              text_result url_result cs cc ua pi li h2 Hlen) as [Hlen' Hsame'].
  cbv zeta in Hlen', Hsame'. rewrite H in Hlen', Hsame'.
  cbn [snd] in Hlen', Hsame'. split; [lia |].
  intros l Hl Hna. rewrite Hsame', Hsame; auto.
Qed.

(** X5.  Whatever the two results are, and whether the merge returns or
    raises, it removes no object and changes no object that was there
    before it, except the list the text result holds under
    [phishing_indicators]: the URL result and all its parts, and every
    other part of the text result, are as they were. *)
Theorem merge_changes_the_text_indicators_only
    (text_result url_result : val) (h : list obj) :
  let h' := snd (_merge_results set_order py_str text_result url_result h) in
  (length h <= length h')%nat
  /\ forall l o,
       h !! l = Some o ->
       field h text_result "phishing_indicators" <> Some (VRef l) ->
       h' !! l = Some o.
Proof.
  cbv zeta.
  destruct (_merge_results set_order py_str text_result url_result h)
    as [r h'] eqn:E. cbn [snd].
  destruct (merge_frame _ _ _ _ _ E) as [Hlen Hsame]. split; [exact Hlen |].
  intros l o Hl Hna. rewrite Hsame; auto. now apply lookup_lt_Some in Hl.
Qed.

(** X6.  With no URL result the merge changes no object at all: every
    object of the store is the same after it, the text result's
    [phishing_indicators] included, whether the merge returns or raises. *)
Theorem merge_without_url_result_changes_no_object
    (text_result : val) (h : list obj) :
  let h' := snd (_merge_results set_order py_str text_result VNone h) in
  forall l o, h !! l = Some o -> h' !! l = Some o.
Proof.
  cbv zeta. intros l o Hl. pose proof (lookup_lt_Some _ _ _ Hl) as Hlt.
  assert (Ht : touches (length h) (fun _ => False)
                 (_merge_results set_order py_str text_result VNone)).
  { unfold _merge_results.
    apply touches_bind; [apply touches_readonly, readonly_score_results |].
    intros [[cs cc] ua].
    apply touches_bind; [apply touches_compile_no_url |]. intros [pi li].
    apply touches_merge_tail. }
  destruct (Ht h (le_n _)) as [_ Hsame]. rewrite Hsame; auto.
Qed.

End MergeWrites.

Lemma merge_without_url_result_changes_no_object_witness :
  snd (_merge_results Sample.order_first Sample.no_str Sample.text_ref VNone
                      Sample.two_results) !! 0%nat
  = Some (OList [VStr "urgent_threat_or_deadline"]).
Proof.
  apply (merge_without_url_result_changes_no_object
           Sample.order_first Sample.no_str Sample.text_ref
           Sample.two_results 0%nat).
  reflexivity.
Defined.

(** ** The indicators of a merged result *)
(** Lines 73-80 return the two values found in the text result, or the new
    lists made for them. *)
Lemma compile_indicators_ok_inv text_result url_result h p li h' :
  compile_indicators text_result url_result h = (Ok (p, li), h') ->
  exists t kt,
    text_result = VRef t /\ h !! t = Some (ODict kt)
    /\ p = default (VRef (length h)) (assoc "phishing_indicators" kt)
    /\ li = default (VRef (S (length h))) (assoc "legitimacy_indicators" kt).
Proof.
  unfold compile_indicators. intros H.
  destruct (dict_get_fresh_cases text_result "phishing_indicators" h)
    as [Hr | (t & kt & -> & Ht & Hr)].
  { rewrite (bind_raise _ _ _ _ _ Hr) in H. discriminate. }
  rewrite (bind_ok _ _ _ _ _ Hr) in H.
  assert (Ht1 : (h ++ [OList []])%list !! t = Some (ODict kt))
    by now apply lookup_app_l_Some.
  rewrite (bind_ok _ _ _ _ _ (dict_get_fresh_run _ _ _ _ Ht1)) in H.
  inv_bind H as x h1 H1. inv_bind H as y h2 H2. inversion H; subst.
  exists t, kt. repeat split; try assumption.
  rewrite length_app. cbn. f_equal. f_equal. lia.
Qed.

Lemma lookup_snoc_2 {A} (l : list A) (x y z : A) :
  (l ++ [x; y; z])%list !! S (S (length l)) = Some z.
Proof.
  change (l ++ [x; y; z])%list with (l ++ [x; y] ++ [z])%list.
  rewrite app_assoc. apply list_lookup_middle.
  rewrite length_app. cbn. lia.
Qed.

Section MergeParts.

Variable set_order : list val -> list val.
Variable py_str : list obj -> val -> string.
(** A successful merge, step by step. *)
Lemma merge_ok_parts text_result url_result h r h' :
  _merge_results set_order py_str text_result url_result h = (Ok r, h') ->
  exists p li h1 xs others,
    compile_indicators text_result url_result h = (Ok (p, li), h1)
    /\ iterate p h1 = (Ok xs, h1)
    /\ h' = (h1 ++ [OList (set_order xs);
                    ODict [("text", VBool true); ("url", VBool others.1.1.1)];
                    ODict [("task", VStr "email_phishing_detection");
                           ("verdict", VStr others.1.1.2);
                           ("confidence", others.1.2);
                           ("phishing_indicators", VRef (length h1));
                           ("legitimacy_indicators", li);
                           ("agents_used", VRef (S (length h1)));
                           ("text_agent_result", text_result);
                           ("url_agent_result", url_result);
                           ("overall_rationale", VStr others.2.1);
                           ("safety_notes", others.2.2)]])%list
    /\ r = VRef (S (S (length h1))).
Proof.
  unfold _merge_results. intros H.
  inv_bind H as sc h0 Hsc. destruct sc as [[cs cc] ua].
  pose proof (readonly_run _ _ _ _ (readonly_score_results _ _) Hsc) as ->.
  inv_bind H as ind h1 Hind. destruct ind as [p li].
  inv_bind H as conf h1' Hconf. apply lift_ok_inv in Hconf as [Hconf ->].
  inv_bind H as pi h2 Hpi.
  unfold list_of_set in Hpi. inv_bind Hpi as xs h1' Hxs.
  pose proof (readonly_run _ _ _ _ (readonly_iterate _) Hxs) as ->.
  destruct (forallb hashable xs); [| discriminate].
  rewrite alloc_run in Hpi. inversion Hpi; subst pi h2; clear Hpi.
  inv_bind H as au h3 Hau. rewrite alloc_run in Hau.
  inversion Hau; subst au h3; clear Hau.
  inv_bind H as rat h3 Hrat.
  pose proof (readonly_run _ _ _ _ (readonly_build_rationale _ _ _ _) Hrat) as ->.
  inv_bind H as saf h3 Hsaf.
  pose proof (readonly_run _ _ _ _
                (readonly_dict_get _ _ _ (readonly_ret _)) Hsaf) as ->.
  rewrite alloc_run in H. inversion H; subst r h'; clear H.
  exists p, li, h1, xs, (ua, final_verdict cs, conf, (rat, saf)).
  cbn [fst snd]. split; [exact Hind |]. split; [exact Hxs |]. split.
  - rewrite <- !app_assoc, !length_app. cbn [app length].
    rewrite !Nat.add_1_r. reflexivity.
  - rewrite !length_app. cbn [length]. rewrite !Nat.add_1_r. reflexivity.
Qed.

(** X8.  The [legitimacy_indicators] of a merged result are the text
    result's own: the very value found in the text result, for a list the
    same list object, and with the items it had (unless it is also the
    text result's [phishing_indicators]); the URL result adds nothing to
    them. *)
Theorem merged_legitimacy_indicators_are_the_text_result_s
    (text_result url_result : val) (h : list obj) (v r : val) (h' : list obj) :
  field h text_result "legitimacy_indicators" = Some v ->
  _merge_results set_order py_str text_result url_result h = (Ok r, h') ->
  field h' r "legitimacy_indicators" = Some v
  /\ forall l o,
       v = VRef l -> h !! l = Some o ->
       field h text_result "phishing_indicators" <> Some (VRef l) ->
       h' !! l = Some o.
Proof.
  intros Hv H. split.
  - destruct (merge_ok_parts _ _ _ _ _ H)
      as (p & li & h1 & xs & others & Hc & _ & -> & ->).
    destruct (compile_indicators_ok_inv _ _ _ _ _ _ Hc)
      as (t & kt & -> & Ht & _ & Hli).
    unfold field in Hv. rewrite Ht in Hv. rewrite Hv in Hli.
    cbn [default from_option id] in Hli. subst li.
    unfold field. now rewrite lookup_snoc_2.
  - intros l o -> Hl Hna.
    destruct (merge_frame _ _ _ _ _ _ _ H) as [_ Hsame].
    rewrite Hsame; auto. now apply lookup_lt_Some in Hl.
Qed.

End MergeParts.
Lemma field_app h ext d k v :
  field h d k = Some v -> field (h ++ ext)%list d k = Some v.
Proof.
  unfold field. destruct d; try discriminate.
  destruct (h !! l) as [[xs|kvs]|] eqn:E; try discriminate.
  now rewrite (lookup_app_l_Some _ _ _ _ E).
Qed.

Lemma url_detail_app h ext d :
  url_detail_ok h d ->
  indicators_of (h ++ ext)%list d = indicators_of h d
  /\ field (h ++ ext)%list d "indicators" = field h d "indicators".
Proof.
  intros (l & kd & -> & Hl & Ho). unfold indicators_of, field.
  rewrite (lookup_app_l_Some _ _ _ _ Hl), Hl.
  destruct (assoc "indicators" kd) as [v|]; [| auto].
  destruct Ho as (li & ys & -> & Hli & _).
  now rewrite (lookup_app_l_Some _ _ _ _ Hli), Hli.
Qed.

(** Line 78 on well-formed entries: the lists found, or new empty ones. *)
Lemma url_indicators_items ds : forall h,
  Forall (url_detail_ok h) ds ->
  exists vs ext,
    mapM (fun d => dict_get d "indicators" (alloc (OList []))) ds h
      = (Ok vs, (h ++ ext)%list)
    /\ Forall2 (fun d v =>
                  exists li,
                    v = VRef li
                    /\ (h ++ ext)%list !! li = Some (OList (indicators_of h d))
                    /\ (field h d "indicators" = Some (VRef li)
                        \/ (length h <= li)%nat))
               ds vs.
Proof.
  induction ds as [|d ds IH]; intros h Hds.
  - exists [], []. rewrite app_nil_r. split; [reflexivity | constructor].
  - inversion Hds as [|? ? Hd Hrest]; subst.
    pose proof Hd as (l & kd & -> & Hl & Ho).
    destruct (IH (h ++ [OList []])%list) as (vs & ext & Hrun & Hvs).
    { eapply Forall_impl; [exact Hrest |]. intros a.
      apply url_detail_ok_keeps, keeps_alloc. }
    exists (default (VRef (length h)) (assoc "indicators" kd) :: vs),
           ([OList []] ++ ext)%list.
    rewrite app_assoc. split.
    + cbn [mapM]. rewrite (bind_ok _ _ _ _ _ (dict_get_fresh_run _ _ _ _ Hl)).
      now rewrite (bind_ok _ _ _ _ _ Hrun).
    + constructor.
      * unfold indicators_of, field. rewrite Hl.
        destruct (assoc "indicators" kd) as [v|]; cbn [default from_option id].
        -- destruct Ho as (li & ys & -> & Hli & _). exists li.
           rewrite Hli. split; [reflexivity |]. split; [| now left].
           rewrite <- app_assoc. now apply lookup_app_l_Some.
        -- exists (length h). split; [reflexivity |]. split; [| now right].
           rewrite <- app_assoc.
           exact (list_lookup_middle h ext (OList []) (length h) eq_refl).
      * clear Hd Hl Ho. revert Hvs Hrest. generalize vs. clear.
        induction ds as [|d' ds IH]; intros vs Hvs Hrest;
          inversion Hvs as [|? v ? vs' Hv Hvs']; subst; constructor.
        -- inversion Hrest as [|? ? Hd' _]; subst.
           destruct (url_detail_app h [OList []] d' Hd') as [Ei Ef].
           destruct Hv as (li & -> & Hli & Hor). exists li.
           rewrite <- Ei. split; [reflexivity |]. split; [exact Hli |].
           rewrite <- Ef. destruct Hor as [? | Hlen]; [now left | right].
           rewrite length_app in Hlen. lia.
        -- inversion Hrest; subst. now apply IH.
Qed.

(** Lines 79-80 on lists other than the one extended. *)
Lemma extend_all_items vs : forall yss h lp xs,
  h !! lp = Some (OList xs) ->
  Forall2 (fun v ys =>
             exists li, v = VRef li /\ h !! li = Some (OList ys) /\ li <> lp)
          vs yss ->
  forM_ (fun indicators_list => list_extend (VRef lp) indicators_list) vs h
  = (Ok tt, <[lp := OList (xs ++ concat yss)%list]> h).
Proof.
  induction vs as [|v vs IH]; intros yss h lp xs Hlp Hall;
    inversion Hall as [|? ys ? yss' (li & -> & Hli & Hne) Hrest]; subst.
  - cbn [forM_ concat]. rewrite app_nil_r.
    replace (<[lp := OList xs]> h) with h; [reflexivity |].
    symmetry. apply list_insert_id. exact Hlp.
  - cbn [forM_ concat].
    assert (Hstep : list_extend (VRef lp) (VRef li) h
                    = (Ok tt, <[lp := OList (xs ++ ys)%list]> h)).
    { cbn [list_extend].
      rewrite (bind_ok _ _ _ _ _ (load_run _ _ _ Hlp)).
      now rewrite (bind_ok _ _ _ _ _ (iterate_list_run _ _ _ Hli)). }
    rewrite (bind_ok _ _ _ _ _ Hstep).
    rewrite (IH yss' _ lp (xs ++ ys)%list).
    + now rewrite list_insert_insert_eq, <- app_assoc.
    + apply list_lookup_insert_eq. now apply lookup_lt_Some in Hlp.
    + eapply Forall2_impl; [exact Hrest |].
      intros v' ys' (li' & -> & Hli' & Hne'). exists li'.
      split; [reflexivity |]. split; [| exact Hne'].
      rewrite list_lookup_insert_ne; auto.
Qed.

Section Union.

Variable set_order : list val -> list val.
Variable py_str : list obj -> val -> string.
(** X7.  When the text result has a list of phishing indicators and the URL
    result has [url_details] whose entries are dicts with lists of tags (or
    no [indicators]) that are not the text result's list itself, a merge
    that returns has appended the indicators of all the URLs, in the order
    of the URLs, to the text result's list, and the merged
    [phishing_indicators] is a new list: those items, duplicates removed,
    in the order of the set. *)
Theorem merge_unites_the_indicators
    (h : list obj) (t u lp ld : loc) (kt ku : list (string * val))
    (xs ds : list val) (r : val) (h' : list obj) :
  h !! t = Some (ODict kt) ->
  assoc "phishing_indicators" kt = Some (VRef lp) ->
  h !! lp = Some (OList xs) ->
  h !! u = Some (ODict ku) ->
  ku <> [] ->
  assoc "url_details" ku = Some (VRef ld) ->
  h !! ld = Some (OList ds) ->
  Forall (url_detail_ok h) ds ->
  Forall (fun d => field h d "indicators" <> Some (VRef lp)) ds ->
  _merge_results set_order py_str (VRef t) (VRef u) h = (Ok r, h') ->
  let all := (xs ++ concat (map (indicators_of h) ds))%list in
  h' !! lp = Some (OList all)
  /\ exists l,
       field h' r "phishing_indicators" = Some (VRef l)
       /\ h' !! l = Some (OList (set_order all)).
Proof.
  intros Ht Hp Hlp Hu Hne Hd Hld Hds Hna H all.
  destruct (merge_ok_parts _ _ _ _ _ _ _ H)
    as (p & li & h1 & ys & others & Hc & Hit & -> & ->).
  assert (Hrun : exists ext,
             compile_indicators (VRef t) (VRef u) h
             = (Ok (VRef lp,
                    default (VRef (S (length h)))
                            (assoc "legitimacy_indicators" kt)),
                <[lp := OList all]> (h ++ ext)%list)).
  { unfold compile_indicators.
    rewrite (bind_ok _ _ _ _ _ (dict_get_fresh_run _ _ _ _ Ht)), Hp.
    cbn [default from_option id].
    set (h1' := (h ++ [OList []])%list).
    assert (Ht1 : h1' !! t = Some (ODict kt)) by now apply lookup_app_l_Some.
    rewrite (bind_ok _ _ _ _ _ (dict_get_fresh_run _ _ _ _ Ht1)).
    set (h2 := (h1' ++ [OList []])%list).
    assert (Hu2 : h2 !! u = Some (ODict ku))
      by now repeat apply lookup_app_l_Some.
    rewrite (bind_ok _ _ _ _ _ (truthy_dict _ _ _ Hu2 Hne)). cbv iota.
    rewrite bind_assoc.
    rewrite (bind_ok _ _ _ _ _ (dict_get_fresh_run _ _ _ _ Hu2)), Hd.
    cbn [default from_option id].
    set (h3 := (h2 ++ [OList []])%list).
    assert (E3 : h3 = (h ++ [OList []; OList []; OList []])%list).
    { subst h3 h2 h1'. now rewrite <- !app_assoc. }
    assert (Hld3 : h3 !! ld = Some (OList ds))
      by (rewrite E3; now apply lookup_app_l_Some).
    rewrite bind_assoc, (bind_ok _ _ _ _ _ (iterate_list_run _ _ _ Hld3)).
    destruct (url_indicators_items ds h3) as (vs & ext & Hmap & Hvs).
    { eapply Forall_impl; [exact Hds |]. intros a Ha. rewrite E3.
      destruct Ha as (l & kd & -> & Hl & Ho). exists l, kd.
      split; [reflexivity |]. split; [now apply lookup_app_l_Some |].
      destruct (assoc "indicators" kd); [| exact I].
      destruct Ho as (l' & zs & -> & Hl' & Hz). exists l', zs.
      split; [reflexivity |]. split; [now apply lookup_app_l_Some | exact Hz]. }
    rewrite bind_assoc, (bind_ok _ _ _ _ _ Hmap).
    assert (Hlp4 : (h3 ++ ext)%list !! lp = Some (OList xs)).
    { rewrite E3. now repeat apply lookup_app_l_Some. }
    assert (Hext : Forall2
                     (fun v ys =>
                        exists li,
                          v = VRef li
                          /\ (h3 ++ ext)%list !! li = Some (OList ys)
                          /\ li <> lp)
                     vs (map (indicators_of h) ds)).
    { clear Hmap Hlp4. revert Hvs Hds Hna. generalize vs. clear -E3 Hlp.
      induction ds as [|d ds IH]; intros vs Hvs Hds Hna;
        inversion Hvs as [|? v ? vs' (li & -> & Hli & Hor) Hvs']; subst;
        cbn [map]; constructor.
      + inversion Hds as [|? ? Hd' _]; inversion Hna as [|? ? Hn' _]; subst.
        destruct (url_detail_app h [OList []; OList []; OList []] d Hd')
          as [Ei Ef].
        exists li. split; [reflexivity |]. rewrite <- Ei, <- E3.
        split; [exact Hli |]. intros ->. destruct Hor as [Hf | Hlen].
        * rewrite E3, Ef in Hf. contradiction.
        * apply lookup_lt_Some in Hlp. rewrite E3, length_app in Hlen.
          cbn in Hlen. lia.
      + inversion Hds; inversion Hna; subst. now apply IH. }
    rewrite (bind_ok _ _ _ _ _
               (extend_all_items vs _ _ lp xs Hlp4 Hext)).
    exists ([OList []; OList []; OList []] ++ ext)%list.
    rewrite app_assoc, <- E3. unfold ret. repeat f_equal.
    subst h1'. rewrite length_app. cbn. lia. }
  destruct Hrun as (ext & Hrun). rewrite Hrun in Hc.
  inversion Hc; subst p li h1; clear Hc.
  assert (Hlp1 : <[lp := OList all]> (h ++ ext)%list !! lp = Some (OList all)).
  { apply list_lookup_insert_eq. rewrite length_app.
    apply lookup_lt_Some in Hlp. lia. }
  rewrite (iterate_list_run _ _ _ Hlp1) in Hit. inversion Hit; subst ys.
  split; [now apply lookup_app_l_Some |].
  exists (length (<[lp := OList all]> (h ++ ext)%list)).
  split.
  - unfold field. now rewrite lookup_snoc_2.
  - exact (list_lookup_middle _ _ _ _ eq_refl).
Qed.

End Union.

Lemma merged_legitimacy_indicators_are_the_text_result_s_witness :
  let h' := snd (_merge_results Sample.order_first Sample.no_str
                   Sample.text_ref Sample.url_ref Sample.two_results) in
  field h' (VRef 13%nat) "legitimacy_indicators" = Some (VRef 1%nat)
  /\ h' !! 1%nat = Some (OList []).
Proof.
  cbv zeta.
  destruct (merged_legitimacy_indicators_are_the_text_result_s
              Sample.order_first Sample.no_str Sample.text_ref Sample.url_ref
              Sample.two_results (VRef 1%nat) (VRef 13%nat)
              (snd (_merge_results Sample.order_first Sample.no_str
                      Sample.text_ref Sample.url_ref Sample.two_results)))
    as [Hfield Hsame].
  - reflexivity.
  - vm_compute. reflexivity.
  - split; [exact Hfield |].
    apply (Hsame 1%nat (OList []) eq_refl eq_refl). discriminate.
Defined.

Lemma merge_unites_the_indicators_witness :
  let h' := snd (_merge_results Sample.order_first Sample.no_str
                   Sample.text_ref Sample.url_ref Sample.two_results) in
  let all := [VStr "urgent_threat_or_deadline"; VStr "http_not_https"] in
  h' !! 0%nat = Some (OList all)
  /\ exists l,
       field h' (VRef 13%nat) "phishing_indicators" = Some (VRef l)
       /\ h' !! l = Some (OList (Sample.order_first all)).
Proof.
  cbv zeta.
  apply (merge_unites_the_indicators
           Sample.order_first Sample.no_str Sample.two_results
           2%nat 6%nat 0%nat 5%nat Sample.text_fields Sample.url_fields
           [VStr "urgent_threat_or_deadline"] [VRef 4%nat] (VRef 13%nat)).
  - reflexivity.
  - reflexivity.
  - reflexivity.
  - reflexivity.
  - discriminate.
  - reflexivity.
  - reflexivity.
  - constructor; [| constructor].
    exists 4%nat,
      [("url", VStr "http://verify-account-security.com/login");
       ("indicators", VRef 3%nat)].
    split; [reflexivity |]. split; [reflexivity |].
    exists 3%nat, [VStr "http_not_https"]. repeat split.
  - constructor; [| constructor]. discriminate.
  - vm_compute. reflexivity.
Defined.

(** ** What the merge does with odd results *)
Lemma verdict_score_hashable h l kvs :
  h !! l = Some (ODict kvs) ->
  (forall l', assoc "verdict" kvs <> Some (VRef l')) ->
  exists x, verdict_score (VRef l) h = (Ok x, h).
Proof.
  intros Hl Hv. unfold verdict_score.
  rewrite (bind_ok _ _ _ _ _ (dict_get_run _ _ _ _ _ Hl)).
  destruct (assoc "verdict" kvs) as [[ | b | z | f | s | l']|];
    cbn [default from_option id verdict_scores_get]; unfold ret; eauto.
  now destruct (Hv l').
Qed.

Lemma truthy_empty_dict h u :
  h !! u = Some (ODict []) -> truthy (VRef u) h = (Ok false, h).
Proof.
  intros Hu. cbn [truthy]. now rewrite (bind_ok _ _ _ _ _ (load_run _ _ _ Hu)).
Qed.

Lemma score_results_empty_dict text_result h u :
  h !! u = Some (ODict []) ->
  score_results text_result (VRef u) h = score_results text_result VNone h.
Proof.
  intros Hu. unfold score_results.
  destruct (verdict_score text_result h) as [[ts|e] h1] eqn:Hts;
    pose proof (readonly_run _ _ _ _ (readonly_verdict_score _) Hts) as ->.
  2:{ now rewrite !(bind_raise _ _ _ _ _ Hts). }
  rewrite !(bind_ok _ _ _ _ _ Hts).
  destruct (dict_get text_result "confidence" (ret (VFloat 0.5)) h)
    as [[tc|e] h1] eqn:Htc;
    pose proof (readonly_run _ _ _ _
                  (readonly_dict_get _ _ _ (readonly_ret _)) Htc) as ->.
  2:{ now rewrite !(bind_raise _ _ _ _ _ Htc). }
  rewrite !(bind_ok _ _ _ _ _ Htc).
  rewrite (bind_ok _ _ _ _ _ (truthy_empty_dict _ _ Hu)).
  now rewrite (bind_ok (truthy VNone) _ h false h eq_refl).
Qed.

Lemma zero_times_finite (c : float) :
  is_finite c = true -> exists s, Prim2SF (0 * c) = S754_zero s.
Proof.
  unfold is_finite, is_nan, is_infinity.
  rewrite !FloatAxioms.eqb_spec, FloatAxioms.abs_spec, FloatAxioms.mul_spec.
  change (Prim2SF 0) with (S754_zero false).
  change (Prim2SF infinity) with (S754_infinity false).
  destruct (Prim2SF c) as [s|s| |s m e]; cbn; intros H;
    try discriminate; eauto.
  rewrite orb_true_r in H. discriminate.
Qed.

Lemma final_verdict_of_zero (x : float) (s : bool) :
  Prim2SF x = S754_zero s -> final_verdict x = "legitimate".
Proof.
  intros Hx. apply final_verdict_legitimate. rewrite FloatAxioms.leb_spec, Hx.
  change (Prim2SF 0.3) with (S754_finite false 5404319552844595 (-54)).
  now destruct s.
Qed.

Section OddResults.

Variable set_order : list val -> list val.
Variable py_str : list obj -> val -> string.
(** X9.  A text result whose [confidence] is no number (a word, [None], a
    list, or an integer too large for a float) makes the merge raise the
    error of the multiplication, a [TypeError] or an [OverflowError],
    before anything is written: the store is as it was.  This holds with no
    URL result and with one that is a dict that is not empty (the verdicts
    being hashable). *)
Theorem merge_rejects_a_confidence_that_is_no_number
    (h : list obj) (t : loc) (kt : list (string * val)) (url_result : val)
    (c : val) (e : exn) :
  h !! t = Some (ODict kt) ->
  (forall l, assoc "verdict" kt <> Some (VRef l)) ->
  assoc "confidence" kt = Some c ->
  PyNum.to_float c = Raise e ->
  (url_result = VNone
   \/ exists u ku,
        url_result = VRef u /\ h !! u = Some (ODict ku) /\ ku <> []
        /\ forall l, assoc "verdict" ku <> Some (VRef l)) ->
  _merge_results set_order py_str (VRef t) url_result h = (Raise e, h).
Proof.
  intros Ht Hv Hc He Hu.
  assert (Hs : score_results (VRef t) url_result h = (Raise e, h)).
  { unfold score_results.
    destruct (verdict_score_hashable _ _ _ Ht Hv) as (ts & Hts).
    rewrite (bind_ok _ _ _ _ _ Hts).
    rewrite (bind_ok _ _ _ _ _ (dict_get_run _ _ _ _ _ Ht)), Hc.
    cbn [default from_option id].
    assert (Hmul : forall f, PyNum.mul_l f c h = (Raise e, h)).
    { intros f. unfold PyNum.mul_l. now rewrite He. }
    destruct Hu as [-> | (u & ku & -> & Hu & Hne & Hvu)].
    - rewrite (bind_ok (truthy VNone) _ h false h eq_refl).
      now rewrite (bind_raise _ _ _ _ _ (Hmul _)).
    - rewrite (bind_ok _ _ _ _ _ (truthy_dict _ _ _ Hu Hne)).
      destruct (verdict_score_hashable _ _ _ Hu Hvu) as (us & Hus).
      rewrite (bind_ok _ _ _ _ _ Hus).
      rewrite (bind_ok _ _ _ _ _ (dict_get_run _ _ _ _ _ Hu)).
      now rewrite (bind_raise _ _ _ _ _ (Hmul _)). }
  unfold _merge_results. now rewrite (bind_raise _ _ _ _ _ Hs).
Qed.

(** X10.  A URL result that is an empty dict counts as no URL result: the
    scoring is that of the text result alone, and a merged result reports
    the verdict and the confidence of the text result alone and
    [agents_used.url] false, while it embeds the empty dict as
    [url_agent_result]. *)
Theorem empty_url_result_counts_as_none
    (text_result : val) (u : loc) (h : list obj) :
  h !! u = Some (ODict []) ->
  score_results text_result (VRef u) h = score_results text_result VNone h
  /\ forall r h',
       _merge_results set_order py_str text_result (VRef u) h = (Ok r, h') ->
       exists cs cc conf agents_used,
         score_results text_result VNone h = (Ok (cs, cc, false), h)
         /\ PyNum.round_ndigits2 cc = Ok conf
         /\ field h' r "verdict" = Some (VStr (final_verdict cs))
         /\ field h' r "confidence" = Some conf
         /\ field h' r "agents_used" = Some agents_used
         /\ field h' agents_used "url" = Some (VBool false)
         /\ field h' r "url_agent_result" = Some (VRef u).
Proof.
  intros Hu. pose proof (score_results_empty_dict text_result h u Hu) as Heq.
  split; [exact Heq |]. intros r h' H.
  destruct (merge_fields _ _ _ _ _ _ _ H)
    as (cs & cc & ua & conf & au & Hsc & Hconf & Hfv & Hfc & Hfa & _ & Hfu
        & _ & Hur).
  rewrite Heq in Hsc.
  pose proof (score_results_no_url _ _ _ _ _ _ Hsc) as ->.
  exists cs, cc, conf, au. auto 10.
Qed.

(** X11.  With no URL result, a text verdict [legitimate] gives the final
    verdict [legitimate] at every finite confidence, however low: the
    score is zero times the confidence. *)
Theorem legitimate_text_verdict_holds_at_any_confidence
    (h : list obj) (t : loc) (kt : list (string * val)) (c : float) :
  h !! t = Some (ODict kt) ->
  assoc "verdict" kt = Some (VStr "legitimate") ->
  PyNum.to_float (default (VFloat 0.5) (assoc "confidence" kt)) = Ok c ->
  is_finite c = true ->
  forall r h',
    _merge_results set_order py_str (VRef t) VNone h = (Ok r, h') ->
    field h' r "verdict" = Some (VStr "legitimate").
Proof.
  intros Ht Hv Hc Hfin r h' H.
  destruct (merge_fields _ _ _ _ _ _ _ H)
    as (cs & cc & ua & conf & au & Hsc & _ & Hfv & _).
  rewrite (score_results_text_only h t kt legitimate c Ht Hv Hc) in Hsc.
  inversion Hsc; subst cs cc ua. rewrite Hfv.
  destruct (zero_times_finite c Hfin) as (s & Hz).
  cbn [verdict_value]. now rewrite (final_verdict_of_zero _ _ Hz).
Qed.

End OddResults.

Lemma merge_rejects_a_confidence_that_is_no_number_witness :
  _merge_results Sample.order_first Sample.no_str (VRef 0%nat) VNone
                 Cases.worded_confidence
  = (Raise TypeError, Cases.worded_confidence).
Proof.
  apply (merge_rejects_a_confidence_that_is_no_number
           Sample.order_first Sample.no_str Cases.worded_confidence 0%nat
           [("verdict", VStr "phishing"); ("confidence", VStr "high")]
           VNone (VStr "high") TypeError).
  - reflexivity.
  - discriminate.
  - reflexivity.
  - reflexivity.
  - now left.
Defined.

Lemma empty_url_result_counts_as_none_witness :
  score_results (VRef 0%nat) (VRef 1%nat) Cases.low_confidence
  = score_results (VRef 0%nat) VNone Cases.low_confidence.
Proof.
  apply (empty_url_result_counts_as_none
           Sample.order_first Sample.no_str (VRef 0%nat) 1%nat
           Cases.low_confidence).
  reflexivity.
Defined.

Lemma legitimate_text_verdict_holds_at_any_confidence_witness :
  field (snd (_merge_results Sample.order_first Sample.no_str (VRef 0%nat)
                             VNone Cases.low_confidence))
        (VRef 6%nat) "verdict"
  = Some (VStr "legitimate").
Proof.
  apply (legitimate_text_verdict_holds_at_any_confidence
           Sample.order_first Sample.no_str Cases.low_confidence 0%nat
           [("verdict", VStr "legitimate"); ("confidence", VFloat 0.05)]
           0.05%float).
  - reflexivity.
  - reflexivity.
  - reflexivity.
  - reflexivity.
  - vm_compute. reflexivity.
Defined.

(** ** The first URL check *)

Section UrlCheckFacts.
Import PyStr PyStrFacts PyTextFacts UrlCheck.
(** X12.  [is_suspicious_url] flags a URL as soon as any piece of it is
    flagged, in whatever letter case: a pattern anywhere in the URL is
    enough, so an [https] URL that carries an [http://] address in a
    parameter is suspicious. *)
Theorem suspicious_part_makes_url_suspicious (pre part suf : string) :
  is_suspicious_url part = true ->
  is_suspicious_url (pre ++ part ++ suf) = true.
Proof.
  unfold is_suspicious_url. cbv zeta. rewrite !existsb_exists.
  intros (pattern & Hin & Hc). exists pattern. split; [exact Hin |].
  rewrite !lower_app. apply contains_app_l. now apply contains_app_r.
Qed.

Lemma suspicious_part_makes_url_suspicious_witness :
  is_suspicious_url "HTTP://" = true
  /\ is_suspicious_url
       ("https://example.com/login?next=" ++ "HTTP://" ++ "example.org/")
     = true.
Proof.
  split; [reflexivity |].
  apply (suspicious_part_makes_url_suspicious
           "https://example.com/login?next=" "HTTP://" "example.org/").
  reflexivity.
Defined.

End UrlCheckFacts.

(** ** Label normalization *)

Module NormalizeFacts.
Import PyStr PyStrFacts PyStrSplit PyTextFacts PyText Normalize.
Lemma label_map_values k l :
  lookup_str k LABEL_MAP = Some l -> l = "phishing" \/ l = "legitimate".
Proof.
  unfold LABEL_MAP. cbn [lookup_str].
  repeat match goal with
         | |- context [String.eqb ?a k] => destruct (String.eqb a k)
         end;
    intros H; inversion H; auto.
Qed.

Lemma normalize_label_known raw_label source_hint :
  known_label (normalize_label raw_label source_hint).
Proof.
  unfold normalize_label, known_label.
  destruct raw_label as [raw|].
  - cbv zeta.
    destruct (lookup_str _ LABEL_MAP) as [l|] eqn:E.
    + apply label_map_values in E as [-> | ->]; auto.
    + destruct (any_in _ _); [auto |]. destruct (any_in _ _); auto.
  - destruct source_hint as [hint|]; [| auto].
    destruct (_ && _); auto.
Qed.

(** *** Looking for a column *)

Lemma dict_set_keys k v d :
  map fst (dict_set k v d)
  = if existsb (fun kv => String.eqb (fst kv) k) d then map fst d
    else (map fst d ++ [k])%list.
Proof.
  induction d as [|[k' v'] d IH]; [reflexivity |].
  cbn [dict_set existsb fst].
  destruct (String.eqb_spec k' k) as [->|Hne]; cbn [orb map fst].
  - reflexivity.
  - rewrite IH. now destruct (existsb _ d).
Qed.

Lemma in_keys {A B} (k : A) (v : B) d : In (k, v) d -> In k (map fst d).
Proof. intros H. apply in_map_iff. now exists (k, v). Qed.

Lemma existsb_key k (d : list (string * string)) :
  existsb (fun kv => String.eqb (fst kv) k) d = true <-> In k (map fst d).
Proof.
  rewrite existsb_exists, in_map_iff. split.
  - intros ([k' v'] & Hin & He). apply String.eqb_eq in He. now exists (k', v').
  - intros ([k' v'] & He & Hin). exists (k', v'). split; [exact Hin |].
    now apply String.eqb_eq.
Qed.

Lemma in_dict_set k v d k' v' :
  NoDup (map fst d) ->
  In (k', v') (dict_set k v d) ->
  (k' = k /\ v' = v) \/ (k' <> k /\ In (k', v') d).
Proof.
  induction d as [|[k0 v0] d IH]; cbn [dict_set map fst]; intros Hnd.
  - intros [H|[]]. inversion H. now left.
  - apply NoDup_cons in Hnd as [Hk0 Hnd].
    rewrite list_elem_of_In in Hk0.
    destruct (String.eqb_spec k0 k) as [->|Hne].
    + intros [H|H]; [inversion H; now left |].
      right. split; [| now right].
      intros ->. apply Hk0. now apply (in_keys _ v').
    + intros [H|H].
      * inversion H; subst. right. split; [exact Hne | now left].
      * destruct (IH Hnd H) as [?|[? ?]]; [now left | right; split; auto].
        now right.
Qed.

Lemma columns_dict_step cols d c :
  columns_dict cols d ->
  columns_dict (cols ++ [c])%list (dict_set (lower c) c d).
Proof.
  intros (Hnd & Hent & Hcov). split; [| split].
  - rewrite dict_set_keys.
    destruct (existsb _ d) eqn:E; [exact Hnd |].
    apply NoDup_app. split; [exact Hnd |]. split; [| apply NoDup_singleton].
    + intros k Hk Hk'. apply list_elem_of_singleton in Hk' as ->.
      apply list_elem_of_In, existsb_key in Hk. congruence.
  - intros k v Hin. apply (in_dict_set _ _ _ _ _ Hnd) in Hin.
    destruct Hin as [[-> ->] | [Hne Hin]].
    + split; [reflexivity |]. exists cols, []. split; [reflexivity |].
      constructor.
    + destruct (Hent k v Hin) as (Hk & pre & post & -> & Hpost).
      split; [exact Hk |]. exists pre, (post ++ [c])%list.
      split; [now rewrite <- app_assoc |].
      apply Forall_app. split; [exact Hpost |].
      constructor; [| constructor]. congruence.
  - intros c' Hin. rewrite dict_set_keys.
    apply in_app_iff in Hin as [Hin | [<- | []]].
    + destruct (existsb _ d); [now apply Hcov |].
      apply in_app_iff. left. now apply Hcov.
    + destruct (existsb _ d) eqn:E; [now apply existsb_key |].
      apply in_app_iff. right. now left.
Qed.

Lemma columns_dict_lower_to_orig cols : columns_dict cols (lower_to_orig cols).
Proof.
  unfold lower_to_orig. induction cols as [|c cols IH] using rev_ind.
  - split; [apply NoDup_nil_2 |]. split; [intros ? ? [] | intros ? []].
  - rewrite fold_left_app. cbn [fold_left]. now apply columns_dict_step.
Qed.

Lemma first_column_some test d v :
  first_column test d = Some v -> exists k, In (k, v) d /\ test k = true.
Proof.
  induction d as [|[k0 v0] d IH]; cbn [first_column]; [discriminate |].
  destruct (test k0) eqn:E.
  - intros H. inversion H; subst. exists k0. split; [now left | exact E].
  - intros H. destruct (IH H) as (k & Hin & Ht). exists k.
    split; [now right | exact Ht].
Qed.

Lemma first_column_none test d :
  first_column test d = None <-> forall k v, In (k, v) d -> test k = false.
Proof.
  induction d as [|[k0 v0] d IH]; cbn [first_column].
  - split; [intros _ ? ? [] | reflexivity].
  - destruct (test k0) eqn:E.
    + split; [discriminate |]. intros H.
      specialize (H k0 v0 (or_introl eq_refl)). congruence.
    + rewrite IH. split.
      * intros H k v [Hin|Hin]; [inversion Hin; now subst | eauto].
      * intros H k v Hin. apply (H k v). now right.
Qed.

Lemma first_match_some test cands d v :
  first_match test cands d = Some v ->
  exists cand k,
    In cand cands /\ In (k, v) d /\ test (lower cand) k = true.
Proof.
  induction cands as [|cand cands IH]; cbn [first_match]; [discriminate |].
  destruct (first_column _ d) as [col|] eqn:E.
  - intros H. inversion H; subst.
    destruct (first_column_some _ _ _ E) as (k & Hin & Ht).
    exists cand, k. split; [now left | auto].
  - intros H. destruct (IH H) as (c & k & Hc & Hin & Ht).
    exists c, k. split; [now right | auto].
Qed.

Lemma first_match_none test cands d :
  first_match test cands d = None
  <-> forall cand k v,
        In cand cands -> In (k, v) d -> test (lower cand) k = false.
Proof.
  induction cands as [|cand cands IH]; cbn [first_match].
  - split; [intros _ ? ? ? [] | reflexivity].
  - destruct (first_column _ d) as [col|] eqn:E.
    + split; [discriminate |]. intros H.
      destruct (first_column_some _ _ _ E) as (k & Hin & Ht).
      rewrite (H cand k col (or_introl eq_refl) Hin) in Ht. discriminate.
    + rewrite IH. split.
      * intros H c k v [<-|Hc] Hin; [| eauto].
        exact (proj1 (first_column_none _ _) E k v Hin).
      * intros H c k v Hc Hin. apply (H c k v); [now right | exact Hin].
Qed.

Lemma first_match_split test cands d v :
  first_match test cands d = Some v ->
  exists pre cand post k,
    cands = (pre ++ cand :: post)%list
    /\ In (k, v) d /\ test (lower cand) k = true
    /\ forall c k' v',
         In c pre -> In (k', v') d -> test (lower c) k' = false.
Proof.
  induction cands as [|cand cands IH]; cbn [first_match]; [discriminate |].
  destruct (first_column _ d) as [col|] eqn:E.
  - intros H. inversion H; subst.
    destruct (first_column_some _ _ _ E) as (k & Hin & Ht).
    exists [], cand, cands, k. repeat split; try assumption.
    intros c k' v' [].
  - intros H. destruct (IH H) as (pre & c & post & k & -> & Hin & Ht & Hpre).
    exists (cand :: pre), c, post, k. repeat split; try assumption.
    intros c' k' v' [<- | Hc'] Hin'; [| eauto].
    exact (proj1 (first_column_none _ _) E k' v' Hin').
Qed.

(** *** Finding the URLs of a text *)

Lemma url_char_lower_char c :
  url_char (lower_char c) = true -> url_char c = true.
Proof. destruct c as [[] [] [] [] [] [] [] []]; vm_compute; auto. Qed.

Lemma url_chars_lower s : all url_char (lower s) = true -> all url_char s = true.
Proof.
  induction s as [|c s IH]; [reflexivity |]. cbn [lower all].
  intros H. apply andb_true_iff in H as [Hc Hs].
  now rewrite (url_char_lower_char _ Hc), IH.
Qed.

Lemma punctuation_lower_char c :
  mem (lower_char c) ".,;:" = mem c ".,;:".
Proof. destruct c as [[] [] [] [] [] [] [] []]; reflexivity. Qed.

Lemma literal_split lit : forall s r,
  literal lit s = Some r ->
  exists x, s = x ++ r /\ lower x = lower lit.
Proof.
  induction lit as [|a lit IH]; intros s r; cbn [literal].
  - intros H. inversion H. now exists "".
  - destruct s as [|b s]; [discriminate |].
    destruct (Ascii.eqb_spec (lower_char a) (lower_char b)) as [E|E];
      [| discriminate].
    intros H. destruct (IH _ _ H) as (x & -> & Hx).
    exists (String b x). split; [reflexivity |].
    cbn [lower]. now rewrite Hx, E.
Qed.

Lemma run_split s :
  exists x r,
    s = x ++ r /\ String.length x = run s /\ all url_char x = true.
Proof.
  induction s as [|c s (x & r & Hs & Hl & Hx)].
  - now exists "", "".
  - cbn [run]. destruct (url_char c) eqn:E.
    + exists (String c x), r. rewrite app_String, <- Hs. cbn [String.length all].
      now rewrite Hl, E, Hx.
    + now exists "", (String c s).
Qed.

(** A match of the characters of the class: a piece that is not empty. *)
Lemma run1_split s n :
  run1 s = Some n ->
  exists x r,
    s = x ++ r /\ String.length x = n /\ x <> "" /\ all url_char x = true.
Proof.
  unfold run1. destruct (run_split s) as (x & r & Hs & Hl & Hx).
  destruct (run s) as [|k] eqn:E; [discriminate |].
  intros H. inversion H; subst n. exists x, r.
  repeat split; try assumption. intros ->. discriminate.
Qed.

Lemma literal_run1 lit lit' s r k n :
  lower lit' = lit' ->
  (exists l, s = l ++ r /\ lower l = lit) ->
  literal lit' r = Some k ->
  option_map (fun m => (String.length (lit ++ lit') + m)%nat) (run1 k) = Some n ->
  url_match (lit ++ lit') s n.
Proof.
  intros Hlow (l & -> & Hl) Hk Hn.
  destruct (literal_split _ _ _ Hk) as (l' & -> & Hl').
  destruct (run1 k) as [m|] eqn:E; [| discriminate].
  inversion Hn; subst n.
  destruct (run1_split _ _ E) as (x & r' & -> & Hlen & Hne & Hx).
  exists (l ++ l'), x, r'. split; [| split; [| split; [| auto]]].
  - now rewrite !app_assoc_str.
  - assert (Hll : String.length (l ++ l') = String.length (lit ++ lit')).
    { rewrite <- Hl, <- Hlow, <- Hl', <- lower_app. symmetry.
      apply length_lower. }
    rewrite (length_app (l ++ l')), Hll, Hlen. reflexivity.
  - now rewrite lower_app, Hl, Hl', Hlow.
Qed.

Lemma match_www_split s n : match_www s = Some n -> url_match "www." s n.
Proof.
  unfold match_www. destruct (literal "www." s) as [r|] eqn:E; [| discriminate].
  intros H.
  apply (literal_run1 "" "www." s s r n); [reflexivity | | exact E | exact H].
  now exists "".
Qed.

Lemma match_http_split s n :
  match_http s = Some n -> url_match "http://" s n \/ url_match "https://" s n.
Proof.
  unfold match_http. destruct (literal "http" s) as [r|] eqn:E; [| discriminate].
  destruct (literal_split _ _ _ E) as (l & Hs & Hl).
  cbv zeta.
  assert (Hno_s : forall m,
             match literal "://" r with
             | Some r2 => option_map (fun n => (7 + n)%nat) (run1 r2)
             | None => None
             end = Some m -> url_match "http://" s m).
  { intros m H. destruct (literal "://" r) as [r3|] eqn:E4; [| discriminate].
    apply (literal_run1 "http" "://" s r r3 m);
      [reflexivity | eauto | exact E4 | exact H]. }
  destruct (literal "s" r) as [r1|] eqn:E1; [| intros H; left; now apply Hno_s].
  destruct (literal "://" r1) as [r2|] eqn:E2;
    [| intros H; left; now apply Hno_s].
  destruct (option_map _ (run1 r2)) as [m|] eqn:E3;
    [| intros H; left; now apply Hno_s].
  intros H. inversion H; subst m. right.
  destruct (literal_split _ _ _ E1) as (l1 & Hr & Hl1).
  apply (literal_run1 "https" "://" s r1 r2 n);
    [reflexivity | | exact E2 | exact E3].
  exists (l ++ l1). split; [now rewrite app_assoc_str, <- Hr |].
  now rewrite lower_app, Hl, Hl1.
Qed.

Lemma match_at_split s n :
  match_at s = Some n ->
  url_match "http://" s n \/ url_match "https://" s n \/ url_match "www." s n.
Proof.
  unfold match_at. destruct (match_http s) as [m|] eqn:E.
  - intros H. inversion H; subst m.
    destruct (match_http_split _ _ E); auto.
  - intros H. right. right. now apply match_www_split.
Qed.

Lemma findall_from_matches s : forall skip u,
  In u (findall_from skip s) ->
  exists pre suf n,
    s = pre ++ suf /\ match_at suf = Some n /\ u = substring 0 n suf.
Proof.
  induction s as [|c s IH]; intros skip u; cbn [findall_from]; [intros [] |].
  assert (Hlater : forall k, In u (findall_from k s) ->
            exists pre suf n,
              String c s = pre ++ suf /\ match_at suf = Some n
              /\ u = substring 0 n suf).
  { intros k H. destruct (IH _ _ H) as (pre & suf & n & -> & Hm & Hu).
    now exists (String c pre), suf, n. }
  destruct skip as [|k]; [| apply Hlater].
  destruct (match_at (String c s)) as [n|] eqn:E; [| apply Hlater].
  intros [<- | H]; [| now apply (Hlater (n - 1)%nat)].
  now exists "", (String c s), n.
Qed.

(** What [extract_urls] makes of a match: the match without its trailing
    punctuation. *)
Lemma extract_urls_matches text u :
  In u (extract_urls text) ->
  exists lit pre l x r,
    (lit = "http://" \/ lit = "https://" \/ lit = "www.")
    /\ text = pre ++ (l ++ x) ++ r
    /\ lower l = lit /\ x <> "" /\ all url_char x = true
    /\ u = rstrip ".,;:" (l ++ x).
Proof.
  unfold extract_urls. destruct (String.eqb text ""); [intros [] |].
  cbv zeta. rewrite in_map_iff. intros (m & <- & Hin).
  destruct (findall_from_matches _ _ _ Hin) as (pre & suf & n & -> & Hm & ->).
  assert (H : exists lit,
             (lit = "http://" \/ lit = "https://" \/ lit = "www.")
             /\ url_match lit suf n).
  { destruct (match_at_split _ _ Hm) as [H | [H | H]]; eauto 6. }
  destruct H as (lit & Hlit & l & x & r & -> & -> & Hl & Hne & Hx).
  exists lit, pre, l, x, r. rewrite substring_prefix. auto 8.
Qed.

(** The lower case of an extracted URL, by cases on the scheme. *)
Lemma extracted_lower l x lit :
  (lit = "http://" \/ lit = "https://" \/ lit = "www.") ->
  lower l = lit -> x <> "" ->
  lower (rstrip ".,;:" (l ++ x))
  = match rstrip ".,;:" (lower x) with
    | EmptyString => rstrip ".,;:" lit
    | r => lit ++ r
    end.
Proof.
  intros Hlit Hl Hne. unfold rstrip.
  rewrite <- (rstrip_by_lower _ _ punctuation_lower_char), lower_app, Hl.
  apply rstrip_app.
Qed.

Lemma literal_complete lit : forall l r,
  lower l = lower lit -> literal lit (l ++ r) = Some r.
Proof.
  induction lit as [|a lit IH]; intros l r Hl.
  - apply lower_empty in Hl. subst l. reflexivity.
  - destruct l as [|b l]; [discriminate |]. cbn [lower] in Hl.
    injection Hl as Hb Hrest. rewrite app_String. cbn [literal].
    rewrite Hb, Ascii.eqb_refl. now apply IH.
Qed.

Lemma lower_app_inv s : forall a b,
  lower s = a ++ b ->
  exists s1 s2, s = s1 ++ s2 /\ lower s1 = a /\ lower s2 = b.
Proof.
  intros a. revert s. induction a as [|x a IH]; intros s b H.
  - now exists "", s.
  - destruct s as [|c s]; [discriminate |]. cbn [lower] in H.
    rewrite app_String in H. injection H as Hc Hs.
    destruct (IH s b Hs) as (s1 & s2 & -> & H1 & H2).
    exists (String c s1), s2. cbn [lower]. now rewrite H1, Hc.
Qed.

Lemma run1_some c rest :
  url_char c = true -> exists n, run1 (String c rest) = Some n.
Proof. intros Hc. unfold run1. cbn [run]. rewrite Hc. eauto. Qed.

(** The pattern matches at a scheme that a character of the class
    follows. *)
Lemma match_at_scheme scheme c rest :
  lower scheme = "http://" \/ lower scheme = "https://"
  \/ lower scheme = "www." ->
  url_char c = true ->
  exists n, match_at (scheme ++ String c rest) = Some n.
Proof.
  intros Hs Hc. destruct (run1_some c rest Hc) as (n & Hn).
  unfold match_at, match_http, match_www.
  destruct Hs as [Hs | [Hs | Hs]].
  - change "http://" with ("http" ++ "://") in Hs.
    destruct (lower_app_inv _ _ _ Hs) as (l1 & l2 & -> & H1 & H2).
    rewrite app_assoc_str, (literal_complete "http" l1 _ H1).
    rewrite (literal_complete "://" l2 _ H2), Hn.
    destruct l2 as [|x l2]; [discriminate |]. cbn [lower] in H2.
    injection H2 as Hx _. rewrite app_String. cbn [literal].
    rewrite Hx. cbn. eauto.
  - change "https://" with ("http" ++ "s" ++ "://") in Hs.
    destruct (lower_app_inv _ _ _ Hs) as (l1 & l23 & -> & H1 & H23).
    destruct (lower_app_inv _ _ _ H23) as (l2 & l3 & -> & H2 & H3).
    rewrite !app_assoc_str, (literal_complete "http" l1 _ H1).
    rewrite (literal_complete "s" l2 _ H2), (literal_complete "://" l3 _ H3).
    rewrite Hn. cbn. eauto.
  - assert (Hh : literal "http" (scheme ++ String c rest) = None).
    { destruct scheme as [|x scheme]; [discriminate |]. cbn [lower] in Hs.
      injection Hs as Hx _. rewrite app_String. cbn [literal].
      now rewrite Hx. }
    rewrite Hh, (literal_complete "www." scheme _ Hs), Hn. cbn. eauto.
Qed.

Lemma findall_from_finds pre suf n :
  match_at suf = Some n -> findall_from 0 (pre ++ suf) <> [].
Proof.
  intros Hm. induction pre as [|c pre IH].
  - rewrite app_empty. destruct suf as [|c suf]; [discriminate |].
    cbn [findall_from]. now rewrite Hm.
  - rewrite app_String. cbn [findall_from].
    change (String c (pre ++ suf)) with (String c pre ++ suf).
    destruct (match_at (String c pre ++ suf)); [discriminate | exact IH].
Qed.

End NormalizeFacts.

Section Labels.
Import PyStr PyText PyTextFacts Normalize NormalizeFacts.
(** X13.  [normalize_label] returns one of the three labels [phishing],
    [legitimate] and [unknown], and each of them is left as it is when it
    is normalized again, whatever the source hint. *)
Theorem normalize_label_is_a_fixed_point (raw_label source_hint hint : option string) :
  let l := normalize_label raw_label source_hint in
  (l = "phishing" \/ l = "legitimate" \/ l = "unknown")
  /\ normalize_label (Some l) hint = l.
Proof.
  cbv zeta. split; [apply normalize_label_known |].
  destruct (normalize_label_known raw_label source_hint) as [E | [E | E]];
    rewrite E; reflexivity.
Qed.

(** X14.  The letter case of a label and the blanks around it do not
    matter: an ASCII label surrounded by blanks is normalized as any label
    that reads the same in lower case. *)
Theorem normalize_label_ignores_case_and_padding
    (pad1 pad2 s s' : string) (hint : option string) :
  is_ascii s = true ->
  all is_space pad1 = true ->
  all is_space pad2 = true ->
  lower s = lower s' ->
  normalize_label (Some (pad1 ++ s ++ pad2)) hint
  = normalize_label (Some s') hint.
Proof.
  intros _ H1 H2 Hs. unfold normalize_label. cbv zeta.
  rewrite (strip_pad _ _ _ H1 H2), <- !strip_lower, Hs. reflexivity.
Qed.

Lemma normalize_label_ignores_case_and_padding_witness :
  normalize_label (Some ("  " ++ "Not_Phishing" ++ PyStr.newline)) None
  = normalize_label (Some "not_phishing") None.
Proof.
  apply (normalize_label_ignores_case_and_padding
           "  " PyStr.newline "Not_Phishing" "not_phishing" None);
    reflexivity.
Defined.

End Labels.

Section Columns.
Import PyStr PyText PyTextFacts Normalize NormalizeFacts.
(** X15.  [find_column] on ASCII names finds no column exactly when no
    candidate occurs, letter case ignored, in the name of any column. *)
Theorem find_column_none_iff_no_candidate_occurs
    (df_columns candidates : list string) :
  forallb is_ascii df_columns = true ->
  forallb is_ascii candidates = true ->
  (find_column df_columns candidates = None
   <-> forall cand col,
         In cand candidates -> In col df_columns ->
         contains (lower cand) (lower col) = false).
Proof.
  intros _ _. unfold find_column. cbv zeta.
  destruct (columns_dict_lower_to_orig df_columns) as (_ & Hent & Hcov).
  split.
  - intros H cand col Hc Hcol.
    destruct (first_match String.eqb _ _); [discriminate |].
    apply Hcov, in_map_iff in Hcol as ([k v] & Hk & Hin). cbn in Hk. subst k.
    exact (proj1 (first_match_none _ _ _) H cand _ v Hc Hin).
  - intros H.
    assert (Hfuzzy : first_match contains candidates
                       (lower_to_orig df_columns) = None).
    { apply first_match_none. intros cand k v Hc Hin.
      destruct (Hent k v Hin) as (-> & pre & post & Hcols & _).
      apply H; [exact Hc |]. rewrite Hcols. apply in_app_iff. right. now left. }
    destruct (first_match String.eqb _ _) as [v|] eqn:E; [| exact Hfuzzy].
    destruct (first_match_some _ _ _ _ E) as (cand & k & Hc & Hin & Ht).
    apply String.eqb_eq in Ht. subst k.
    pose proof (proj1 (first_match_none _ _ _) Hfuzzy cand _ v Hc Hin) as Hf.
    rewrite contains_self in Hf. discriminate.
Qed.

(** X16.  The column [find_column] returns is one of the columns given,
    and among the columns that read the same in lower case it is the last
    one: the dict of lowered names keeps the last column of each name. *)
Theorem find_column_returns_last_column_of_its_name
    (df_columns candidates : list string) (col : string) :
  forallb is_ascii df_columns = true ->
  find_column df_columns candidates = Some col ->
  exists pre post,
    df_columns = (pre ++ col :: post)%list
    /\ Forall (fun c => lower c <> lower col) post.
Proof.
  intros _. unfold find_column. cbv zeta.
  destruct (columns_dict_lower_to_orig df_columns) as (_ & Hent & _).
  assert (Hsome : forall test,
             first_match test candidates (lower_to_orig df_columns) = Some col ->
             exists pre post,
               df_columns = (pre ++ col :: post)%list
               /\ Forall (fun c => lower c <> lower col) post).
  { intros test H.
    destruct (first_match_some _ _ _ _ H) as (cand & k & _ & Hin & _).
    destruct (Hent k col Hin) as (-> & pre & post & Hcols & Hpost).
    now exists pre, post. }
  destruct (first_match String.eqb _ _) as [v|] eqn:E.
  - intros H. inversion H; subst. now apply (Hsome String.eqb).
  - apply Hsome.
Qed.

(** X17.  When some column is named as a candidate, letter case ignored,
    [find_column] returns a column named as a candidate, and as the first
    of the candidates that name a column: a candidate that only occurs
    inside a column name is used only when no column is named exactly, and
    among exact names the order of the candidates decides, not that of the
    columns. *)
Theorem find_column_prefers_exact_names
    (df_columns candidates : list string) (cand col : string) :
  forallb is_ascii df_columns = true ->
  forallb is_ascii candidates = true ->
  In cand candidates ->
  In col df_columns ->
  lower cand = lower col ->
  exists found earlier cand' later,
    find_column df_columns candidates = Some found
    /\ candidates = (earlier ++ cand' :: later)%list
    /\ lower found = lower cand'
    /\ forall c col',
         In c earlier -> In col' df_columns -> lower c <> lower col'.
Proof.
  intros _ _ Hc Hcol Heq. unfold find_column. cbv zeta.
  destruct (columns_dict_lower_to_orig df_columns) as (_ & Hent & Hcov).
  destruct (first_match String.eqb _ _) as [v|] eqn:E.
  - destruct (first_match_split _ _ _ _ E)
      as (pre & cand' & post & k & Hcands & Hin & Ht & Hpre).
    apply String.eqb_eq in Ht. subst k.
    destruct (Hent _ v Hin) as (Hk & _).
    exists v, pre, cand', post. repeat split; auto.
    intros c col' Hc' Hcol' Hlow.
    apply Hcov, in_map_iff in Hcol' as ([k v'] & Hk' & Hin').
    cbn in Hk'. subst k.
    pose proof (Hpre c _ v' Hc' Hin') as Hf.
    rewrite Hlow, String.eqb_refl in Hf. discriminate.
  - exfalso.
    apply Hcov, in_map_iff in Hcol as ([k v] & Hk & Hin). cbn in Hk. subst k.
    pose proof (proj1 (first_match_none _ _ _) E cand _ v Hc Hin) as Hf.
    rewrite Heq, String.eqb_refl in Hf. discriminate.
Qed.

End Columns.

Lemma find_column_none_iff_no_candidate_occurs_witness :
  Normalize.find_column Cases.no_subject_columns Normalize.SUBJECT_CANDIDATES
  = None
  <-> forall cand col,
        In cand Normalize.SUBJECT_CANDIDATES ->
        In col Cases.no_subject_columns ->
        PyStr.contains (PyText.lower cand) (PyText.lower col) = false.
Proof.
  apply (find_column_none_iff_no_candidate_occurs
           Cases.no_subject_columns Normalize.SUBJECT_CANDIDATES);
    reflexivity.
Defined.

Lemma find_column_returns_last_column_of_its_name_witness :
  exists pre post,
    Cases.twice_subject_columns = (pre ++ "SUBJECT" :: post)%list
    /\ Forall (fun c => PyText.lower c <> PyText.lower "SUBJECT") post.
Proof.
  apply (find_column_returns_last_column_of_its_name
           Cases.twice_subject_columns Normalize.SUBJECT_CANDIDATES "SUBJECT");
    reflexivity.
Defined.

Lemma find_column_prefers_exact_names_witness :
  exists found earlier cand' later,
    Normalize.find_column Cases.subject_line_columns
                          Normalize.SUBJECT_CANDIDATES = Some found
    /\ Normalize.SUBJECT_CANDIDATES = (earlier ++ cand' :: later)%list
    /\ PyText.lower found = PyText.lower cand'
    /\ forall c col',
         In c earlier -> In col' Cases.subject_line_columns ->
         PyText.lower c <> PyText.lower col'.
Proof.
  apply (find_column_prefers_exact_names
           Cases.subject_line_columns Normalize.SUBJECT_CANDIDATES
           "title" "title").
  - reflexivity.
  - reflexivity.
  - right. left. reflexivity.
  - right. left. reflexivity.
  - reflexivity.
Defined.

Section Urls.
Import PyStr PyStrFacts PyStrSplit PyText PyTextFacts Normalize NormalizeFacts.
(** X18.  Every URL [extract_urls] finds in an ASCII text is not empty,
    holds no blank, no closing parenthesis and no double quote, does not
    end with a full stop, a comma, a semicolon or a colon, and begins, in
    whatever letter case, with [http://], [https://] or [www]. *)
Theorem extract_urls_well_formed (text u : string) :
  is_ascii text = true ->
  In u (extract_urls text) ->
  u <> ""
  /\ all url_char u = true
  /\ rstrip ".,;:" u = u
  /\ (String.prefix "http://" (lower u) || String.prefix "https://" (lower u)
      || String.prefix "www" (lower u)) = true.
Proof.
  intros _ Hin.
  destruct (extract_urls_matches _ _ Hin)
    as (lit & pre & l & x & r & Hlit & _ & Hl & Hne & Hx & ->).
  pose proof (extracted_lower l x lit Hlit Hl Hne) as Hlow.
  assert (Hscheme :
            (String.prefix "http://" (lower (rstrip ".,;:" (l ++ x)))
             || String.prefix "https://" (lower (rstrip ".,;:" (l ++ x)))
             || String.prefix "www" (lower (rstrip ".,;:" (l ++ x)))) = true).
  { rewrite Hlow. destruct (rstrip ".,;:" (lower x)) as [|c t].
    - destruct Hlit as [-> | [-> | ->]]; reflexivity.
    - destruct Hlit as [-> | [-> | ->]].
      + now rewrite (prefix_refl "http://").
      + rewrite (prefix_refl "https://"), orb_true_r. reflexivity.
      + change ("www." ++ String c t) with ("www" ++ String "." (String c t)).
        rewrite (prefix_refl "www"). apply orb_true_r. }
  split; [| split; [| split; [| exact Hscheme]]].
  - intros E. rewrite E in Hscheme. discriminate.
  - destruct (rstrip_by_prefix (fun c => mem c ".,;:") (l ++ x)) as (t & Ht).
    assert (Hall : all url_char (l ++ x) = true).
    { rewrite all_app, Hx, andb_true_r. apply url_chars_lower. rewrite Hl.
      destruct Hlit as [-> | [-> | ->]]; reflexivity. }
    rewrite Ht, all_app in Hall. now apply andb_true_iff in Hall as [Hu _].
  - apply rstrip_by_idem.
Qed.

(** X19.  Every URL [extract_urls] finds is a piece of the text, as it
    stands there: nothing is added to it or changed in it. *)
Theorem extract_urls_are_pieces_of_the_text (text u : string) :
  is_ascii text = true ->
  In u (extract_urls text) ->
  exists before after : string, text = before ++ u ++ after.
Proof.
  intros _ Hin.
  destruct (extract_urls_matches _ _ Hin)
    as (lit & pre & l & x & r & _ & -> & _ & _ & _ & ->).
  destruct (rstrip_by_prefix (fun c => mem c ".,;:") (l ++ x)) as (t & Ht).
  exists pre, (t ++ r). unfold rstrip.
  rewrite <- (app_assoc_str _ t r), <- Ht. reflexivity.
Qed.

(** X20.  A text in which neither [http] nor [www.] occurs, in any letter
    case, has no URL for [extract_urls]. *)
Theorem extract_urls_needs_a_scheme (text : string) :
  is_ascii text = true ->
  contains "http" (lower text) = false ->
  contains "www." (lower text) = false ->
  extract_urls text = [].
Proof.
  intros _ Hhttp Hwww.
  destruct (extract_urls text) as [|u us] eqn:E; [reflexivity |].
  destruct (extract_urls_matches text u) as
    (lit & pre & l & x & r & Hlit & -> & Hl & _).
  { rewrite E. now left. }
  rewrite !lower_app, Hl in Hhttp, Hwww.
  assert (Hc : contains "http" ((lit ++ lower x) ++ lower r) = true
               \/ contains "www." ((lit ++ lower x) ++ lower r) = true).
  { destruct Hlit as [-> | [-> | ->]].
    - left. change "http://" with ("http" ++ "://").
      rewrite !app_assoc_str. apply contains_here.
    - left. change "https://" with ("http" ++ "s://").
      rewrite !app_assoc_str. apply contains_here.
    - right. rewrite !app_assoc_str. apply contains_here. }
  destruct Hc as [Hc | Hc].
  - rewrite (contains_app_l _ (lower pre) _ Hc) in Hhttp. discriminate.
  - rewrite (contains_app_l _ (lower pre) _ Hc) in Hwww. discriminate.
Qed.

(** X26.  A text that holds [http://], [https://] or [www.], in whatever
    letter case, followed by a character that is no blank, closing
    parenthesis or double quote, has a URL for [extract_urls]. *)
Theorem extract_urls_finds_a_url (before scheme rest : string) (c : ascii) :
  is_ascii (before ++ scheme ++ String c rest) = true ->
  lower scheme = "http://" \/ lower scheme = "https://"
  \/ lower scheme = "www." ->
  url_char c = true ->
  extract_urls (before ++ scheme ++ String c rest) <> [].
Proof.
  intros _ Hs Hc. destruct (match_at_scheme scheme c rest Hs Hc) as (n & Hm).
  unfold extract_urls, findall.
  destruct (String.eqb_spec (before ++ scheme ++ String c rest) "") as [E|_].
  - destruct before; [| discriminate]. rewrite app_empty in E.
    destruct scheme; [| discriminate]. discriminate.
  - pose proof (findall_from_finds before _ n Hm) as Hf.
    destruct (findall_from 0 (before ++ scheme ++ String c rest));
      [contradiction | discriminate].
Qed.

End Urls.

Lemma extract_urls_finds_a_url_witness :
  Normalize.extract_urls ("see " ++ "WWW." ++ String "e" "xample.org now")
  <> [].
Proof.
  apply (extract_urls_finds_a_url "see " "WWW." "xample.org now" "e").
  - reflexivity.
  - right. right. reflexivity.
  - reflexivity.
Defined.

Lemma extract_urls_well_formed_witness :
  "http://example.com/login" <> ""
  /\ PyText.all Normalize.url_char "http://example.com/login" = true
  /\ PyText.rstrip ".,;:" "http://example.com/login"
     = "http://example.com/login"
  /\ (String.prefix "http://" (PyText.lower "http://example.com/login")
      || String.prefix "https://" (PyText.lower "http://example.com/login")
      || String.prefix "www" (PyText.lower "http://example.com/login")) = true.
Proof.
  apply (extract_urls_well_formed Cases.mail_text "http://example.com/login").
  - reflexivity.
  - vm_compute. left. reflexivity.
Defined.

Lemma extract_urls_are_pieces_of_the_text_witness :
  exists before after : string,
    Cases.mail_text = before ++ "www.example.org" ++ after.
Proof.
  apply (extract_urls_are_pieces_of_the_text
           Cases.mail_text "www.example.org").
  - reflexivity.
  - vm_compute. right. left. reflexivity.
Defined.

Lemma extract_urls_needs_a_scheme_witness :
  Normalize.extract_urls "See you tomorrow at the office." = [].
Proof.
  apply (extract_urls_needs_a_scheme "See you tomorrow at the office.");
    reflexivity.
Defined.

(** ** Removing duplicates *)

Section DedupeFacts.
Import Normalize.

Variable simple_hash : string -> string.
Lemma dedupe_fold rs : forall seen out,
  snd (fold_left (dedupe_step simple_hash) rs (seen, out))
  = (out ++ first_of_each simple_hash seen rs)%list.
Proof.
  induction rs as [|r rs IH]; intros seen out; cbn [fold_left first_of_each].
  - now rewrite app_nil_r.
  - unfold dedupe_step at 2. fold (record_hash simple_hash r).
    destruct (decide (record_hash simple_hash r ∈ seen)); [apply IH |].
    rewrite IH, <- app_assoc. reflexivity.
Qed.

Lemma dedupe_records_kept rs :
  dedupe_records simple_hash rs = first_of_each simple_hash ∅ rs.
Proof. unfold dedupe_records. now rewrite dedupe_fold. Qed.

Lemma kept_sublist rs : forall seen,
  first_of_each simple_hash seen rs `sublist_of` rs.
Proof.
  induction rs as [|r rs IH]; intros seen; cbn [first_of_each].
  - constructor.
  - destruct (decide (record_hash simple_hash r ∈ seen)).
    + apply sublist_cons, IH.
    + apply sublist_skip, IH.
Qed.

Lemma kept_fresh rs : forall seen r,
  In r (first_of_each simple_hash seen rs) ->
  record_hash simple_hash r ∉ seen.
Proof.
  induction rs as [|r0 rs IH]; intros seen r; cbn [first_of_each];
    [intros [] |].
  destruct (decide (record_hash simple_hash r0 ∈ seen)) as [Hin|Hout];
    [apply IH |].
  intros [<- | H]; [exact Hout |].
  apply IH in H. intros Hs. apply H, elem_of_union. now right.
Qed.

Lemma kept_nodup rs : forall seen,
  NoDup (map (record_hash simple_hash) (first_of_each simple_hash seen rs)).
Proof.
  induction rs as [|r rs IH]; intros seen; cbn [first_of_each].
  - apply NoDup_nil_2.
  - destruct (decide (record_hash simple_hash r ∈ seen)); [apply IH |].
    cbn [map]. apply NoDup_cons_2; [| apply IH].
    rewrite list_elem_of_In, in_map_iff. intros (r' & Heq & Hin).
    apply kept_fresh in Hin. apply Hin, elem_of_union. left.
    now apply elem_of_singleton.
Qed.

Lemma kept_covers rs : forall seen r,
  In r rs ->
  record_hash simple_hash r ∈ seen
  \/ exists r',
       In r' (first_of_each simple_hash seen rs)
       /\ record_hash simple_hash r' = record_hash simple_hash r.
Proof.
  induction rs as [|r0 rs IH]; intros seen r; [intros [] |].
  cbn [first_of_each]. intros [<- | Hin].
  - destruct (decide (record_hash simple_hash r0 ∈ seen)); [now left |].
    right. exists r0. split; [now left | reflexivity].
  - destruct (decide (record_hash simple_hash r0 ∈ seen)) as [Hs|Hs];
      [now apply IH |].
    destruct (IH ({[record_hash simple_hash r0]} ∪ seen) r Hin)
      as [H | (r' & Hr' & He)].
    + apply elem_of_union in H as [H | H]; [| now left].
      apply elem_of_singleton in H. right. exists r0.
      split; [now left | now symmetry].
    + right. exists r'. split; [now right | exact He].
Qed.

Lemma kept_filter h rs : forall seen,
  first_of_each simple_hash ({[h]} ∪ seen) rs
  = first_of_each simple_hash seen
      (List.filter (fun r => negb (String.eqb (record_hash simple_hash r) h))
                   rs).
Proof.
  induction rs as [|r rs IH]; intros seen; [reflexivity |].
  cbn [first_of_each List.filter].
  destruct (String.eqb_spec (record_hash simple_hash r) h) as [E|E];
    cbn [negb].
  - destruct (decide (record_hash simple_hash r ∈ {[h]} ∪ seen)) as [_|Hn];
      [apply IH |].
    exfalso. apply Hn, elem_of_union. left. now apply elem_of_singleton.
  - cbn [first_of_each].
    destruct (decide (record_hash simple_hash r ∈ {[h]} ∪ seen))
      as [Hin|Hout];
      destruct (decide (record_hash simple_hash r ∈ seen)) as [Hin'|Hout'].
    + apply IH.
    + exfalso. apply elem_of_union in Hin as [Hin|Hin]; [| contradiction].
      now apply elem_of_singleton in Hin.
    + exfalso. apply Hout, elem_of_union. now right.
    + f_equal. rewrite <- IH. f_equal.
      now rewrite !(assoc_L (∪)), (comm_L (∪) {[h]}).
Qed.

Lemma kept_idem rs : forall seen,
  first_of_each simple_hash seen (first_of_each simple_hash seen rs)
  = first_of_each simple_hash seen rs.
Proof.
  induction rs as [|r rs IH]; intros seen; [reflexivity |].
  cbn [first_of_each].
  destruct (decide (record_hash simple_hash r ∈ seen)) as [Hin|Hout];
    [apply IH |].
  cbn [first_of_each].
  destruct (decide (record_hash simple_hash r ∈ seen)); [contradiction |].
  now rewrite IH.
Qed.

(** X21.  [dedupe_records] returns records of the input, in their order,
    no two of them with the same hash; every record of the input has a
    record of the same hash in the result; and removing duplicates from the
    result changes nothing. *)
Theorem dedupe_keeps_one_record_per_hash (records : list email_record) :
  let out := dedupe_records simple_hash records in
  NoDup (map (record_hash simple_hash) out)
  /\ out `sublist_of` records
  /\ (forall r, In r records ->
        exists r',
          In r' out /\ record_hash simple_hash r' = record_hash simple_hash r)
  /\ dedupe_records simple_hash out = out.
Proof.
  cbv zeta. rewrite !dedupe_records_kept. split; [| split; [| split]].
  - apply kept_nodup.
  - apply kept_sublist.
  - intros r Hin. destruct (kept_covers records ∅ r Hin) as [H | H];
      [| exact H].
    now apply not_elem_of_empty in H.
  - apply kept_idem.
Qed.

(** X22.  Of the records with one hash the first is the one kept: the
    result for a list is its first record, followed by the result for the
    other records whose hash is not that of the first. *)
Theorem dedupe_keeps_the_first_record (r : email_record)
    (records : list email_record) :
  dedupe_records simple_hash (r :: records)
  = r :: dedupe_records simple_hash
           (List.filter
              (fun r' => negb (String.eqb (record_hash simple_hash r')
                                          (record_hash simple_hash r)))
              records).
Proof.
  rewrite !dedupe_records_kept. cbn [first_of_each].
  destruct (decide (record_hash simple_hash r ∈ (∅ : gset string)))
    as [H|_]; [now apply not_elem_of_empty in H |].
  f_equal. apply kept_filter.
Qed.

(** X23.  A record with the key of the record before it is dropped,
    whatever else it holds: its label, its URLs and its source play no
    role, and neither does the place where subject and body are cut, since
    the key is the subject, the body and the sender joined by [||]. *)
Theorem dedupe_drops_a_record_of_the_same_key (r1 r2 : email_record)
    (records : list email_record) :
  dedupe_key r2 = dedupe_key r1 ->
  dedupe_records simple_hash (r1 :: r2 :: records)
  = dedupe_records simple_hash (r1 :: records).
Proof.
  intros Hk. rewrite !dedupe_records_kept. cbn [first_of_each].
  destruct (decide (record_hash simple_hash r1 ∈ (∅ : gset string)))
    as [H|_]; [now apply not_elem_of_empty in H |].
  assert (Hh : record_hash simple_hash r2 = record_hash simple_hash r1)
    by (unfold record_hash; now rewrite Hk).
  destruct (decide (record_hash simple_hash r2
                    ∈ {[record_hash simple_hash r1]} ∪ (∅ : gset string)))
    as [_|Hn]; [reflexivity |].
  exfalso. apply Hn, elem_of_union. left. now apply elem_of_singleton.
Qed.

End DedupeFacts.

Lemma dedupe_drops_a_record_of_the_same_key_witness :
  Normalize.dedupe_records Cases.plain_hash
    [Cases.cut_early; Cases.cut_late; Cases.other_record]
  = Normalize.dedupe_records Cases.plain_hash
      [Cases.cut_early; Cases.other_record].
Proof.
  apply (dedupe_drops_a_record_of_the_same_key
           Cases.plain_hash Cases.cut_early Cases.cut_late
           [Cases.other_record]).
  reflexivity.
Defined.

(** ** Splitting into train and test *)

Section SplitFacts.
Import Normalize.

Context {A : Type}.
Variable shuffle : Z -> list A -> list A.
Lemma split_ok_inv (records : list A) (test_frac : float) (seed : Z)
    (train test after : list A) :
  train_test_split shuffle records test_frac seed = (Ok (train, test), after) ->
  after = shuffle seed records /\ (test ++ train)%list = after.
Proof.
  unfold train_test_split. cbv zeta.
  destruct (match PyNum.of_int _ with Ok _ => _ | Raise e => Raise e end)
    as [n|e]; [| discriminate].
  intros H. inversion H; subst train test after; clear H.
  unfold slice_to, slice_from. split; [reflexivity | apply take_drop].
Qed.

(** X24.  When the shuffle permutes the records and [train_test_split]
    returns, the caller's list holds the shuffled records, the test set and
    the training set are the two ends of it, and together they hold the
    records given, each as often as it was given: no record is lost and
    none is in both sets, whatever the fraction. *)
Theorem train_test_split_is_a_partition (records : list A) (test_frac : float)
    (seed : Z) (train test after : list A) :
  (forall l, Permutation (shuffle seed l) l) ->
  train_test_split shuffle records test_frac seed = (Ok (train, test), after) ->
  after = shuffle seed records
  /\ (test ++ train)%list = after
  /\ Permutation (train ++ test)%list records.
Proof.
  intros Hperm H. destruct (split_ok_inv _ _ _ _ _ _ H) as [Hafter Hcat].
  split; [exact Hafter |]. split; [exact Hcat |].
  rewrite Permutation_app_comm, Hcat, Hafter. apply Hperm.
Qed.

End SplitFacts.

Lemma train_test_split_is_a_partition_witness :
  [5; 4; 3; 2; 1] = Cases.reversing 42 [1; 2; 3; 4; 5]
  /\ ([5] ++ [4; 3; 2; 1])%list = [5; 4; 3; 2; 1]
  /\ Permutation ([4; 3; 2; 1] ++ [5])%list [1; 2; 3; 4; 5].
Proof.
  apply (train_test_split_is_a_partition
           Cases.reversing [1; 2; 3; 4; 5] 0.2%float 42
           [4; 3; 2; 1] [5] [5; 4; 3; 2; 1]).
  - intros l. symmetry. apply Permutation_rev.
  - vm_compute. reflexivity.
Defined.

(** ** Train and test after the duplicates are removed *)

Section SplitDeduped.
Import Normalize.

Variable simple_hash : string -> string.
Variable shuffle : Z -> list email_record -> list email_record.
(** X27.  When the records are split after [dedupe_records], as [main]
    does, and the shuffle permutes them, no record of the training set has
    the hash of a record of the test set: no e-mail is on both sides of the
    split. *)
Theorem split_of_deduped_records_shares_no_hash
    (records : list email_record) (test_frac : float) (seed : Z)
    (train test after : list email_record) :
  (forall l, Permutation (shuffle seed l) l) ->
  train_test_split shuffle (dedupe_records simple_hash records) test_frac seed
    = (Ok (train, test), after) ->
  forall r r',
    In r train -> In r' test ->
    record_hash simple_hash r <> record_hash simple_hash r'.
Proof.
  intros Hperm H r r' Hr Hr' Heq.
  destruct (split_ok_inv _ _ _ _ _ _ _ H) as [-> Hcat].
  assert (Hnd : NoDup (map (record_hash simple_hash) (test ++ train)%list)).
  { rewrite Hcat, (Hperm _), dedupe_records_kept. apply kept_nodup. }
  rewrite map_app in Hnd. apply NoDup_app in Hnd as (_ & Hdis & _).
  apply (Hdis (record_hash simple_hash r')).
  - apply list_elem_of_In, in_map. exact Hr'.
  - rewrite <- Heq. apply list_elem_of_In, in_map. exact Hr.
Qed.

End SplitDeduped.

Lemma split_of_deduped_records_shares_no_hash_witness :
  Normalize.record_hash Cases.plain_hash Cases.cut_early
  <> Normalize.record_hash Cases.plain_hash Cases.other_record.
Proof.
  apply (split_of_deduped_records_shares_no_hash
           Cases.plain_hash Cases.reversing
           [Cases.cut_early; Cases.cut_late; Cases.other_record]
           0.5%float 42
           [Cases.cut_early] [Cases.other_record]
           [Cases.other_record; Cases.cut_early]).
  - intros l. symmetry. apply Permutation_rev.
  - vm_compute. reflexivity.
  - left. reflexivity.
  - left. reflexivity.
Defined.

(** ** The labels of a file that holds phishing only *)

Section RowsFacts.
Import PyStr PyText Normalize NormalizeFacts.

Variable parse_raw_email : string -> parsed_email.
(** X25.  For a file whose path names Nazario or phishing, the rows that
    [normalize_df_like] makes of a list of dicts, once [main] has forced
    their labels, are all labelled [phishing] or [legitimate]: none is left
    [unknown], whatever the rows hold. *)
Theorem phishing_only_file_has_no_unknown_label (p : string)
    (obj : list (gmap string string)) (source_name : option string) :
  contains "nazario" (lower p) || contains "phish" (lower p) = true ->
  Forall (fun r => rec_label r = Some "phishing"
                   \/ rec_label r = Some "legitimate")
         (force_labels p (normalize_rows parse_raw_email obj source_name)).
Proof.
  intros Hp. unfold force_labels. rewrite Hp.
  apply List.Forall_forall. intros r Hin. apply in_map_iff in Hin as (r0 & <- & Hin).
  apply in_map_iff in Hin as (row & <- & _).
  unfold normalize_row. cbv zeta.
  pose proof (normalize_label_known
                (py_or (row !! "label") (row !! "class")) source_name) as Hk.
  destruct (py_or (row !! "raw") (row !! "eml")) as [raw_text|];
    [destruct (negb _ && _) |];
    cbn [rec_label default from_option id];
    destruct Hk as [E | [E | E]]; rewrite E; cbn; auto.
Qed.

End RowsFacts.

Lemma phishing_only_file_has_no_unknown_label_witness :
  Forall (fun r => Normalize.rec_label r = Some "phishing"
                   \/ Normalize.rec_label r = Some "legitimate")
         (Normalize.force_labels "data/Nazario_5.csv"
            (Normalize.normalize_rows Cases.no_parse Cases.nazario_rows
                                      (Some "Nazario_5.csv"))).
Proof.
  apply (phishing_only_file_has_no_unknown_label
           Cases.no_parse "data/Nazario_5.csv" Cases.nazario_rows
           (Some "Nazario_5.csv")).
  reflexivity.
Defined.

(** ** The two text analyzers *)

Section TextAgentsFacts.

Variable backend : list request -> request -> outcome string.
Variable json_loads : string -> outcome json.

(** The first [run_text_agent] is an analysis by a [TextAgent] that has the
    first instruction text. *)
Lemma first_text_agent_run (subject body : string) (w : world) :
  TextAgentV1.run_text_agent backend json_loads subject body w
  = analyze backend json_loads
            (TextAgent TextAgentV1.TEXT_AGENT_SYSTEM_PROMPT "llama3"
                       "http://localhost:11434")
            (subject, body) w.
Proof.
  rewrite analyze_run. unfold TextAgentV1.run_text_agent. cbv zeta.
  unfold bind at 1. unfold post.
  change (request_of (TextAgent TextAgentV1.TEXT_AGENT_SYSTEM_PROMPT "llama3"
                                "http://localhost:11434") (subject, body))
    with (default_text_request TextAgentV1.TEXT_AGENT_SYSTEM_PROMPT
                               subject body).
  unfold default_text_request.
  destruct (backend (calls w) _) as [raw|e]; [| reflexivity].
  change (TextAgentV1._extract_json_from_text json_loads raw)
    with (_extract_json json_loads raw).
  destruct (_extract_json json_loads raw) as [obj|e]; reflexivity.
Qed.

(** An analysis by a [TextAgent] with the default model and address, in
    terms of its request. *)
Lemma default_text_agent_run (prompt subject body : string) (w : world) :
  let req := default_text_request prompt subject body in
  analyze backend json_loads
          (TextAgent prompt "llama3" "http://localhost:11434")
          (subject, body) w
  = match backend (calls w) req with
    | Raise e => (Raise e, logged w req)
    | Ok raw =>
        match _extract_json json_loads raw with
        | Raise e => (Raise e, logged w req)
        | Ok obj => on_heap (alloc_json obj) (logged w req)
        end
    end.
Proof. cbv zeta. now rewrite analyze_run. Qed.

Lemma instruction_texts_differ :
  TextAgentV1.TEXT_AGENT_SYSTEM_PROMPT <> TextAgentV2.TEXT_AGENT_SYSTEM_PROMPT.
Proof.
  intros H. apply (f_equal String.length) in H. vm_compute in H.
  discriminate.
Qed.

(** X28.  [run_text_agent] of [text_agent.py] does what [BaseAgent.analyze]
    does for a [TextAgent] with the default model and address whose
    instruction text is that of [text_agent.py]: the same request, the same
    result or exception, the same state.  The instruction text of
    [text_agent_v2.py] is another text: the [run_text_agent] of the two
    modules send two requests that differ in the system message and in
    nothing else; and wherever the backend answers the two requests alike,
    the two return the same result or raise the same exception, and leave
    the same store. *)
Theorem first_text_agent_differs_in_the_instruction_text
    (subject body : string) (w : world) :
  let first := TextAgentV1.run_text_agent backend json_loads subject body w in
  let second := TextAgentV2.run_text_agent backend json_loads subject body w in
  let request1 :=
    default_text_request TextAgentV1.TEXT_AGENT_SYSTEM_PROMPT subject body in
  let request2 :=
    default_text_request TextAgentV2.TEXT_AGENT_SYSTEM_PROMPT subject body in
  first = analyze backend json_loads
                  (TextAgent TextAgentV1.TEXT_AGENT_SYSTEM_PROMPT "llama3"
                             "http://localhost:11434")
                  (subject, body) w
  /\ calls (snd first) = (calls w ++ [request1])%list
  /\ calls (snd second) = (calls w ++ [request2])%list
  /\ TextAgentV1.TEXT_AGENT_SYSTEM_PROMPT
     <> TextAgentV2.TEXT_AGENT_SYSTEM_PROMPT
  /\ request1 <> request2
  /\ (backend (calls w) request1 = backend (calls w) request2 ->
      fst first = fst second /\ heap (snd first) = heap (snd second)).
Proof.
  intros first second request1 request2.
  pose proof (first_text_agent_run subject body w) as H1. fold first in H1.
  split; [exact H1 |].
  split; [rewrite H1; apply analyze_calls |].
  split; [apply analyze_calls |].
  split; [exact instruction_texts_differ |].
  split.
  - intros H. apply (f_equal req_system) in H.
    exact (instruction_texts_differ H).
  - intros Hb. subst first second. rewrite H1.
    unfold TextAgentV2.run_text_agent. cbv zeta.
    rewrite !default_text_agent_run. fold request1 request2. rewrite Hb.
    destruct (backend (calls w) request2) as [raw|e]; [| auto].
    destruct (_extract_json json_loads raw) as [obj|e]; [| auto].
    unfold on_heap. cbn [heap logged].
    destruct (alloc_json obj (heap w)) as [r h']. auto.
Qed.

End TextAgentsFacts.

Lemma first_text_agent_differs_in_the_instruction_text_witness :
  fst (TextAgentV1.run_text_agent Sample.backend_odd Sample.loads
         "Hi" "Hello" Sample.start)
  = fst (TextAgentV2.run_text_agent Sample.backend_odd Sample.loads
           "Hi" "Hello" Sample.start)
  /\ heap (snd (TextAgentV1.run_text_agent Sample.backend_odd Sample.loads
                  "Hi" "Hello" Sample.start))
     = heap (snd (TextAgentV2.run_text_agent Sample.backend_odd Sample.loads
                    "Hi" "Hello" Sample.start)).
Proof.
  apply (first_text_agent_differs_in_the_instruction_text
           Sample.backend_odd Sample.loads "Hi" "Hello" Sample.start).
  reflexivity.
Defined.

